(** * NEPA integration layer and integration monitor

    A shallow embedding of [nepa-dapp/src/api/integration-layer.ts]
    (class [IntegrationLayer]: cache, sliding-window rate limiter, retry,
    metrics) and of [nepa-dapp/src/api/integration-monitor.ts]
    (class [IntegrationMonitor]: log store, health classification, alert
    cooldown), followed by the properties established about them.

    Conventions.
    - A JavaScript [number] holding a count or a millisecond timestamp is a
      [Z]; the running average and the error rate are rationals ([Q]), the
      exact values that the double-precision computation approximates.
    - A JavaScript [Map] is an association list in insertion order
      ([Js.JsMap]); [Map.prototype.set] on a present key keeps its position.
    - An [async] method is a state transformer that either returns a value
      or throws ([Layer.M]); a rejected promise is a [Raise].
    - [Date.now()] reads a clock kept in the state.  [delay] and the network
      advance it; synchronous code does not. *)

From Stdlib Require Import ZArith QArith List String Ascii Bool Lia Lqa.
From Stdlib Require Import DecimalString.
Import ListNotations.

Set Warnings "-register-all".
Local Open Scope string_scope.
Local Open Scope Z_scope.

(* ------------------------------------------------------------------ *)
(** * The JavaScript values and built-ins the two classes rely on *)

Module Js.

(** Values of type [any] as they travel through request bodies, query
    parameters and response payloads.  Numbers are the integral ones. *)
Inductive JsValue : Type :=
| JUndefined
| JNull
| JBool (b : bool)
| JNumber (n : Z)
| JString (s : string)
| JBigInt (n : Z)
| JArray (xs : list JsValue)
| JObject (fields : list (string * JsValue)).

(** [ToBoolean]: what [if (v)] tests. *)
Definition truthy (v : JsValue) : bool :=
  match v with
  | JUndefined | JNull => false
  | JBool b => b
  | JNumber n => negb (n =? 0)
  | JString s => negb (String.eqb s EmptyString)
  | JBigInt n => negb (n =? 0)
  | JArray _ | JObject _ => true
  end.

(** [String.prototype.toLowerCase] on the ASCII range. *)
Definition lower_ascii (c : ascii) : ascii :=
  let n := nat_of_ascii c in
  if andb (Nat.leb 65 n) (Nat.leb n 90) then ascii_of_nat (n + 32) else c.

Fixpoint toLowerCase (s : string) : string :=
  match s with
  | EmptyString => EmptyString
  | String c r => String (lower_ascii c) (toLowerCase r)
  end.

(** ** [JSON.stringify] *)

Definition hex_digit (n : nat) : ascii :=
  match String.get n "0123456789abcdef" with
  | Some c => c
  | None => "0"%char
  end.

(** The escape of one character inside a JSON string literal. *)
Definition json_escape_char (c : ascii) : string :=
  let n := nat_of_ascii c in
  if Nat.eqb n 34 then String "\"%char (String c EmptyString)
  else if Nat.eqb n 92 then String c (String c EmptyString)
  else if Nat.eqb n 8 then "\b"
  else if Nat.eqb n 9 then "\t"
  else if Nat.eqb n 10 then "\n"
  else if Nat.eqb n 12 then "\f"
  else if Nat.eqb n 13 then "\r"
  else if Nat.ltb n 32 then
    "\u00" ++ String (hex_digit (n / 16)) (String (hex_digit (n mod 16)) EmptyString)
  else String c EmptyString.

Fixpoint json_escape (s : string) : string :=
  match s with
  | EmptyString => EmptyString
  | String c r => json_escape_char c ++ json_escape r
  end.

Definition json_quote (s : string) : string :=
  String (ascii_of_nat 34) (json_escape s ++ String (ascii_of_nat 34) EmptyString).

Definition json_number (n : Z) : string :=
  NilZero.string_of_int (Z.to_int n).

Fixpoint join_comma (l : list string) : string :=
  match l with
  | [] => EmptyString
  | [x] => x
  | x :: r => x ++ "," ++ join_comma r
  end.

(** A thrown JavaScript error object: its [message] and, for an HTTP error
    raised by axios, [error.response?.status], [error.config?.url] and
    [error.config?.method]. *)
Record JsError : Type := mkError {
  message : string;
  response_status : option Z;
  config_url : option string;
  config_method : option string
}.

Definition TypeError (msg : string) : JsError :=
  {| message := msg; response_status := None;
     config_url := None; config_method := None |}.

(** The serialisation proper.  [inr None] is the [undefined] that
    [JSON.stringify] yields for a value that has no JSON form (it is left
    out of an enclosing object and printed as [null] inside an array);
    [inl e] is the [TypeError] thrown on a BigInt. *)
Fixpoint JSON_serialize (v : JsValue) : JsError + option string :=
  match v with
  | JUndefined => inr None
  | JNull => inr (Some "null")
  | JBool true => inr (Some "true")
  | JBool false => inr (Some "false")
  | JNumber n => inr (Some (json_number n))
  | JString s => inr (Some (json_quote s))
  | JBigInt _ => inl (TypeError "Do not know how to serialize a BigInt")
  | JArray xs =>
      let elems :=
        (fix elems (l : list JsValue) : JsError + list string :=
           match l with
           | [] => inr []
           | x :: r =>
               match JSON_serialize x with
               | inl e => inl e
               | inr o =>
                   match elems r with
                   | inl e => inl e
                   | inr ss => inr (match o with Some s => s | None => "null" end :: ss)
                   end
               end
           end) in
      match elems xs with
      | inl e => inl e
      | inr ss => inr (Some ("[" ++ join_comma ss ++ "]"))
      end
  | JObject fields =>
      let members :=
        (fix members (l : list (string * JsValue)) : JsError + list string :=
           match l with
           | [] => inr []
           | (k, x) :: r =>
               match JSON_serialize x with
               | inl e => inl e
               | inr o =>
                   match members r with
                   | inl e => inl e
                   | inr ss =>
                       inr (match o with
                            | Some s => (json_quote k ++ ":" ++ s) :: ss
                            | None => ss
                            end)
                   end
               end
           end) in
      match members fields with
      | inl e => inl e
      | inr ss => inr (Some ("{" ++ join_comma ss ++ "}"))
      end
  end.

(** ** [Buffer.from(s).toString('base64')] *)

Definition b64_digit (n : nat) : ascii :=
  match String.get n
          "ABCDEFGHIJKLMNOPQRSTUVWXYZabcdefghijklmnopqrstuvwxyz0123456789+/" with
  | Some c => c
  | None => "="%char
  end.

Fixpoint base64 (s : string) : string :=
  match s with
  | EmptyString => EmptyString
  | String a EmptyString =>
      let x := nat_of_ascii a in
      String (b64_digit (x / 4))
        (String (b64_digit ((x mod 4) * 16)) "==")
  | String a (String b EmptyString) =>
      let x := nat_of_ascii a in
      let y := nat_of_ascii b in
      String (b64_digit (x / 4))
        (String (b64_digit ((x mod 4) * 16 + y / 16))
           (String (b64_digit ((y mod 16) * 4)) "="))
  | String a (String b (String c r)) =>
      let x := nat_of_ascii a in
      let y := nat_of_ascii b in
      let z := nat_of_ascii c in
      String (b64_digit (x / 4))
        (String (b64_digit ((x mod 4) * 16 + y / 16))
           (String (b64_digit ((y mod 16) * 4 + z / 64))
              (String (b64_digit (z mod 64)) (base64 r))))
  end.

(** ** Numbers that may be [Infinity] *)

Inductive ExtNum : Type :=
| Fin (z : Z)
| PosInf.

(** [Math.min(...xs)]; [Math.min()] is [Infinity]. *)
Fixpoint Math_min (xs : list Z) : ExtNum :=
  match xs with
  | [] => PosInf
  | x :: r =>
      match Math_min r with
      | PosInf => Fin x
      | Fin m => Fin (Z.min x m)
      end
  end.

Definition ext_add (a : ExtNum) (z : Z) : ExtNum :=
  match a with
  | Fin x => Fin (x + z)
  | PosInf => PosInf
  end.

(** [a > z] *)
Definition ext_gtb (a : ExtNum) (z : Z) : bool :=
  match a with
  | Fin x => z <? x
  | PosInf => true
  end.

(** [z < a] for a finite left operand. *)
Definition ext_ltb (z : Z) (a : ExtNum) : bool := ext_gtb a z.

(** ** [Array.prototype.slice] *)

(** The index that [slice] derives from a relative position. *)
Definition slice_index (len rel : Z) : Z :=
  if rel <? 0 then Z.max (len + rel) 0 else Z.min rel len.

Definition Array_slice {A : Type} (l : list A) (start : Z) (stop : option Z) : list A :=
  let len := Z.of_nat (List.length l) in
  let k := slice_index len start in
  let final := match stop with
               | None => len
               | Some e => slice_index len e
               end in
  firstn (Z.to_nat (final - k)) (skipn (Z.to_nat k) l).

(** ** [Map] *)

Definition JsMap (V : Type) : Type := list (string * V).

Section MapOps.
Context {V : Type}.

Fixpoint map_get (m : JsMap V) (k : string) : option V :=
  match m with
  | [] => None
  | (k', v) :: r => if String.eqb k' k then Some v else map_get r k
  end.

(** A present key keeps its place; a new key goes last. *)
Fixpoint map_set (m : JsMap V) (k : string) (v : V) : JsMap V :=
  match m with
  | [] => [(k, v)]
  | (k', v') :: r =>
      if String.eqb k' k then (k', v) :: r else (k', v') :: map_set r k v
  end.

Fixpoint map_delete (m : JsMap V) (k : string) : JsMap V :=
  match m with
  | [] => []
  | (k', v') :: r =>
      if String.eqb k' k then r else (k', v') :: map_delete r k
  end.

Definition map_size (m : JsMap V) : Z := Z.of_nat (List.length m).

Definition map_keys (m : JsMap V) : list string := map fst m.
End MapOps.

End Js.

(* ------------------------------------------------------------------ *)
(** * integration-layer.ts *)

Module Layer.
Import Js.

(** [auth] and [headers] decorate the outgoing request and are left to the
    HTTP client. *)
Record APIConfig : Type := {
  baseURL : string;
  timeout : Z;
  retryAttempts : Z;
  retryDelay : Z;
  rateLimitRPS : Z
}.

Record RateLimitConfig : Type := {
  windowMs : Z;
  maxRequests : Z;
  skipSuccessfulRequests : bool;
  skipFailedRequests : bool
}.

Inductive Strategy : Type := lru | fifo | lfu.

Record CacheConfig : Type := {
  enabled : bool;
  ttl : Z;
  maxSize : Z;
  strategy : Strategy
}.

Record IntegrationMetrics : Type := {
  totalRequests : Z;
  successfulRequests : Z;
  failedRequests : Z;
  averageResponseTime : Q;
  rateLimitHits : Z;
  cacheHits : Z;
  cacheMisses : Z;
  lastError : option string;
  lastErrorTime : option Z
}.

(** [APIResponse<T>]; an absent optional field is [None]. *)
Record APIResponse : Type := {
  success : bool;
  data : option JsValue;
  error : option string;
  statusCode : option Z;
  responseTime : option Z;
  cached : option bool
}.

Record WebhookConfig : Type := {
  wh_url : string;
  secret : string;
  events : list string;
  maxRetries : Z;
  backoffMs : Z
}.

(** The part of [AxiosRequestConfig] that the class reads.
    [metadata_responseTime] is [config.metadata?.responseTime]. *)
Record AxiosRequestConfig : Type := {
  url : option string;
  method : option string;
  params : JsValue;
  req_data : JsValue;
  metadata_responseTime : option Q
}.

Record AxiosResponse : Type := {
  resp_data : JsValue;
  status : Z;
  resp_config : AxiosRequestConfig
}.

(** One entry of [this.cache]. *)
Record CacheItem : Type := {
  item_data : JsValue;
  timestamp : Z;
  hits : Z
}.

(** What [throw] carries: an error object, or [undefined] (the value of the
    never assigned [lastError]). *)
Inductive Thrown : Type :=
| ThrowErr (e : JsError)
| ThrowUndefined.

(** Events emitted on the [EventEmitter]. *)
Inductive Event : Type :=
| api_success (statusCode : Z) (url method : option string)
| api_failure (error : string) (statusCode : option Z) (url method : option string).

(** What the instance does to the outside, in order. *)
Inductive Effect : Type :=
| Attempt (cfg : AxiosRequestConfig)
| Delay (ms : ExtNum)
| Emit (e : Event)
| WebhookPost (id : string) (body : string)
| ConsoleError (id : string).

(** What one call of the HTTP client does: how long it takes and whether
    it resolves or rejects. *)
Inductive HttpOutcome : Type :=
| HttpOk (elapsed : Z) (r : AxiosResponse)
| HttpErr (elapsed : Z) (e : JsError).

(** The fields of the instance, followed by its environment: the clock, the
    outcome of the n-th call of [axiosInstance.request], the outcome of the
    n-th webhook [axios.post], and the effects so far. *)
Record St : Type := mkSt {
  config : APIConfig;
  rateLimitConfig : RateLimitConfig;
  cacheConfig : CacheConfig;
  metrics : IntegrationMetrics;
  cache : JsMap CacheItem;
  rateLimitTracker : JsMap (list Z);
  webhooks : JsMap WebhookConfig;
  clock : Z;
  http : nat -> AxiosRequestConfig -> HttpOutcome;
  http_calls : nat;
  hook : nat -> bool;
  hook_calls : nat;
  trace : list Effect
}.

Definition set_metrics (m : IntegrationMetrics) (st : St) : St :=
  mkSt (config st) (rateLimitConfig st) (cacheConfig st) m (cache st)
       (rateLimitTracker st) (webhooks st) (clock st) (http st) (http_calls st)
       (hook st) (hook_calls st) (trace st).

Definition set_cache (c : JsMap CacheItem) (st : St) : St :=
  mkSt (config st) (rateLimitConfig st) (cacheConfig st) (metrics st) c
       (rateLimitTracker st) (webhooks st) (clock st) (http st) (http_calls st)
       (hook st) (hook_calls st) (trace st).

Definition set_rateLimitTracker (t : JsMap (list Z)) (st : St) : St :=
  mkSt (config st) (rateLimitConfig st) (cacheConfig st) (metrics st) (cache st)
       t (webhooks st) (clock st) (http st) (http_calls st)
       (hook st) (hook_calls st) (trace st).

Definition set_clock (t : Z) (st : St) : St :=
  mkSt (config st) (rateLimitConfig st) (cacheConfig st) (metrics st) (cache st)
       (rateLimitTracker st) (webhooks st) t (http st) (http_calls st)
       (hook st) (hook_calls st) (trace st).

Definition set_http_calls (n : nat) (st : St) : St :=
  mkSt (config st) (rateLimitConfig st) (cacheConfig st) (metrics st) (cache st)
       (rateLimitTracker st) (webhooks st) (clock st) (http st) n
       (hook st) (hook_calls st) (trace st).

Definition set_hook_calls (n : nat) (st : St) : St :=
  mkSt (config st) (rateLimitConfig st) (cacheConfig st) (metrics st) (cache st)
       (rateLimitTracker st) (webhooks st) (clock st) (http st) (http_calls st)
       (hook st) n (trace st).

Definition perform (e : Effect) (st : St) : St :=
  mkSt (config st) (rateLimitConfig st) (cacheConfig st) (metrics st) (cache st)
       (rateLimitTracker st) (webhooks st) (clock st) (http st) (http_calls st)
       (hook st) (hook_calls st) (trace st ++ [e])%list.

(** ** The monad of the asynchronous methods *)

Inductive Res (A : Type) : Type :=
| Return (a : A)
| Raise (t : Thrown).
Arguments Return {A} a.
Arguments Raise {A} t.

Definition M (A : Type) : Type := St -> Res A * St.

Definition ret {A} (a : A) : M A := fun st => (Return a, st).

Definition throw {A} (t : Thrown) : M A := fun st => (Raise t, st).

Definition bind {A B} (m : M A) (k : A -> M B) : M B :=
  fun st =>
    match m st with
    | (Return a, st') => k a st'
    | (Raise t, st') => (Raise t, st')
    end.

(** [try { m } catch (e) { h e }] *)
Definition tryCatch {A} (m : M A) (h : Thrown -> M A) : M A :=
  fun st =>
    match m st with
    | (Return a, st') => (Return a, st')
    | (Raise t, st') => h t st'
    end.

(** A synchronous method that returns nothing and cannot throw. *)
Definition run (f : St -> St) : M unit := fun st => (Return tt, f st).

Notation "x <- m ;; k" := (bind m (fun x => k))
  (at level 61, m at next level, right associativity).
Notation "m ;;; k" := (bind m (fun _ => k))
  (at level 61, right associativity).

Definition Date_now : M Z := fun st => (Return (clock st), st).

(** The duration Node gives a timer: a delay below 1 or above 2^31-1 (so
    [Infinity] too) is set to 1. *)
Definition timer_ms (ms : ExtNum) : Z :=
  match ms with
  | Fin z => if orb (z <? 1) (2147483647 <? z) then 1 else z
  | PosInf => 1
  end.

(** [this.delay(ms)]: the caller resumes when the timer has fired. *)
Definition delay (ms : ExtNum) : M unit :=
  run (fun st => set_clock (clock st + timer_ms ms) (perform (Delay ms) st)).

(** ** Metrics *)

Definition initialMetrics : IntegrationMetrics :=
  {| totalRequests := 0; successfulRequests := 0; failedRequests := 0;
     averageResponseTime := 0%Q; rateLimitHits := 0; cacheHits := 0;
     cacheMisses := 0; lastError := None; lastErrorTime := None |}.

Definition inc_totalRequests (m : IntegrationMetrics) : IntegrationMetrics :=
  {| totalRequests := totalRequests m + 1;
     successfulRequests := successfulRequests m;
     failedRequests := failedRequests m;
     averageResponseTime := averageResponseTime m;
     rateLimitHits := rateLimitHits m; cacheHits := cacheHits m;
     cacheMisses := cacheMisses m; lastError := lastError m;
     lastErrorTime := lastErrorTime m |}.

Definition inc_successfulRequests (m : IntegrationMetrics) : IntegrationMetrics :=
  {| totalRequests := totalRequests m;
     successfulRequests := successfulRequests m + 1;
     failedRequests := failedRequests m;
     averageResponseTime := averageResponseTime m;
     rateLimitHits := rateLimitHits m; cacheHits := cacheHits m;
     cacheMisses := cacheMisses m; lastError := lastError m;
     lastErrorTime := lastErrorTime m |}.

Definition set_averageResponseTime (a : Q) (m : IntegrationMetrics) : IntegrationMetrics :=
  {| totalRequests := totalRequests m;
     successfulRequests := successfulRequests m;
     failedRequests := failedRequests m;
     averageResponseTime := a;
     rateLimitHits := rateLimitHits m; cacheHits := cacheHits m;
     cacheMisses := cacheMisses m; lastError := lastError m;
     lastErrorTime := lastErrorTime m |}.

Definition inc_rateLimitHits (m : IntegrationMetrics) : IntegrationMetrics :=
  {| totalRequests := totalRequests m;
     successfulRequests := successfulRequests m;
     failedRequests := failedRequests m;
     averageResponseTime := averageResponseTime m;
     rateLimitHits := rateLimitHits m + 1; cacheHits := cacheHits m;
     cacheMisses := cacheMisses m; lastError := lastError m;
     lastErrorTime := lastErrorTime m |}.

Definition inc_cacheHits (m : IntegrationMetrics) : IntegrationMetrics :=
  {| totalRequests := totalRequests m;
     successfulRequests := successfulRequests m;
     failedRequests := failedRequests m;
     averageResponseTime := averageResponseTime m;
     rateLimitHits := rateLimitHits m; cacheHits := cacheHits m + 1;
     cacheMisses := cacheMisses m; lastError := lastError m;
     lastErrorTime := lastErrorTime m |}.

Definition inc_cacheMisses (m : IntegrationMetrics) : IntegrationMetrics :=
  {| totalRequests := totalRequests m;
     successfulRequests := successfulRequests m;
     failedRequests := failedRequests m;
     averageResponseTime := averageResponseTime m;
     rateLimitHits := rateLimitHits m; cacheHits := cacheHits m;
     cacheMisses := cacheMisses m + 1; lastError := lastError m;
     lastErrorTime := lastErrorTime m |}.

Definition note_failure (msg : string) (now : Z) (m : IntegrationMetrics)
  : IntegrationMetrics :=
  {| totalRequests := totalRequests m;
     successfulRequests := successfulRequests m;
     failedRequests := failedRequests m + 1;
     averageResponseTime := averageResponseTime m;
     rateLimitHits := rateLimitHits m; cacheHits := cacheHits m;
     cacheMisses := cacheMisses m; lastError := Some msg;
     lastErrorTime := Some now |}.

(** [x || 0] on an optional number. *)
Definition or_zero (o : option Q) : Q :=
  match o with
  | Some q => if Qeq_bool q 0 then 0%Q else q
  | None => 0%Q
  end.

(** The running average is kept here as an exact rational.  The source
    computes it in IEEE doubles, which round: the two agree wherever every
    intermediate value is a double (integers of moderate size, and their
    quotients by powers of two), and only there. *)
Definition updateAverageResponseTime (responseTime : Q) (st : St) : St :=
  let total := successfulRequests (metrics st) + failedRequests (metrics st) in
  set_metrics
    (set_averageResponseTime
       ((averageResponseTime (metrics st) * inject_Z (total - 1) + responseTime)
        / inject_Z total)%Q
       (metrics st))
    st.

Definition recordSuccess (response : AxiosResponse) (st : St) : St :=
  let st1 := set_metrics (inc_successfulRequests (metrics st)) st in
  let st2 :=
    updateAverageResponseTime
      (or_zero (metadata_responseTime (resp_config response))) st1 in
  perform (Emit (api_success (status response)
                   (url (resp_config response))
                   (method (resp_config response)))) st2.

Definition recordFailure (e : JsError) (st : St) : St :=
  let st1 := set_metrics (note_failure (message e) (clock st) (metrics st)) st in
  perform (Emit (api_failure (message e) (response_status e)
                   (config_url e) (config_method e))) st1.

(** [this.axiosInstance.request(config)] together with the response
    interceptor installed by [setupAxiosInstance]. *)
Definition axios_request (cfg : AxiosRequestConfig) : M AxiosResponse :=
  fun st =>
    let st1 := perform (Attempt cfg) (set_http_calls (S (http_calls st)) st) in
    match http st (http_calls st) cfg with
    | HttpOk elapsed r =>
        (Return r, recordSuccess r (set_clock (clock st1 + elapsed) st1))
    | HttpErr elapsed e =>
        (Raise (ThrowErr e), recordFailure e (set_clock (clock st1 + elapsed) st1))
    end.

(** ** Retry *)

(** The [for] loop of [makeRequestWithRetry] with [fuel] iterations left,
    the loop counter at [attempt]. *)
Fixpoint retryLoop (fuel : nat) (attempt : Z) (lastError : Thrown)
    (cfg : AxiosRequestConfig) : M AxiosResponse :=
  match fuel with
  | O => throw lastError
  | S fuel' =>
      run (fun st => set_metrics (inc_totalRequests (metrics st)) st) ;;;
      tryCatch (axios_request cfg)
        (fun error =>
           (fun st =>
              if attempt <? retryAttempts (config st)
              then delay (Fin (retryDelay (config st) * 2 ^ attempt)) st
              else ret tt st) ;;;
           retryLoop fuel' (attempt + 1) error cfg)
  end.

(** [attempt] runs over 0, 1, ... while [attempt <= retryAttempts]: that is
    [retryAttempts + 1] iterations, none when [retryAttempts] is negative. *)
Definition makeRequestWithRetry (cfg : AxiosRequestConfig) : M AxiosResponse :=
  fun st =>
    retryLoop (Z.to_nat (retryAttempts (config st) + 1)) 0 ThrowUndefined cfg st.

(** ** Rate limiting *)

Definition checkRateLimit : M unit :=
  fun st =>
    let now := clock st in
    let windowStart := now - windowMs (rateLimitConfig st) in
    let key := baseURL (config st) in
    let requests :=
      match map_get (rateLimitTracker st) key with
      | Some l => l
      | None => []
      end in
    let requests := filter (fun timestamp => windowStart <? timestamp) requests in
    (match Z.of_nat (List.length requests) >=? maxRequests (rateLimitConfig st) with
     | true =>
         run (fun st => set_metrics (inc_rateLimitHits (metrics st)) st) ;;;
         let oldestRequest := Math_min requests in
         let waitTime :=
           ext_add oldestRequest (windowMs (rateLimitConfig st) - now) in
         if ext_gtb waitTime 0 then delay waitTime else ret tt
     | false => ret tt
     end ;;;
     run (fun st' =>
            set_rateLimitTracker
              (map_set (rateLimitTracker st') key (requests ++ [now])%list) st'))
      st.

(** ** Cache *)

Definition opt_string (o : option string) : JsValue :=
  match o with
  | Some s => JString s
  | None => JUndefined
  end.

Definition generateCacheKey (cfg : AxiosRequestConfig) : M string :=
  let keyData :=
    JObject [("url", opt_string (url cfg)); ("method", opt_string (method cfg));
             ("params", params cfg); ("data", req_data cfg)] in
  match JSON_serialize keyData with
  | inl e => throw (ThrowErr e)
  | inr (Some s) => ret (base64 s)
  | inr None =>
      throw (ThrowErr (TypeError "The first argument must be of type string"))
  end.

Definition hit (item : CacheItem) : CacheItem :=
  {| item_data := item_data item; timestamp := timestamp item;
     hits := hits item + 1 |}.

(** Returns [null] for a miss and the stored value otherwise. *)
Definition getFromCache (key : string) (st : St) : JsValue * St :=
  match map_get (cache st) key with
  | None => (JNull, st)
  | Some item =>
      if ttl (cacheConfig st) <? clock st - timestamp item
      then (JNull, set_cache (map_delete (cache st) key) st)
      else (item_data item, set_cache (map_set (cache st) key (hit item)) st)
  end.

Fixpoint lru_scan (entries : JsMap CacheItem) (oldestKey : string) (oldestTime : Z)
  : string :=
  match entries with
  | [] => oldestKey
  | (key, item) :: r =>
      if timestamp item <? oldestTime
      then lru_scan r key (timestamp item)
      else lru_scan r oldestKey oldestTime
  end.

Definition evictLRU (st : St) : St :=
  let oldestKey := lru_scan (cache st) EmptyString (clock st) in
  if truthy (JString oldestKey)
  then set_cache (map_delete (cache st) oldestKey) st
  else st.

Definition evictFIFO (st : St) : St :=
  match cache st with
  | [] => st
  | (firstKey, _) :: _ =>
      if truthy (JString firstKey)
      then set_cache (map_delete (cache st) firstKey) st
      else st
  end.

Fixpoint lfu_scan (entries : JsMap CacheItem) (leastUsedKey : string)
    (leastHits : ExtNum) : string :=
  match entries with
  | [] => leastUsedKey
  | (key, item) :: r =>
      if ext_ltb (hits item) leastHits
      then lfu_scan r key (Fin (hits item))
      else lfu_scan r leastUsedKey leastHits
  end.

Definition evictLFU (st : St) : St :=
  let leastUsedKey := lfu_scan (cache st) EmptyString PosInf in
  if truthy (JString leastUsedKey)
  then set_cache (map_delete (cache st) leastUsedKey) st
  else st.

Definition evictFromCache (st : St) : St :=
  match strategy (cacheConfig st) with
  | lru => evictLRU st
  | fifo => evictFIFO st
  | lfu => evictLFU st
  end.

Definition setCache (key : string) (value : JsValue) (st : St) : St :=
  let st1 :=
    if map_size (cache st) >=? maxSize (cacheConfig st)
    then evictFromCache st
    else st in
  set_cache
    (map_set (cache st1) key
       {| item_data := value; timestamp := clock st1; hits := 0 |})
    st1.

(** ** Webhooks *)

Definition config_value (cfg : AxiosRequestConfig) : JsValue :=
  JObject [("url", opt_string (url cfg)); ("method", opt_string (method cfg));
           ("params", params cfg); ("data", req_data cfg)].

(** [sendWebhook]: the payload is serialised for the signature (the HMAC
    itself is not represented; the ISO timestamp is the clock reading) and
    posted; the post rejects when the environment says so. *)
Definition sendWebhook (webhook : WebhookConfig) (event : string) (payload : JsValue)
  : M unit :=
  fun st =>
    let envelope :=
      JObject [("event", JString event);
               ("timestamp", JString (json_number (clock st)));
               ("data", payload)] in
    match JSON_serialize envelope with
    | inl e => (Raise (ThrowErr e), st)
    | inr body =>
        let st1 :=
          perform (WebhookPost (wh_url webhook)
                     (match body with Some b => b | None => EmptyString end))
            (set_hook_calls (S (hook_calls st)) st) in
        if hook st (hook_calls st)
        then (Return tt, st1)
        else (Raise (ThrowErr (TypeError "Network Error")), st1)
    end.

Fixpoint emitWebhookLoop (entries : JsMap WebhookConfig) (event : string)
    (payload : JsValue) : M unit :=
  match entries with
  | [] => ret tt
  | (id, webhook) :: r =>
      (if existsb (String.eqb event) (events webhook)
       then tryCatch (sendWebhook webhook event payload)
              (fun _ => run (perform (ConsoleError id)))
       else ret tt) ;;;
      emitWebhookLoop r event payload
  end.

Definition emitWebhook (event : string) (payload : JsValue) : M unit :=
  fun st => emitWebhookLoop (webhooks st) event payload st.

(** ** The request pipeline *)

(** [config.method?.toLowerCase() === 'get'] *)
Definition is_get (cfg : AxiosRequestConfig) : bool :=
  match method cfg with
  | Some m => String.eqb (toLowerCase m) "get"
  | None => false
  end.

Definition cacheable (cfg : AxiosRequestConfig) (st : St) : bool :=
  andb (enabled (cacheConfig st)) (is_get cfg).

(** The cache consultation at the head of the [try] block: [Some r] is the
    early [return r]. *)
Definition checkCache (cfg : AxiosRequestConfig) (cacheKey : string) (startTime : Z)
  : M (option APIResponse) :=
  fun st =>
    if cacheable cfg st then
      let (cached_value, st1) := getFromCache cacheKey st in
      if truthy cached_value then
        let st2 := set_metrics (inc_cacheHits (metrics st1)) st1 in
        (Return (Some {| success := true; data := Some cached_value;
                         error := None; statusCode := None;
                         responseTime := Some (clock st2 - startTime);
                         cached := Some true |}), st2)
      else
        (Return None, set_metrics (inc_cacheMisses (metrics st1)) st1)
    else (Return None, st).

Definition request (cfg : AxiosRequestConfig) : M APIResponse :=
  startTime <- Date_now ;;
  cacheKey <- generateCacheKey cfg ;;
  tryCatch
    (early <- checkCache cfg cacheKey startTime ;;
     match early with
     | Some r => ret r
     | None =>
         checkRateLimit ;;;
         response <- makeRequestWithRetry cfg ;;
         (fun st =>
            if cacheable cfg st
            then run (setCache cacheKey (resp_data response)) st
            else ret tt st) ;;;
         now <- Date_now ;;
         ret {| success := true; data := Some (resp_data response);
                error := None; statusCode := Some (status response);
                responseTime := Some (now - startTime); cached := None |}
     end)
    (fun error =>
       now <- Date_now ;;
       let responseTime := now - startTime in
       match error with
       | ThrowUndefined =>
           throw (ThrowErr (TypeError
             "Cannot read properties of undefined (reading 'message')"))
       | ThrowErr e =>
           emitWebhook "api_failure"
             (JObject [("error", JString (message e));
                       ("config", config_value cfg);
                       ("responseTime", JNumber responseTime)]) ;;;
           ret {| success := false; data := None; error := Some (message e);
                  statusCode := response_status e;
                  responseTime := Some responseTime; cached := None |}
       end).

(** [get(url, config)]: [{ ...config, method: 'GET', url }] *)
Definition get (u : string) (cfg : AxiosRequestConfig) : M APIResponse :=
  request {| url := Some u; method := Some "GET"; params := params cfg;
             req_data := req_data cfg;
             metadata_responseTime := metadata_responseTime cfg |}.

Definition post (u : string) (body : JsValue) (cfg : AxiosRequestConfig)
  : M APIResponse :=
  request {| url := Some u; method := Some "POST"; params := params cfg;
             req_data := body;
             metadata_responseTime := metadata_responseTime cfg |}.

(** The empty options argument of the verb helpers. *)
Definition no_options : AxiosRequestConfig :=
  {| url := None; method := None; params := JUndefined; req_data := JUndefined;
     metadata_responseTime := None |}.

Definition defaultRateLimitConfig : RateLimitConfig :=
  {| windowMs := 60000; maxRequests := 100;
     skipSuccessfulRequests := false; skipFailedRequests := false |}.

Definition defaultCacheConfig : CacheConfig :=
  {| enabled := true; ttl := 300000; maxSize := 1000; strategy := lru |}.

(** The constructor, in an environment given by its clock and its two
    oracles. *)
Definition new_IntegrationLayer (cfg : APIConfig)
    (rl : option RateLimitConfig) (cc : option CacheConfig)
    (now : Z) (net : nat -> AxiosRequestConfig -> HttpOutcome)
    (hooks : nat -> bool) : St :=
  {| config := cfg;
     rateLimitConfig := match rl with Some c => c | None => defaultRateLimitConfig end;
     cacheConfig := match cc with Some c => c | None => defaultCacheConfig end;
     metrics := initialMetrics;
     cache := []; rateLimitTracker := []; webhooks := [];
     clock := now; http := net; http_calls := 0%nat;
     hook := hooks; hook_calls := 0%nat; trace := [] |}.

(** ** Further public methods *)

Definition set_webhooks (w : JsMap WebhookConfig) (st : St) : St :=
  mkSt (config st) (rateLimitConfig st) (cacheConfig st) (metrics st) (cache st)
       (rateLimitTracker st) w (clock st) (http st) (http_calls st)
       (hook st) (hook_calls st) (trace st).

Definition set_cacheConfig (c : CacheConfig) (st : St) : St :=
  mkSt (config st) (rateLimitConfig st) c (metrics st) (cache st)
       (rateLimitTracker st) (webhooks st) (clock st) (http st) (http_calls st)
       (hook st) (hook_calls st) (trace st).

(** [put(url, data, config)] and [delete(url, config)] *)
Definition put (u : string) (body : JsValue) (cfg : AxiosRequestConfig)
  : M APIResponse :=
  request {| url := Some u; method := Some "PUT"; params := params cfg;
             req_data := body;
             metadata_responseTime := metadata_responseTime cfg |}.

Definition delete (u : string) (cfg : AxiosRequestConfig) : M APIResponse :=
  request {| url := Some u; method := Some "DELETE"; params := params cfg;
             req_data := req_data cfg;
             metadata_responseTime := metadata_responseTime cfg |}.

(** [getMetrics] hands out a copy of the counters. *)
Definition getMetrics (st : St) : IntegrationMetrics := metrics st.

Definition addWebhook (id : string) (webhook : WebhookConfig) (st : St) : St :=
  set_webhooks (map_set (webhooks st) id webhook) st.

(** [Partial<CacheConfig>]: the fields an update carries. *)
Record PartialCacheConfig : Type := {
  new_enabled : option bool;
  new_ttl : option Z;
  new_maxSize : option Z;
  new_strategy : option Strategy
}.

(** [{ ...this.cacheConfig, ...newConfig }] *)
Definition updateCacheConfig (newConfig : PartialCacheConfig) (st : St) : St :=
  set_cacheConfig
    {| enabled := match new_enabled newConfig with
                  | Some b => b
                  | None => enabled (cacheConfig st)
                  end;
       ttl := match new_ttl newConfig with
              | Some t => t
              | None => ttl (cacheConfig st)
              end;
       maxSize := match new_maxSize newConfig with
                  | Some n => n
                  | None => maxSize (cacheConfig st)
                  end;
       strategy := match new_strategy newConfig with
                   | Some s => s
                   | None => strategy (cacheConfig st)
                   end |}
    st.

(** What [healthCheck] resolves to; [details] flattened, a field that the
    branch taken does not set being [None]. *)
Record HealthResult : Type := {
  healthy : bool;
  details_responseTime : option Z;
  details_error : option string;
  details_metrics : IntegrationMetrics;
  details_cacheSize : option Z;
  details_rateLimitEntries : option Z
}.

(** The request that [this.axiosInstance.get('/health', ...)] makes. *)
Definition health_request : AxiosRequestConfig :=
  {| url := Some "/health"; method := Some "get"; params := JUndefined;
     req_data := JUndefined; metadata_responseTime := None |}.

Definition healthCheck : M HealthResult :=
  tryCatch
    (startTime <- Date_now ;;
     axios_request health_request ;;;
     now <- Date_now ;;
     fun st =>
       (Return {| healthy := true;
                  details_responseTime := Some (now - startTime);
                  details_error := None;
                  details_metrics := getMetrics st;
                  details_cacheSize := Some (map_size (cache st));
                  details_rateLimitEntries :=
                    Some (map_size (rateLimitTracker st)) |}, st))
    (fun error =>
       match error with
       | ThrowUndefined =>
           throw (ThrowErr (TypeError
             "Cannot read properties of undefined (reading 'message')"))
       | ThrowErr e =>
           fun st =>
             (Return {| healthy := false; details_responseTime := None;
                        details_error := Some (message e);
                        details_metrics := getMetrics st;
                        details_cacheSize := None;
                        details_rateLimitEntries := None |}, st)
       end).

(** [streamRequest]: the request goes out with [responseType: 'stream'],
    a field that is not among those represented; the counters are touched
    only once the response is there. *)
Definition streamRequest (cfg : AxiosRequestConfig) : M JsValue :=
  response <- axios_request cfg ;;
  run (fun st => set_metrics (inc_totalRequests (metrics st)) st) ;;;
  run (fun st => set_metrics (inc_successfulRequests (metrics st)) st) ;;;
  ret (resp_data response).

End Layer.

(* ------------------------------------------------------------------ *)
(** * integration-monitor.ts *)

Module Monitor.
Import Js.

Inductive Level : Type := debug | info | warn | error.

(** [levels.indexOf(level)] for [levels = ['debug','info','warn','error']]. *)
Definition level_index (l : Level) : Z :=
  match l with
  | debug => 0
  | info => 1
  | warn => 2
  | error => 3
  end.

Definition level_eqb (a b : Level) : bool := level_index a =? level_index b.

Record ErrorDetail : Type := {
  err_name : string;
  err_message : string;
  err_stack : option string
}.

Record LogEntry : Type := {
  timestamp : Z;
  level : Level;
  service : string;
  operation : string;
  message : string;
  metadata : option JsValue;
  correlationId : option string;
  userId : option string;
  duration : option Z;
  statusCode : option Z;
  error_detail : option ErrorDetail
}.

Inductive ChannelType : Type := email | webhook | slack | teams.

(** The [thresholds] of the source are read by no method. *)
Record AlertConfig : Type := {
  enabled : bool;
  cooldown : Z;
  channels : list ChannelType
}.

Record MonitoringConfig : Type := {
  logLevel : Level;
  retentionPeriod : Z;
  maxLogEntries : Z;
  alertConfig : AlertConfig;
  healthCheckInterval : Z;
  metricsInterval : Z
}.

Inductive HealthStatus : Type := healthy | degraded | unhealthy.

Inductive Severity : Type := sev_info | sev_warning | sev_critical.

(** The payload of an ['alert'] event. *)
Record Alert : Type := {
  serviceName : string;
  alertType : string;
  alert_timestamp : Z;
  alert_message : string;
  severity : Severity
}.

Inductive MonitorEvent : Type :=
| ev_log (entry : LogEntry)
| ev_alert (a : Alert)
| ev_health_check (name : string) (status : HealthStatus).

(** The fields of the monitor, the events it has emitted, and the channel
    deliveries it has started, oldest first. *)
Record St : Type := mkSt {
  logs : list LogEntry;
  alertCooldowns : JsMap Z;
  healthChecks : JsMap HealthStatus;
  config : MonitoringConfig;
  emitted : list MonitorEvent;
  deliveries : list (ChannelType * Alert)
}.

Definition set_logs (l : list LogEntry) (st : St) : St :=
  mkSt l (alertCooldowns st) (healthChecks st) (config st) (emitted st)
       (deliveries st).

Definition set_alertCooldowns (c : JsMap Z) (st : St) : St :=
  mkSt (logs st) c (healthChecks st) (config st) (emitted st) (deliveries st).

Definition set_healthChecks (h : JsMap HealthStatus) (st : St) : St :=
  mkSt (logs st) (alertCooldowns st) h (config st) (emitted st) (deliveries st).

Definition emit (e : MonitorEvent) (st : St) : St :=
  mkSt (logs st) (alertCooldowns st) (healthChecks st) (config st)
       (emitted st ++ [e])%list (deliveries st).

(** The delivery of [a] to the first of the channels that [remaining]
    lists is started; the channels after it wait until that one has
    settled. *)
Definition start_delivery (a : Alert) (remaining : list ChannelType) (st : St) : St :=
  mkSt (logs st) (alertCooldowns st) (healthChecks st) (config st) (emitted st)
       (deliveries st
        ++ match remaining with
           | [] => []
           | c :: _ => [(c, a)]
           end)%list.

Definition new_IntegrationMonitor (cfg : MonitoringConfig) : St :=
  {| logs := []; alertCooldowns := []; healthChecks := []; config := cfg;
     emitted := []; deliveries := [] |}.

Definition shouldLog (l : Level) (st : St) : bool :=
  level_index l >=? level_index (logLevel (config st)).

(** [new Date(t)]: the time value of the date, or none when [t] lies
    more than 8.64e15 ms from the epoch, where the date is invalid. *)
Definition Date_of (t : Z) : option Z :=
  if Z.abs t <=? 8640000000000000 then Some t else None.

(** [timestamp > cutoffDate] for a valid timestamp: the comparison with an
    invalid date is false. *)
Definition after_date (cutoffDate : option Z) (t : Z) : bool :=
  match cutoffDate with
  | Some c => c <? t
  | None => false
  end.

(** [now] is the reading of the clock during the call. *)
Definition addLogEntry (now : Z) (entry : LogEntry) (st : St) : St :=
  let pushed := (logs st ++ [entry])%list in
  let capped :=
    if Z.of_nat (List.length pushed) >? maxLogEntries (config st)
    then Array_slice pushed (- maxLogEntries (config st)) None
    else pushed in
  let cutoffDate :=
    Date_of (now - retentionPeriod (config st) * 24 * 60 * 60 * 1000) in
  set_logs (filter (fun log => after_date cutoffDate (timestamp log)) capped) st.

(** [triggerAlert] up to its first suspension: the event is emitted and the
    delivery to the first configured channel is started.  The loop over the
    channels goes on, in [deliverySettled], when that delivery has
    settled. *)
Definition triggerAlert (now : Z) (name type msg : string) (sev : Severity)
    (st : St) : St :=
  let a := {| serviceName := name; alertType := type; alert_timestamp := now;
              alert_message := msg; severity := sev |} in
  start_delivery a (channels (alertConfig (config st))) (emit (ev_alert a) st).

Definition checkAlerts (now : Z) (name : string) (logEntry : LogEntry) (st : St) : St :=
  if negb (enabled (alertConfig (config st))) then st
  else
    let cooldownKey := name ++ "_error" in
    let fired :=
      triggerAlert now name "high_error_rate"
        ("High error rate detected in " ++ name) sev_warning st in
    let fire := set_alertCooldowns (map_set (alertCooldowns fired) cooldownKey now) fired in
    match map_get (alertCooldowns st) cooldownKey with
    | Some lastAlert =>
        if now - lastAlert <? cooldown (alertConfig (config st)) then st else fire
    | None => fire
    end.

Definition status_name (s : HealthStatus) : string :=
  match s with
  | healthy => "healthy"
  | degraded => "degraded"
  | unhealthy => "unhealthy"
  end.

Definition checkHealthAlerts (now : Z) (name : string) (status : HealthStatus)
    (st : St) : St :=
  if negb (enabled (alertConfig (config st))) then st
  else
    let cooldownKey := name ++ "_health" in
    let sev := match status with unhealthy => sev_critical | _ => sev_warning end in
    let fired :=
      triggerAlert now name "health_issue"
        ("Health issue detected in " ++ name ++ ": " ++ status_name status) sev st in
    let fire := set_alertCooldowns (map_set (alertCooldowns fired) cooldownKey now) fired in
    match map_get (alertCooldowns st) cooldownKey with
    | Some lastAlert =>
        if now - lastAlert <? cooldown (alertConfig (config st)) then st else fire
    | None => fire
    end.

Definition log (now : Z) (lvl : Level) (svc op msg : string)
    (meta : option JsValue) (corr usr : option string) (dur code : option Z)
    (err : option ErrorDetail) (st : St) : St :=
  if negb (shouldLog lvl st) then st
  else
    let logEntry :=
      {| timestamp := now; level := lvl; service := svc; operation := op;
         message := msg; metadata := meta; correlationId := corr;
         userId := usr; duration := dur; statusCode := code;
         error_detail := err |} in
    let st1 := emit (ev_log logEntry) (addLogEntry now logEntry st) in
    if level_eqb lvl error then checkAlerts now svc logEntry st1 else st1.

Definition channel_name (c : ChannelType) : string :=
  match c with
  | email => "email"
  | webhook => "webhook"
  | slack => "slack"
  | teams => "teams"
  end.

(** The [catch] branch of the delivery loop of [triggerAlert], run when the
    delivery to [c] has failed with message [reason]. *)
Definition deliveryFailed (now : Z) (c : ChannelType) (reason : string) (st : St) : St :=
  log now error "monitor" "alert_delivery"
    ("Failed to send alert to " ++ channel_name c)
    (Some (JObject [("channel", JString (channel_name c));
                    ("error", JString reason)]))
    None None None None None st.

(** The loop of [triggerAlert] resumes at [now]: the delivery of [a] to
    the first of [remaining] has settled, [failure] being the message of the
    error when the delivery was rejected.  The [catch] branch logs a
    rejection; either way the delivery to the next channel is started. *)
Definition deliverySettled (now : Z) (a : Alert) (remaining : list ChannelType)
    (failure : option string) (st : St) : St :=
  match remaining with
  | [] => st
  | c :: rest =>
      start_delivery a rest
        (match failure with
         | Some reason => deliveryFailed now c reason st
         | None => st
         end)
  end.

(** ** Health *)

Definition Qgtb (a b : Q) : bool := negb (Qle_bool a b).

Definition errorRate (m : Layer.IntegrationMetrics) : Q :=
  if Layer.totalRequests m >? 0
  then (inject_Z (Layer.failedRequests m) / inject_Z (Layer.totalRequests m))%Q
  else 0%Q.

Definition determineHealthStatus (probe_healthy : bool)
    (m : Layer.IntegrationMetrics) (recentErrors : list LogEntry) : HealthStatus :=
  if negb probe_healthy then unhealthy
  else
    let avgResponseTime := Layer.averageResponseTime m in
    if orb (Qgtb (errorRate m) (1 # 10)) (Qgtb avgResponseTime (inject_Z 10000))
    then unhealthy
    else if orb (orb (Qgtb (errorRate m) (5 # 100))
                     (Qgtb avgResponseTime (inject_Z 5000)))
                (Z.of_nat (List.length recentErrors) >? 3)
    then degraded
    else healthy.

(** [Array.prototype.sort] with the comparator
    [(a, b) => b.timestamp - a.timestamp]: newest first, stable. *)
Fixpoint insert_newest_first (x : LogEntry) (l : list LogEntry) : list LogEntry :=
  match l with
  | [] => [x]
  | y :: r =>
      if timestamp x <? timestamp y
      then y :: insert_newest_first x r
      else x :: y :: r
  end.

Fixpoint sort_newest_first (l : list LogEntry) : list LogEntry :=
  match l with
  | [] => []
  | x :: r => insert_newest_first x (sort_newest_first r)
  end.

Definition getRecentErrors (name : string) (limit : Z) (st : St) : list LogEntry :=
  Array_slice
    (sort_newest_first
       (filter (fun log => andb (String.eqb (service log) name)
                                (level_eqb (level log) error))
          (logs st)))
    0 (Some limit).

(** The body of the loop of [performHealthChecks] for one service whose
    probe answered [probe_healthy] and whose metrics are [m]. *)
Definition performHealthCheck (now : Z) (name : string) (probe_healthy : bool)
    (m : Layer.IntegrationMetrics) (st : St) : St :=
  let recentErrors := getRecentErrors name 5 st in
  let status := determineHealthStatus probe_healthy m recentErrors in
  let st1 :=
    emit (ev_health_check name status)
      (set_healthChecks (map_set (healthChecks st) name status) st) in
  match status with
  | healthy => st1
  | _ => checkHealthAlerts now name status st1
  end.

(** ** Queries *)

(** The [options] of [getLogs]; a call without options has every field
    absent. *)
Record LogQuery : Type := {
  q_service : option string;
  q_level : option Level;
  q_startDate : option Z;
  q_endDate : option Z;
  q_limit : option Z;
  q_correlationId : option string
}.

(** [if (options?.x)] for a string option: absent and empty are both falsy. *)
Definition given (o : option string) : option string :=
  match o with
  | Some s => if String.eqb s EmptyString then None else Some s
  | None => None
  end.

Definition correlation_is (c : string) (log : LogEntry) : bool :=
  match correlationId log with
  | Some c' => String.eqb c' c
  | None => false
  end.

Definition getLogs (options : LogQuery) (st : St) : list LogEntry :=
  let filteredLogs := logs st in
  let filteredLogs :=
    match given (q_service options) with
    | Some s => filter (fun log => String.eqb (service log) s) filteredLogs
    | None => filteredLogs
    end in
  let filteredLogs :=
    match q_level options with
    | Some l => filter (fun log => level_eqb (level log) l) filteredLogs
    | None => filteredLogs
    end in
  let filteredLogs :=
    match q_startDate options with
    | Some d => filter (fun log => timestamp log >=? d) filteredLogs
    | None => filteredLogs
    end in
  let filteredLogs :=
    match q_endDate options with
    | Some d => filter (fun log => timestamp log <=? d) filteredLogs
    | None => filteredLogs
    end in
  let filteredLogs :=
    match given (q_correlationId options) with
    | Some c => filter (correlation_is c) filteredLogs
    | None => filteredLogs
    end in
  let filteredLogs := sort_newest_first filteredLogs in
  match q_limit options with
  | Some n => if n =? 0 then filteredLogs else Array_slice filteredLogs 0 (Some n)
  | None => filteredLogs
  end.

Inductive CheckStatus : Type := check_pass | check_fail | check_warn.

Definition Qltb (a b : Q) : bool := negb (Qle_bool b a).

(** [metrics.failedRequests / metrics.totalRequests < 0.05] on doubles: a
    division by zero gives [NaN] or an infinity, of which only [-Infinity]
    is below the bound. *)
Definition error_rate_below (m : Layer.IntegrationMetrics) : bool :=
  if Layer.totalRequests m =? 0
  then Layer.failedRequests m <? 0
  else Qltb (inject_Z (Layer.failedRequests m) / inject_Z (Layer.totalRequests m))%Q
         (5 # 100).

(** The [checks] of a [HealthCheck], each by name and status; the message
    and the duration of a check are left out. *)
Definition health_checks (probe_healthy : bool) (m : Layer.IntegrationMetrics)
  : list (string * CheckStatus) :=
  [("api_connectivity", if probe_healthy then check_pass else check_fail);
   ("error_rate", if error_rate_below m then check_pass else check_fail);
   ("response_time",
    if Qltb (Layer.averageResponseTime m) (inject_Z 5000)
    then check_pass else check_warn);
   ("rate_limit",
    if Layer.rateLimitHits m <? 10 then check_pass else check_warn)].

End Monitor.

(* ------------------------------------------------------------------ *)
(** * The monitor and the services registered with it *)

Module Registry.
Import Js.

(** One element of a metrics history. *)
Record MetricsSample : Type := {
  sample_timestamp : Z;
  sample_metrics : Layer.IntegrationMetrics
}.

(** An [IntegrationLayer] that has been handed to the monitor: its state,
    and the names under which [registerService] has attached its three
    listeners to it, in the order of attachment. *)
Record ServiceObject : Type := {
  instance : Layer.St;
  listeners : list string
}.

(** The monitor with what ties it to its services: the instances it has
    been handed, the map from names to instances (an instance is referred
    to by its place in [objects]), and the metrics histories; [recorded]
    lists the ['metrics_recorded'] events. *)
Record St : Type := mkSt {
  monitor : Monitor.St;
  objects : list ServiceObject;
  services : JsMap nat;
  metricsHistory : JsMap (list MetricsSample);
  recorded : list (string * Layer.IntegrationMetrics)
}.

Definition set_monitor (m : Monitor.St) (st : St) : St :=
  mkSt m (objects st) (services st) (metricsHistory st) (recorded st).

Definition set_objects (o : list ServiceObject) (st : St) : St :=
  mkSt (monitor st) o (services st) (metricsHistory st) (recorded st).

Definition new_IntegrationMonitor (cfg : Monitor.MonitoringConfig) : St :=
  {| monitor := Monitor.new_IntegrationMonitor cfg; objects := []; services := [];
     metricsHistory := []; recorded := [] |}.

(** A new instance comes into being; the result is its reference. *)
Definition adopt (service : Layer.St) (st : St) : nat * St :=
  (List.length (objects st),
   set_objects (objects st ++ [{| instance := service; listeners := [] |}])%list st).

Fixpoint replace_at (ref : nat) (o : ServiceObject) (l : list ServiceObject)
  : list ServiceObject :=
  match l, ref with
  | [], _ => []
  | _ :: r, O => o :: r
  | x :: r, S n => x :: replace_at n o r
  end.

(** [history.splice(0, history.length - 100)] once the history is longer
    than 100. *)
Definition keep_last_100 (history : list MetricsSample) : list MetricsSample :=
  if Z.of_nat (List.length history) >? 100
  then skipn (List.length history - 100) history
  else history.

Definition recordMetrics (now : Z) (serviceName : string)
    (metrics : Layer.IntegrationMetrics) (st : St) : St :=
  let history :=
    match map_get (metricsHistory st) serviceName with
    | Some h => h
    | None => []
    end in
  let history :=
    keep_last_100
      (history ++ [{| sample_timestamp := now; sample_metrics := metrics |}])%list in
  mkSt (monitor st) (objects st) (services st)
       (map_set (metricsHistory st) serviceName history)
       (recorded st ++ [(serviceName, metrics)])%list.

(** The metrics of the instance that [ref] refers to. *)
Definition metrics_of (ref : nat) (st : St) : option Layer.IntegrationMetrics :=
  match nth_error (objects st) ref with
  | Some o => Some (Layer.getMetrics (instance o))
  | None => None
  end.

Definition collectMetrics (now : Z) (st : St) : St :=
  fold_left
    (fun s entry =>
       match metrics_of (snd entry) s with
       | Some m => recordMetrics now (fst entry) m s
       | None => s
       end)
    (services st) st.

Inductive Period : Type := hour | day | week.

Definition period_ms (p : Period) : Z :=
  match p with
  | hour => 60 * 60 * 1000
  | day => 24 * 60 * 60 * 1000
  | week => 7 * 24 * 60 * 60 * 1000
  end.

Definition getServiceMetrics (now : Z) (serviceName : string) (period : option Period)
    (st : St) : list MetricsSample :=
  let history :=
    match map_get (metricsHistory st) serviceName with
    | Some h => h
    | None => []
    end in
  match period with
  | None => history
  | Some p =>
      filter (fun entry => sample_timestamp entry >=? now - period_ms p) history
  end.

Definition opt_number (o : option Z) : JsValue :=
  match o with
  | Some z => JNumber z
  | None => JUndefined
  end.

(** The listeners for ['api_success'] and ['api_failure'] that
    [registerService] attaches under [name]. *)
Definition on_event (now : Z) (name : string) (e : Layer.Event) (st : St) : St :=
  match e with
  | Layer.api_success statusCode url method =>
      set_monitor
        (Monitor.log now Monitor.info name "api_request" "API request successful"
           (Some (JObject [("statusCode", JNumber statusCode);
                           ("url", Layer.opt_string url);
                           ("method", Layer.opt_string method)]))
           None None None None None (monitor st))
        st
  | Layer.api_failure error statusCode url method =>
      set_monitor
        (Monitor.log now Monitor.error name "api_request" "API request failed"
           (Some (JObject [("statusCode", opt_number statusCode);
                           ("url", Layer.opt_string url);
                           ("method", Layer.opt_string method);
                           ("error", JString error)]))
           None None None None None (monitor st))
        st
  end.

(** The listeners of an instance, oldest first. *)
Definition listeners_of (ref : nat) (st : St) : list string :=
  match nth_error (objects st) ref with
  | Some o => listeners o
  | None => []
  end.

(** The instance [ref] emits [e] at [now]: its listeners run in the order
    of attachment. *)
Definition emit_event (now : Z) (ref : nat) (e : Layer.Event) (st : St) : St :=
  fold_left (fun s name => on_event now name e s) (listeners_of ref st) st.

(** The instance [ref] emits ['metrics_update'] at [now], as its own timer
    makes it do every minute. *)
Definition emit_metrics_update (now : Z) (ref : nat) (st : St) : St :=
  match metrics_of ref st with
  | Some m =>
      fold_left (fun s name => recordMetrics now name m s) (listeners_of ref st) st
  | None => st
  end.

Definition registerService (now : Z) (name : string) (ref : nat) (st : St) : St :=
  let attached :=
    match nth_error (objects st) ref with
    | Some o =>
        replace_at ref
          {| instance := instance o; listeners := (listeners o ++ [name])%list |}
          (objects st)
    | None => objects st
    end in
  let st1 :=
    mkSt (monitor st) attached (map_set (services st) name ref)
         (map_set (metricsHistory st) name []) (recorded st) in
  set_monitor
    (Monitor.log now Monitor.info name "service_registration"
       "Service registered for monitoring" None None None None None None
       (monitor st1))
    st1.

Definition unregisterService (now : Z) (name : string) (st : St) : St :=
  let st1 :=
    mkSt (Monitor.set_healthChecks
            (map_delete (Monitor.healthChecks (monitor st)) name) (monitor st))
         (objects st)
         (map_delete (services st) name)
         (map_delete (metricsHistory st) name) (recorded st) in
  set_monitor
    (Monitor.log now Monitor.info name "service_unregistration"
       "Service unregistered from monitoring" None None None None None None
       (monitor st1))
    st1.

Record Summary : Type := {
  totalServices : Z;
  healthyServices : Z;
  degradedServices : Z;
  unhealthyServices : Z;
  totalLogs : Z;
  errorLogs : Z;
  averageResponseTime : Q;
  totalRequests : Z;
  errorRate : Q
}.

Definition status_is (a b : Monitor.HealthStatus) : bool :=
  match a, b with
  | Monitor.healthy, Monitor.healthy => true
  | Monitor.degraded, Monitor.degraded => true
  | Monitor.unhealthy, Monitor.unhealthy => true
  | _, _ => false
  end.

Definition count {A : Type} (f : A -> bool) (l : list A) : Z :=
  Z.of_nat (List.length (filter f l)).

(** The three running totals of the loop over [this.services.values()]. *)
Definition totals (st : St) : Z * Q * Z :=
  fold_left
    (fun acc entry =>
       let '(requests, responseTime, failed) := acc in
       match metrics_of (snd entry) st with
       | Some metrics =>
           (requests + Layer.totalRequests metrics,
            (responseTime
             + Layer.averageResponseTime metrics
               * inject_Z (Layer.totalRequests metrics))%Q,
            failed + Layer.failedRequests metrics)
       | None => acc
       end)
    (services st) (0, 0%Q, 0).

Definition getMonitoringSummary (st : St) : Summary :=
  let statuses := map snd (Monitor.healthChecks (monitor st)) in
  let '(requests, responseTime, failed) := totals st in
  {| totalServices := Z.of_nat (List.length statuses);
     healthyServices := count (status_is Monitor.healthy) statuses;
     degradedServices := count (status_is Monitor.degraded) statuses;
     unhealthyServices := count (status_is Monitor.unhealthy) statuses;
     totalLogs := Z.of_nat (List.length (Monitor.logs (monitor st)));
     errorLogs :=
       count (fun log => Monitor.level_eqb (Monitor.level log) Monitor.error)
         (Monitor.logs (monitor st));
     averageResponseTime :=
       if requests >? 0 then (responseTime / inject_Z requests)%Q else 0%Q;
     totalRequests := requests;
     errorRate :=
       if requests >? 0 then (inject_Z failed / inject_Z requests)%Q else 0%Q |}.

(** The events among the effects, oldest first. *)
Fixpoint events_of (tr : list Layer.Effect) : list Layer.Event :=
  match tr with
  | [] => []
  | Layer.Emit e :: r => e :: events_of r
  | _ :: r => events_of r
  end.

(** One turn of the loop of [performHealthChecks], running undisturbed:
    the probe runs on the instance from [now]; what it emits reaches the
    listeners of the instance when the answer is there; the snapshot is
    taken after that. *)
Definition checkService (now : Z) (name : string) (ref : nat) (st : St) : Z * St :=
  match nth_error (objects st) ref with
  | None => (now, st)
  | Some o =>
      let '(result, probed) := Layer.healthCheck (Layer.set_clock now (instance o)) in
      let later := Layer.clock probed in
      let emitted :=
        events_of (skipn (List.length (Layer.trace (instance o))) (Layer.trace probed)) in
      let st1 :=
        set_objects
          (replace_at ref {| instance := probed; listeners := listeners o |}
             (objects st))
          st in
      let st2 := fold_left (fun s e => emit_event later ref e s) emitted st1 in
      match result with
      | Layer.Return health =>
          (later,
           set_monitor
             (Monitor.performHealthCheck later name (Layer.healthy health)
                (Layer.getMetrics probed) (monitor st2))
             st2)
      | Layer.Raise t =>
          (later,
           set_monitor
             (Monitor.log later Monitor.error name "health_check" "Health check failed"
                None None None None None
                (match t with
                 | Layer.ThrowErr e =>
                     Some {| Monitor.err_name := "TypeError";
                             Monitor.err_message := message e;
                             Monitor.err_stack := None |}
                 | Layer.ThrowUndefined => None
                 end)
                (monitor st2))
             st2)
      end
  end.

Definition performHealthChecks (now : Z) (st : St) : Z * St :=
  fold_left
    (fun acc entry => checkService (fst acc) (fst entry) (snd entry) (snd acc))
    (services st) (now, st).

End Registry.

(* ------------------------------------------------------------------ *)
(** * banking-integration.ts *)

Module Banking.
Import Js.

Inductive Environment : Type := sandbox | production.

Record BankingConfig : Type := {
  apiKey : string;
  apiSecret : string;
  environment : Environment;
  webhookUrl : string
}.

Definition apiConfig (config : BankingConfig) : Layer.APIConfig :=
  {| Layer.baseURL :=
       match environment config with
       | production => "https://api.bankingprovider.com/v1"
       | sandbox => "https://sandbox.bankingprovider.com/v1"
       end;
     Layer.timeout := 30000; Layer.retryAttempts := 3; Layer.retryDelay := 1000;
     Layer.rateLimitRPS := 10 |}.

(** The constructor: the instance it creates and the webhook it registers. *)
Definition new_BankingIntegration (config : BankingConfig) (now : Z)
    (net : nat -> Layer.AxiosRequestConfig -> Layer.HttpOutcome)
    (hooks : nat -> bool) : Layer.St :=
  Layer.addWebhook "banking-events"
    {| Layer.wh_url := webhookUrl config; Layer.secret := apiSecret config;
       Layer.events := ["payment_completed"; "payment_failed"; "account_updated"];
       Layer.maxRetries := 3; Layer.backoffMs := 2000 |}
    (Layer.new_IntegrationLayer (apiConfig config)
       (Some {| Layer.windowMs := 60000; Layer.maxRequests := 600;
                Layer.skipSuccessfulRequests := false;
                Layer.skipFailedRequests := false |})
       (Some {| Layer.enabled := true; Layer.ttl := 300000; Layer.maxSize := 500;
                Layer.strategy := Layer.lru |})
       now net hooks).

(** [try { return await call } catch (error) { return { success: false,
    error: error instanceof Error ? error.message : 'Unknown error' } }] *)
Definition guarded (call : Layer.M Layer.APIResponse) : Layer.M Layer.APIResponse :=
  Layer.tryCatch call
    (fun error =>
       Layer.ret
         {| Layer.success := false; Layer.data := None;
            Layer.error :=
              Some (match error with
                    | Layer.ThrowErr e => message e
                    | Layer.ThrowUndefined => "Unknown error"
                    end);
            Layer.statusCode := None; Layer.responseTime := None;
            Layer.cached := None |}).

Definition cancelPayment (paymentId : string) : Layer.M Layer.APIResponse :=
  guarded (Layer.post ("/payments/" ++ paymentId ++ "/cancel") JUndefined
             Layer.no_options).

Definition validateAccount (accountNumber routingNumber : string)
  : Layer.M Layer.APIResponse :=
  guarded (Layer.post "/accounts/validate"
             (JObject [("accountNumber", JString accountNumber);
                       ("routingNumber", JString routingNumber)])
             Layer.no_options).

Definition unlinkBankAccount (accountId : string) : Layer.M Layer.APIResponse :=
  guarded (Layer.delete ("/accounts/" ++ accountId ++ "/link") Layer.no_options).

End Banking.

(* ------------------------------------------------------------------ *)
(** * Vocabulary of the statements *)

Module Spec.
Import Js.

Fixpoint Qsum (l : list Q) : Q :=
  match l with
  | [] => 0%Q
  | x :: r => (x + Qsum r)%Q
  end.

(** The arithmetic mean. *)
Definition mean (l : list Q) : Q :=
  (Qsum l / inject_Z (Z.of_nat (List.length l)))%Q.

(** The sample that [recordSuccess] feeds into the running average. *)
Definition sample (r : Layer.AxiosResponse) : Q :=
  Layer.or_zero (Layer.metadata_responseTime (Layer.resp_config r)).

(** The ['alert'] events among the emitted ones, oldest first. *)
Fixpoint alerts_of (evs : list Monitor.MonitorEvent) : list Monitor.Alert :=
  match evs with
  | [] => []
  | Monitor.ev_alert a :: r => a :: alerts_of r
  | _ :: r => alerts_of r
  end.

(** The arguments of one call of [log] other than level and service. *)
Record LogCall : Type := {
  at_time : Z;
  c_operation : string;
  c_message : string;
  c_metadata : option JsValue;
  c_correlationId : option string;
  c_userId : option string;
  c_duration : option Z;
  c_statusCode : option Z;
  c_error : option Monitor.ErrorDetail
}.

(** [monitor.log('error', svc, ...)] *)
Definition log_error (svc : string) (c : LogCall) (st : Monitor.St) : Monitor.St :=
  Monitor.log (at_time c) Monitor.error svc (c_operation c) (c_message c)
    (c_metadata c) (c_correlationId c) (c_userId c) (c_duration c)
    (c_statusCode c) (c_error c) st.

Definition log_errors (svc : string) (cs : list LogCall) (st : Monitor.St) : Monitor.St :=
  fold_left (fun s c => log_error svc c s) cs st.

(** The alert that an error entry of [svc] raises at [now]. *)
Definition error_alert (svc : string) (now : Z) : Monitor.Alert :=
  {| Monitor.serviceName := svc; Monitor.alertType := "high_error_rate";
     Monitor.alert_timestamp := now;
     Monitor.alert_message := "High error rate detected in " ++ svc;
     Monitor.severity := Monitor.sev_warning |}.

(** No alert of the error kind of [svc] is cooling down at [now]. *)
Definition not_cooling (svc : string) (now : Z) (st : Monitor.St) : Prop :=
  forall lastAlert,
    map_get (Monitor.alertCooldowns st) (svc ++ "_error") = Some lastAlert ->
    Monitor.cooldown (Monitor.alertConfig (Monitor.config st)) <= now - lastAlert.

(** Keys of a cache as [generateCacheKey] makes them: distinct and not the
    empty string. *)
Definition well_keyed (c : JsMap Layer.CacheItem) : Prop :=
  NoDup (map_keys c) /\ Forall (fun k => k <> EmptyString) (map_keys c).

(** The entry that [setCache] writes at the current time. *)
Definition new_item (value : JsValue) (st : Layer.St) : Layer.CacheItem :=
  {| Layer.item_data := value; Layer.timestamp := Layer.clock st; Layer.hits := 0 |}.

(** The timestamps on record for the target of the instance, and those of
    them that lie inside the window ending now. *)
Definition window (st : Layer.St) : list Z :=
  match map_get (Layer.rateLimitTracker st) (Layer.baseURL (Layer.config st)) with
  | Some l => l
  | None => []
  end.

Definition pruned (st : Layer.St) : list Z :=
  filter (fun t => Layer.clock st - Layer.windowMs (Layer.rateLimitConfig st) <? t)
    (window st).

(** An admission asked for when the clock reads [t], and a series of them. *)
Definition admission_at (t : Z) (st : Layer.St) : Layer.St :=
  snd (Layer.checkRateLimit (Layer.set_clock t st)).

Definition admissions (ts : list Z) (st : Layer.St) : Layer.St :=
  fold_left (fun s t => admission_at t s) ts st.

(** The delays among the effects, oldest first. *)
Fixpoint delays_of (tr : list Layer.Effect) : list ExtNum :=
  match tr with
  | [] => []
  | Layer.Delay ms :: r => ms :: delays_of r
  | _ :: r => delays_of r
  end.

(** The attempts and delays among the effects, in order. *)
Fixpoint schedule (tr : list Layer.Effect) : list Layer.Effect :=
  match tr with
  | [] => []
  | Layer.Attempt cfg :: r => Layer.Attempt cfg :: schedule r
  | Layer.Delay ms :: r => Layer.Delay ms :: schedule r
  | _ :: r => schedule r
  end.

(** [n] failed attempts, the first numbered [from], each followed by its
    backoff [retryDelay * 2^attempt]. *)
Fixpoint rounds (cfg : Layer.AxiosRequestConfig) (retryDelay from : Z) (n : nat)
  : list Layer.Effect :=
  match n with
  | O => []
  | S n' =>
      Layer.Attempt cfg :: Layer.Delay (Fin (retryDelay * 2 ^ from))
        :: rounds cfg retryDelay (from + 1) n'
  end.

(** The state in which the iteration numbered [attempt] of the retry loop
    ends when its request fails with [e] after [elapsed] ms. *)
Definition attempt_failed (cfg : Layer.AxiosRequestConfig) (attempt elapsed : Z)
    (e : JsError) (st : Layer.St) : Layer.St :=
  let st1 := Layer.set_metrics (Layer.inc_totalRequests (Layer.metrics st)) st in
  let st2 := Layer.perform (Layer.Attempt cfg)
               (Layer.set_http_calls (S (Layer.http_calls st)) st1) in
  let st3 := Layer.recordFailure e (Layer.set_clock (Layer.clock st2 + elapsed) st2) in
  if attempt <? Layer.retryAttempts (Layer.config st)
  then snd (Layer.delay
              (Fin (Layer.retryDelay (Layer.config st) * 2 ^ attempt)) st3)
  else st3.

(** The state in which an iteration ends when its request succeeds. *)
Definition attempt_succeeded (cfg : Layer.AxiosRequestConfig) (elapsed : Z)
    (r : Layer.AxiosResponse) (st : Layer.St) : Layer.St :=
  let st1 := Layer.set_metrics (Layer.inc_totalRequests (Layer.metrics st)) st in
  let st2 := Layer.perform (Layer.Attempt cfg)
               (Layer.set_http_calls (S (Layer.http_calls st)) st1) in
  Layer.recordSuccess r (Layer.set_clock (Layer.clock st2 + elapsed) st2).

(** Requests counted in [totalRequests] that are counted neither as
    successful nor as failed. *)
Definition unaccounted (m : Layer.IntegrationMetrics) : Z :=
  Layer.totalRequests m - Layer.successfulRequests m - Layer.failedRequests m.

(** The webhook posts among the effects: target and body, oldest first. *)
Fixpoint posts_of (tr : list Layer.Effect) : list (string * string) :=
  match tr with
  | [] => []
  | Layer.WebhookPost target body :: r => (target, body) :: posts_of r
  | _ :: r => posts_of r
  end.

(** The webhooks registered for [event], in the order of registration. *)
Definition subscribed (event : string) (ws : JsMap Layer.WebhookConfig)
  : JsMap Layer.WebhookConfig :=
  filter (fun entry => existsb (String.eqb event) (Layer.events (snd entry))) ws.

(** What the retry loop and the rate limiter leave alone. *)
Definition same_surroundings (st st' : Layer.St) : Prop :=
  Layer.config st' = Layer.config st
  /\ Layer.rateLimitConfig st' = Layer.rateLimitConfig st
  /\ Layer.cacheConfig st' = Layer.cacheConfig st
  /\ Layer.cache st' = Layer.cache st
  /\ Layer.webhooks st' = Layer.webhooks st
  /\ Layer.hook st' = Layer.hook st
  /\ Layer.hook_calls st' = Layer.hook_calls st
  /\ Layer.cacheHits (Layer.metrics st') = Layer.cacheHits (Layer.metrics st)
  /\ Layer.cacheMisses (Layer.metrics st') = Layer.cacheMisses (Layer.metrics st)
  /\ unaccounted (Layer.metrics st') = unaccounted (Layer.metrics st)
  /\ posts_of (Layer.trace st') = posts_of (Layer.trace st).

(** The envelope that [sendWebhook] signs and posts. *)
Definition envelope (event : string) (now : Z) (payload : JsValue) : JsValue :=
  JObject [("event", JString event);
           ("timestamp", JString (json_number now));
           ("data", payload)].

(** The console errors among the effects, oldest first. *)
Fixpoint console_errors_of (tr : list Layer.Effect) : list string :=
  match tr with
  | [] => []
  | Layer.ConsoleError id :: r => id :: console_errors_of r
  | _ :: r => console_errors_of r
  end.

(** The ids of the webhooks among [subs] whose post is rejected, the
    first post being the [k]-th of the instance. *)
Fixpoint rejected_posts (hook : nat -> bool) (k : nat) (subs : JsMap Layer.WebhookConfig)
  : list string :=
  match subs with
  | [] => []
  | (id, _) :: r =>
      if hook k then rejected_posts hook (S k) r
      else id :: rejected_posts hook (S k) r
  end.

(** What webhook delivery leaves alone. *)
Definition same_instance (st st' : Layer.St) : Prop :=
  Layer.config st' = Layer.config st
  /\ Layer.rateLimitConfig st' = Layer.rateLimitConfig st
  /\ Layer.cacheConfig st' = Layer.cacheConfig st
  /\ Layer.metrics st' = Layer.metrics st
  /\ Layer.cache st' = Layer.cache st
  /\ Layer.rateLimitTracker st' = Layer.rateLimitTracker st
  /\ Layer.webhooks st' = Layer.webhooks st
  /\ Layer.clock st' = Layer.clock st
  /\ Layer.hook st' = Layer.hook st
  /\ Layer.http_calls st' = Layer.http_calls st.

(** The payload of the ['api_failure'] webhook event. *)
Definition failure_payload (cfg : Layer.AxiosRequestConfig) (e : JsError)
    (responseTime : Z) : JsValue :=
  JObject [("error", JString (message e));
           ("config", Layer.config_value cfg);
           ("responseTime", JNumber responseTime)].

(** A series of calls on one instance, each made when the clock reads the
    given time. *)
Definition calls (cs : list (Z * Layer.AxiosRequestConfig)) (st : Layer.St)
  : Layer.St :=
  fold_left (fun s c => snd (Layer.request (snd c) (Layer.set_clock (fst c) s))) cs st.

(** The filters of a log query taken together. *)
Definition matches (options : Monitor.LogQuery) (log : Monitor.LogEntry) : bool :=
  (match Monitor.given (Monitor.q_service options) with
   | Some s => String.eqb (Monitor.service log) s
   | None => true
   end)
  && (match Monitor.q_level options with
      | Some l => Monitor.level_eqb (Monitor.level log) l
      | None => true
      end)
  && (match Monitor.q_startDate options with
      | Some d => Monitor.timestamp log >=? d
      | None => true
      end)
  && (match Monitor.q_endDate options with
      | Some d => Monitor.timestamp log <=? d
      | None => true
      end)
  && (match Monitor.given (Monitor.q_correlationId options) with
      | Some c => Monitor.correlation_is c log
      | None => true
      end).

(** The same query without its limit. *)
Definition without_limit (options : Monitor.LogQuery) : Monitor.LogQuery :=
  {| Monitor.q_service := Monitor.q_service options;
     Monitor.q_level := Monitor.q_level options;
     Monitor.q_startDate := Monitor.q_startDate options;
     Monitor.q_endDate := Monitor.q_endDate options;
     Monitor.q_limit := None;
     Monitor.q_correlationId := Monitor.q_correlationId options |}.

(** No entry is followed by a newer one. *)
Fixpoint newest_first (l : list Monitor.LogEntry) : Prop :=
  match l with
  | [] => True
  | x :: r =>
      Forall (fun y => Monitor.timestamp y <= Monitor.timestamp x) r
      /\ newest_first r
  end.

(** The entry that a call of [log] makes. *)
Definition entry_of (lvl : Monitor.Level) (svc : string) (c : LogCall)
  : Monitor.LogEntry :=
  {| Monitor.timestamp := at_time c; Monitor.level := lvl; Monitor.service := svc;
     Monitor.operation := c_operation c; Monitor.message := c_message c;
     Monitor.metadata := c_metadata c; Monitor.correlationId := c_correlationId c;
     Monitor.userId := c_userId c; Monitor.duration := c_duration c;
     Monitor.statusCode := c_statusCode c; Monitor.error_detail := c_error c |}.

(** [monitor.log(lvl, svc, ...)] *)
Definition log_at (lvl : Monitor.Level) (svc : string) (c : LogCall)
    (st : Monitor.St) : Monitor.St :=
  Monitor.log (at_time c) lvl svc (c_operation c) (c_message c)
    (c_metadata c) (c_correlationId c) (c_userId c) (c_duration c)
    (c_statusCode c) (c_error c) st.

(** The alert that a health snapshot of [svc] raises at [now]. *)
Definition health_alert (svc : string) (status : Monitor.HealthStatus) (now : Z)
  : Monitor.Alert :=
  {| Monitor.serviceName := svc; Monitor.alertType := "health_issue";
     Monitor.alert_timestamp := now;
     Monitor.alert_message :=
       "Health issue detected in " ++ svc ++ ": " ++ Monitor.status_name status;
     Monitor.severity :=
       match status with
       | Monitor.unhealthy => Monitor.sev_critical
       | _ => Monitor.sev_warning
       end |}.

(** The ['log'] events among the emitted ones, oldest first. *)
Fixpoint logged (evs : list Monitor.MonitorEvent) : list Monitor.LogEntry :=
  match evs with
  | [] => []
  | Monitor.ev_log entry :: r => entry :: logged r
  | _ :: r => logged r
  end.

(** The history on record for a service. *)
Definition history_of (name : string) (st : Registry.St)
  : list Registry.MetricsSample :=
  Registry.getServiceMetrics 0 name None st.

(** The ['health_check'] events among the emitted ones, oldest first. *)
Fixpoint health_events (evs : list Monitor.MonitorEvent)
  : list (string * Monitor.HealthStatus) :=
  match evs with
  | [] => []
  | Monitor.ev_health_check name status :: r => (name, status) :: health_events r
  | _ :: r => health_events r
  end.

(** The targets of the webhook posts among the effects, oldest first. *)
Definition targets_of (tr : list Layer.Effect) : list string :=
  map fst (posts_of tr).

(** The targets registered for [event], in the order of registration. *)
Definition subscribers (event : string) (ws : JsMap Layer.WebhookConfig)
  : list string :=
  map (fun entry => Layer.wh_url (snd entry)) (subscribed event ws).

(** The delivery that starts when the loop of [triggerAlert] reaches the
    channels [remaining]: the one to the first of them, if there is one. *)
Definition next_delivery (a : Monitor.Alert) (remaining : list Monitor.ChannelType)
  : list (Monitor.ChannelType * Monitor.Alert) :=
  match remaining with
  | [] => []
  | c :: _ => [(c, a)]
  end.

(** The ['health_issue'] alerts among the emitted events, oldest first. *)
Definition health_alerts (evs : list Monitor.MonitorEvent) : list Monitor.Alert :=
  filter (fun a => String.eqb (Monitor.alertType a) "health_issue") (alerts_of evs).

(** No health alert of [svc] is cooling down at [now]. *)
Definition health_not_cooling (svc : string) (now : Z) (st : Monitor.St) : Prop :=
  forall lastAlert,
    map_get (Monitor.alertCooldowns st) (svc ++ "_health") = Some lastAlert ->
    Monitor.cooldown (Monitor.alertConfig (Monitor.config st)) <= now - lastAlert.

(** What the network holds for the probe that the next health check of
    [service] makes; whether it is an answer, and the time it takes. *)
Definition probe (service : Layer.St) : Layer.HttpOutcome :=
  Layer.http service (Layer.http_calls service) Layer.health_request.

Definition answered (p : Layer.HttpOutcome) : bool :=
  match p with
  | Layer.HttpOk _ _ => true
  | Layer.HttpErr _ _ => false
  end.

Definition elapsed_of (p : Layer.HttpOutcome) : Z :=
  match p with
  | Layer.HttpOk elapsed _ => elapsed
  | Layer.HttpErr elapsed _ => elapsed
  end.

(** The instance after a health check begun at [now]. *)
Definition probed (now : Z) (service : Layer.St) : Layer.St :=
  snd (Layer.healthCheck (Layer.set_clock now service)).

(** The level at which the listeners of [registerService] log an event. *)
Definition level_of_event (e : Layer.Event) : Monitor.Level :=
  match e with
  | Layer.api_success _ _ _ => Monitor.info
  | Layer.api_failure _ _ _ _ => Monitor.error
  end.

Definition level_and_service (log : Monitor.LogEntry) : Monitor.Level * string :=
  (Monitor.level log, Monitor.service log).

End Spec.

(* ------------------------------------------------------------------ *)
(** * Sample configurations and inputs *)

Module Sample.
Import Js.

Definition apiConfig : Layer.APIConfig :=
  {| Layer.baseURL := "https://mock-api.test.com/v1"; Layer.timeout := 5000;
     Layer.retryAttempts := 2; Layer.retryDelay := 1000;
     Layer.rateLimitRPS := 10 |}.

Definition response_ok (body : JsValue) (rt : option Q) : Layer.AxiosResponse :=
  {| Layer.resp_data := body; Layer.status := 200;
     Layer.resp_config :=
       {| Layer.url := Some "/test"; Layer.method := Some "get";
          Layer.params := JUndefined; Layer.req_data := JUndefined;
          Layer.metadata_responseTime := rt |} |}.

Definition network_error : JsError :=
  {| message := "Network Error"; response_status := None;
     config_url := Some "/test"; config_method := Some "get" |}.

(** A network on which every call succeeds at once with the same body. *)
Definition always_ok (body : JsValue) : nat -> Layer.AxiosRequestConfig -> Layer.HttpOutcome :=
  fun _ _ => Layer.HttpOk 0 (response_ok body None).

Definition fresh_layer : Layer.St :=
  Layer.new_IntegrationLayer apiConfig None None 1000
    (always_ok (JString "payload")) (fun _ => true).

Definition metrics_of (total failed : Z) (avg : Q) : Layer.IntegrationMetrics :=
  {| Layer.totalRequests := total; Layer.successfulRequests := total - failed;
     Layer.failedRequests := failed; Layer.averageResponseTime := avg;
     Layer.rateLimitHits := 0; Layer.cacheHits := 0; Layer.cacheMisses := 0;
     Layer.lastError := None; Layer.lastErrorTime := None |}.

Definition monitoringConfig : Monitor.MonitoringConfig :=
  {| Monitor.logLevel := Monitor.info; Monitor.retentionPeriod := 7;
     Monitor.maxLogEntries := 1000;
     Monitor.alertConfig :=
       {| Monitor.enabled := true; Monitor.cooldown := 300000;
          Monitor.channels := [] |};
     Monitor.healthCheckInterval := 60000; Monitor.metricsInterval := 30000 |}.

(** [monitor.log('error', svc, 'api_request', 'API request failed')] *)
Definition log_failure (now : Z) (svc : string) (st : Monitor.St) : Monitor.St :=
  Monitor.log now Monitor.error svc "api_request" "API request failed"
    None None None None None None st.

(** A monitor that has logged four failed requests of ["billing"]. *)
Definition four_failures : Monitor.St :=
  log_failure 4000 "billing"
    (log_failure 3000 "billing"
       (log_failure 2000 "billing"
          (log_failure 1000 "billing"
             (Monitor.new_IntegrationMonitor monitoringConfig)))).

(** The test configuration with the cap on the log store set to zero. *)
Definition zero_cap_config : Monitor.MonitoringConfig :=
  {| Monitor.logLevel := Monitor.info; Monitor.retentionPeriod := 7;
     Monitor.maxLogEntries := 0;
     Monitor.alertConfig := Monitor.alertConfig monitoringConfig;
     Monitor.healthCheckInterval := 60000; Monitor.metricsInterval := 30000 |}.

Definition log_info (now : Z) (svc msg : string) (st : Monitor.St) : Monitor.St :=
  Monitor.log now Monitor.info svc "test-operation" msg
    None None None None None None st.

(** The test configuration with alerting switched off. *)
Definition alerts_off_config : Monitor.MonitoringConfig :=
  {| Monitor.logLevel := Monitor.info; Monitor.retentionPeriod := 7;
     Monitor.maxLogEntries := 1000;
     Monitor.alertConfig :=
       {| Monitor.enabled := false; Monitor.cooldown := 300000;
          Monitor.channels := [] |};
     Monitor.healthCheckInterval := 60000; Monitor.metricsInterval := 30000 |}.

Definition failure_at (now : Z) : Spec.LogCall :=
  {| Spec.at_time := now; Spec.c_operation := "api_request";
     Spec.c_message := "API request failed"; Spec.c_metadata := None;
     Spec.c_correlationId := None; Spec.c_userId := None;
     Spec.c_duration := None; Spec.c_statusCode := None; Spec.c_error := None |}.

(** An instance in front of a service that answers every request at once
    with status 200 and an empty body. *)
Definition empty_body_layer : Layer.St :=
  Layer.new_IntegrationLayer apiConfig None None 1000
    (always_ok (JString EmptyString)) (fun _ => true).

(** The same with the JSON body [0]. *)
Definition zero_body_layer : Layer.St :=
  Layer.new_IntegrationLayer apiConfig None None 1000
    (always_ok (JNumber 0)) (fun _ => true).

(** The state a call leaves behind, and what it resolved or rejected with. *)
Definition after {A : Type} (m : Layer.M A) (st : Layer.St) : Layer.St := snd (m st).
Definition outcome {A : Type} (m : Layer.M A) (st : Layer.St) : Layer.Res A := fst (m st).

(** An instance whose cache holds one entry, evicting by [strategy], in
    front of a service that answers at once. *)
Definition one_slot_layer (s : Layer.Strategy) : Layer.St :=
  Layer.new_IntegrationLayer apiConfig None
    (Some {| Layer.enabled := true; Layer.ttl := 300000; Layer.maxSize := 1;
             Layer.strategy := s |})
    1000 (always_ok (JString "payload")) (fun _ => true).

(** A fresh instance with a budget of five requests per second. *)
Definition five_per_second_layer : Layer.St :=
  Layer.new_IntegrationLayer apiConfig
    (Some {| Layer.windowMs := 1000; Layer.maxRequests := 5;
             Layer.skipSuccessfulRequests := false;
             Layer.skipFailedRequests := false |})
    None 1000 (always_ok JNull) (fun _ => true).

(** A network whose first two calls fail and whose later calls succeed. *)
Definition fails_twice : nat -> Layer.AxiosRequestConfig -> Layer.HttpOutcome :=
  fun n _ =>
    match n with
    | O | S O => Layer.HttpErr 5 network_error
    | _ => Layer.HttpOk 5 (response_ok (JString "payload") None)
    end.

Definition flaky_layer : Layer.St :=
  Layer.new_IntegrationLayer apiConfig None None 1000 fails_twice (fun _ => true).

Definition get_test : Layer.AxiosRequestConfig :=
  {| Layer.url := Some "/test-retry"; Layer.method := Some "GET";
     Layer.params := JUndefined; Layer.req_data := JUndefined;
     Layer.metadata_responseTime := None |}.

(** A network whose first call fails and whose later calls succeed with a
    response that carries a response time of 200 ms. *)
Definition fails_once : nat -> Layer.AxiosRequestConfig -> Layer.HttpOutcome :=
  fun n _ =>
    match n with
    | O => Layer.HttpErr 5 network_error
    | _ => Layer.HttpOk 5 (response_ok (JString "payload") (Some (inject_Z 200)))
    end.

Definition retried_layer : Layer.St :=
  Layer.new_IntegrationLayer apiConfig None None 1000 fails_once (fun _ => true).

Definition bankingConfig : Banking.BankingConfig :=
  {| Banking.apiKey := "key"; Banking.apiSecret := "secret";
     Banking.environment := Banking.sandbox;
     Banking.webhookUrl := "https://nepa.example/hooks/banking" |}.

(** A payment body. *)
Definition payment : JsValue :=
  JObject [("amount", JNumber 100); ("currency", JString "NGN")].

Definition audit_hook : Layer.WebhookConfig :=
  {| Layer.wh_url := "https://audit.example/hook"; Layer.secret := "s1";
     Layer.events := ["api_failure"]; Layer.maxRetries := 3; Layer.backoffMs := 2000 |}.

Definition billing_hook : Layer.WebhookConfig :=
  {| Layer.wh_url := "https://billing.example/hook"; Layer.secret := "s2";
     Layer.events := ["payment_completed"]; Layer.maxRetries := 3;
     Layer.backoffMs := 2000 |}.

Definition pager_hook : Layer.WebhookConfig :=
  {| Layer.wh_url := "https://pager.example/hook"; Layer.secret := "s3";
     Layer.events := ["payment_failed"; "api_failure"]; Layer.maxRetries := 5;
     Layer.backoffMs := 100 |}.

(** An instance with three webhooks whose every post is rejected. *)
Definition hooked_layer : Layer.St :=
  Layer.addWebhook "pager" pager_hook
    (Layer.addWebhook "billing" billing_hook
       (Layer.addWebhook "audit" audit_hook
          (Layer.new_IntegrationLayer apiConfig None None 1000
             (fun _ _ => Layer.HttpErr 5 network_error) (fun _ => false)))).

(** An instance whose cache holds two entries, and the same after two GETs,
    half a second apart, have filled it. *)
Definition two_slot_layer (s : Layer.Strategy) : Layer.St :=
  Layer.new_IntegrationLayer apiConfig None
    (Some {| Layer.enabled := true; Layer.ttl := 300000; Layer.maxSize := 2;
             Layer.strategy := s |})
    1000 (always_ok (JString "payload")) (fun _ => true).

Definition warm_layer (s : Layer.Strategy) : Layer.St :=
  Layer.set_clock 2000
    (after (Layer.get "/b" Layer.no_options)
       (Layer.set_clock 1500
          (after (Layer.get "/a" Layer.no_options) (two_slot_layer s)))).

(** The test configuration with two alert channels. *)
Definition paging_config : Monitor.MonitoringConfig :=
  {| Monitor.logLevel := Monitor.warn; Monitor.retentionPeriod := 7;
     Monitor.maxLogEntries := 1000;
     Monitor.alertConfig :=
       {| Monitor.enabled := true; Monitor.cooldown := 300000;
          Monitor.channels := [Monitor.webhook; Monitor.slack] |};
     Monitor.healthCheckInterval := 60000; Monitor.metricsInterval := 30000 |}.

(** A monitor that has been handed one instance and has registered it as
    ["billing"]. *)
Definition registry : Registry.St :=
  Registry.registerService 1000 "billing" 0
    (snd (Registry.adopt fresh_layer (Registry.new_IntegrationMonitor monitoringConfig))).

(** A fresh instance with a budget of no request at all. *)
Definition no_budget_layer : Layer.St :=
  Layer.new_IntegrationLayer apiConfig
    (Some {| Layer.windowMs := 1000; Layer.maxRequests := 0;
             Layer.skipSuccessfulRequests := false;
             Layer.skipFailedRequests := false |})
    None 1000 (always_ok JNull) (fun _ => true).

(** A service that answers every request after 250 ms with status 200; as
    with axios, [response.config] is the configuration of the request. *)
Definition answers_in_250_ms : nat -> Layer.AxiosRequestConfig -> Layer.HttpOutcome :=
  fun _ cfg =>
    Layer.HttpOk 250
      {| Layer.resp_data := JString "payload"; Layer.status := 200;
         Layer.resp_config := cfg |}.

Definition quarter_second_layer : Layer.St :=
  Layer.new_IntegrationLayer apiConfig None None 1000 answers_in_250_ms (fun _ => true).

(** A fresh instance with a budget of five requests in thirty days. *)
Definition thirty_day_layer : Layer.St :=
  Layer.new_IntegrationLayer apiConfig
    (Some {| Layer.windowMs := 30 * 24 * 60 * 60 * 1000; Layer.maxRequests := 5;
             Layer.skipSuccessfulRequests := false;
             Layer.skipFailedRequests := false |})
    None 1000 (always_ok JNull) (fun _ => true).

(** An instance that retries twice, waiting 1500000000 ms before the first
    retry, in front of the network that fails twice. *)
Definition long_backoff_layer : Layer.St :=
  Layer.new_IntegrationLayer
    {| Layer.baseURL := "https://mock-api.test.com/v1"; Layer.timeout := 5000;
       Layer.retryAttempts := 2; Layer.retryDelay := 1500000000;
       Layer.rateLimitRPS := 10 |}
    None None 1000 fails_twice (fun _ => true).

(** An instance in front of a service that is down, and a monitor that has
    registered it as ["billing"]. *)
Definition down_layer : Layer.St :=
  Layer.new_IntegrationLayer apiConfig None None 1000
    (fun _ _ => Layer.HttpErr 5 network_error) (fun _ => true).

Definition down_registry : Registry.St :=
  Registry.registerService 1000 "billing" 0
    (snd (Registry.adopt down_layer (Registry.new_IntegrationMonitor monitoringConfig))).

(*SAMPLE-END*)
End Sample.

(* ------------------------------------------------------------------ *)
(** * Metrics: the running average *)

Section RunningAverage.
Import Js Layer Spec.

Lemma recordSuccess_counts (r : AxiosResponse) (st : St) :
  successfulRequests (metrics (recordSuccess r st))
    = successfulRequests (metrics st) + 1
  /\ failedRequests (metrics (recordSuccess r st)) = failedRequests (metrics st)
  /\ totalRequests (metrics (recordSuccess r st)) = totalRequests (metrics st).
Proof. repeat split. Qed.

(** The update formula: with [n] the number of successful plus failed
    requests after the increment, the new average is
    [(avg * (n - 1) + sample) / n]. *)
Lemma recordSuccess_average (r : AxiosResponse) (st : St) :
  let n := successfulRequests (metrics st) + 1 + failedRequests (metrics st) in
  averageResponseTime (metrics (recordSuccess r st))
  = ((averageResponseTime (metrics st) * inject_Z (n - 1) + sample r) / inject_Z n)%Q.
Proof. reflexivity. Qed.

(** A failure on record weighs on the average: the next success divides
    by a count that includes it. *)
Lemma recordSuccess_after_failures (r : AxiosResponse) (st : St) :
  successfulRequests (metrics st) = 0 ->
  0 < failedRequests (metrics st) ->
  (averageResponseTime (metrics (recordSuccess r st))
   == (averageResponseTime (metrics st) * inject_Z (failedRequests (metrics st))
       + sample r)
      / inject_Z (failedRequests (metrics st) + 1))%Q.
Proof.
  intros Hs Hf. rewrite recordSuccess_average. cbv zeta. rewrite Hs.
  replace (0 + 1 + failedRequests (metrics st) - 1)
    with (failedRequests (metrics st)) by lia.
  replace (0 + 1 + failedRequests (metrics st))
    with (failedRequests (metrics st) + 1) by lia.
  reflexivity.
Qed.

(** The divisor counts failed requests as well.  Against a response that
    carries [metadata.responseTime = 200], one call that succeeds on its
    second attempt leaves an average of 100 ms, half the mean of the one
    sample, because the failed first attempt is counted in the divisor. *)
Lemma retried_call_halves_the_average :
  let call := get "/test-retry" no_options in
  let st := Sample.after call Sample.retried_layer in
  option_map success
    (match Sample.outcome call Sample.retried_layer with
     | Return result => Some result
     | Raise _ => None
     end) = Some true
  /\ successfulRequests (metrics st) = 1
  /\ failedRequests (metrics st) = 1
  /\ (averageResponseTime (metrics st) == inject_Z 100)%Q
  /\ (mean [inject_Z 200] == inject_Z 200)%Q
  /\ ~ (averageResponseTime (metrics st) == mean [inject_Z 200])%Q.
Proof.
  cbv zeta. vm_compute. repeat split; discriminate.
Qed.

(** C6, the code at the failing input.  A fresh instance in front of a
    service that answers every request after 250 ms, the response carrying
    the configuration of its request.  Three GETs succeed, each reporting
    a [responseTime] of 250, and are counted as three successes and no
    failure; the sample that [recordSuccess] reads,
    [response.config.metadata?.responseTime], is set by nothing, so the
    recorded [averageResponseTime] is 0 and not the mean 250. *)
Theorem timed_calls_leave_average_at_zero :
  let first := get "/a" no_options in
  let second := get "/b" no_options in
  let third := get "/c" no_options in
  let st1 := Sample.after first Sample.quarter_second_layer in
  let st2 := Sample.after second st1 in
  let st3 := Sample.after third st2 in
  let timed (res : Res APIResponse) :=
    match res with
    | Return result => (success result, responseTime result, cached result)
    | Raise _ => (false, None, None)
    end in
  map timed [Sample.outcome first Sample.quarter_second_layer;
             Sample.outcome second st1; Sample.outcome third st2]
    = [(true, Some 250, None); (true, Some 250, None); (true, Some 250, None)]
  /\ clock st3 = clock Sample.quarter_second_layer + 750
  /\ http_calls st3 = 3%nat
  /\ totalRequests (metrics st3) = 3
  /\ successfulRequests (metrics st3) = 3
  /\ failedRequests (metrics st3) = 0
  /\ (averageResponseTime (metrics st1) == 0)%Q
  /\ (averageResponseTime (metrics st2) == 0)%Q
  /\ (averageResponseTime (metrics st3) == 0)%Q
  /\ (mean [inject_Z 250; inject_Z 250; inject_Z 250] == inject_Z 250)%Q
  /\ ~ (averageResponseTime (metrics st3)
        == mean [inject_Z 250; inject_Z 250; inject_Z 250])%Q.
Proof.
  cbv zeta. vm_compute. repeat split; discriminate.
Qed.

End RunningAverage.

(* ------------------------------------------------------------------ *)
(** * Monitor: health classification *)

Section Health.
Import Js Monitor.

Lemma Qgtb_true (a b : Q) : Qgtb a b = true <-> (b < a)%Q.
Proof.
  unfold Qgtb. rewrite negb_true_iff. split; intro H.
  - apply Qnot_le_lt. intro Hle. apply Qle_bool_iff in Hle. congruence.
  - destruct (Qle_bool a b) eqn:E; [| reflexivity].
    apply Qle_bool_iff in E. exfalso. exact (Qlt_not_le _ _ H E).
Qed.

Lemma Qgtb_false (a b : Q) : Qgtb a b = false <-> ~ (b < a)%Q.
Proof.
  rewrite <- Qgtb_true. destruct (Qgtb a b); split; congruence.
Qed.

Lemma Zgtb_true (a b : Z) : (a >? b) = true <-> b < a.
Proof. rewrite Z.gtb_ltb. apply Z.ltb_lt. Qed.

(** The classification, read off the three tests of the source. *)
Lemma determineHealthStatus_cases
    (probe_healthy : bool) (m : Layer.IntegrationMetrics) (recentErrors : list LogEntry) :
  let rate := errorRate m in
  let avg := Layer.averageResponseTime m in
  let recent := Z.of_nat (List.length recentErrors) in
  let severe := ((1 # 10) < rate \/ inject_Z 10000 < avg)%Q in
  let mild := ((5 # 100) < rate)%Q \/ (inject_Z 5000 < avg)%Q \/ 3 < recent in
  (probe_healthy = false ->
   determineHealthStatus probe_healthy m recentErrors = unhealthy)
  /\ (probe_healthy = true -> severe ->
      determineHealthStatus probe_healthy m recentErrors = unhealthy)
  /\ (probe_healthy = true -> ~ severe -> mild ->
      determineHealthStatus probe_healthy m recentErrors = degraded)
  /\ (probe_healthy = true -> ~ severe -> ~ mild ->
      determineHealthStatus probe_healthy m recentErrors = healthy).
Proof.
  cbv zeta. unfold determineHealthStatus.
  destruct probe_healthy; simpl negb; cbv iota.
  2: { repeat split; intros; congruence || reflexivity. }
  destruct (Qgtb (errorRate m) (1 # 10)) eqn:E1;
    destruct (Qgtb (Layer.averageResponseTime m) (inject_Z 10000)) eqn:E2;
    destruct (Qgtb (errorRate m) (5 # 100)) eqn:E3;
    destruct (Qgtb (Layer.averageResponseTime m) (inject_Z 5000)) eqn:E4;
    destruct (Z.of_nat (List.length recentErrors) >? 3) eqn:E5;
    simpl orb; cbv iota;
    repeat match goal with
      | H : Qgtb _ _ = true |- _ => apply Qgtb_true in H
      | H : Qgtb _ _ = false |- _ => apply Qgtb_false in H
      | H : (_ >? _) = true |- _ => apply Zgtb_true in H
      | H : (_ >? _) = false |- _ =>
          rewrite Z.gtb_ltb in H; apply Z.ltb_ge in H
      end;
    repeat split; intros; try reflexivity; try discriminate;
    solve [ tauto | exfalso; intuition lia ].
Qed.

(** The recent errors handed to the classification are the newest error
    entries of the service, five at most. *)
Lemma insert_newest_first_length (x : LogEntry) (l : list LogEntry) :
  List.length (insert_newest_first x l) = S (List.length l).
Proof.
  induction l as [|y r IH]; simpl; [reflexivity |].
  destruct (timestamp x <? timestamp y); simpl; congruence.
Qed.

Lemma sort_newest_first_length (l : list LogEntry) :
  List.length (sort_newest_first l) = List.length l.
Proof.
  induction l as [|x r IH]; simpl; [reflexivity |].
  rewrite insert_newest_first_length. congruence.
Qed.

Lemma getRecentErrors_length (name : string) (st : St) :
  List.length (getRecentErrors name 5 st)
  = Nat.min 5
      (List.length
         (filter (fun log => andb (String.eqb (service log) name)
                                  (level_eqb (level log) error))
            (logs st))).
Proof.
  unfold getRecentErrors, Array_slice, slice_index.
  rewrite sort_newest_first_length.
  set (n := List.length (filter _ (logs st))).
  change (0 <? 0) with false; change (5 <? 0) with false; cbv iota.
  rewrite (Z.min_l 0) by lia. rewrite Z.sub_0_r. simpl (Z.to_nat 0). simpl skipn.
  rewrite length_firstn, sort_newest_first_length. fold n.
  lia.
Qed.

(** C7 (amended).  The status follows the order of the tests: an unhealthy
    probe gives unhealthy; otherwise an error rate above 0.10 or an average
    response time above 10000 ms gives unhealthy; otherwise an error rate
    above 0.05, an average above 5000 ms or more than 3 recent errors gives
    degraded; otherwise healthy.  So an error rate of 0.11 gives unhealthy;
    0.06 with an average of 100 gives degraded when the probe is healthy;
    0.01 with an average of 100 and a healthy probe gives healthy when at
    most 3 recent errors are on record. *)
Theorem determineHealthStatus_order :
  forall (probe_healthy : bool) (m : Layer.IntegrationMetrics)
         (recentErrors : list LogEntry),
    let rate := errorRate m in
    let avg := Layer.averageResponseTime m in
    let recent := Z.of_nat (List.length recentErrors) in
    let status := determineHealthStatus probe_healthy m recentErrors in
    let severe := ((1 # 10) < rate \/ inject_Z 10000 < avg)%Q in
    let mild := ((5 # 100) < rate)%Q \/ (inject_Z 5000 < avg)%Q \/ 3 < recent in
    (probe_healthy = false -> status = unhealthy)
    /\ (probe_healthy = true -> severe -> status = unhealthy)
    /\ (probe_healthy = true -> ~ severe -> mild -> status = degraded)
    /\ (probe_healthy = true -> ~ severe -> ~ mild -> status = healthy)
    /\ ((rate == 11 # 100)%Q -> status = unhealthy)
    /\ (probe_healthy = true -> (rate == 6 # 100)%Q -> (avg == inject_Z 100)%Q ->
        status = degraded)
    /\ (probe_healthy = true -> (rate == 1 # 100)%Q -> (avg == inject_Z 100)%Q ->
        recent <= 3 -> status = healthy).
Proof.
  intros probe_healthy m recentErrors.
  pose proof (determineHealthStatus_cases probe_healthy m recentErrors) as H.
  cbv zeta in *. destruct H as (H1 & H2 & H3 & H4).
  repeat split; try assumption.
  - intros Hr. destruct probe_healthy; [| apply H1; reflexivity].
    apply H2; [reflexivity |]. left. rewrite Hr. reflexivity.
  - intros Hp Hr Ha. apply H3; [assumption | |].
    + rewrite Hr, Ha. intros [C | C]; discriminate C.
    + left. rewrite Hr. reflexivity.
  - intros Hp Hr Ha Hn. apply H4; [assumption | |].
    + rewrite Hr, Ha. intros [C | C]; discriminate C.
    + rewrite Hr, Ha. intros [C | [C | C]]; [discriminate C | discriminate C | lia].
Qed.

Lemma determineHealthStatus_order_witness :
  determineHealthStatus false (Sample.metrics_of 100 0 (inject_Z 100)) [] = unhealthy
  /\ determineHealthStatus true (Sample.metrics_of 100 11 (inject_Z 100)) [] = unhealthy
  /\ determineHealthStatus true (Sample.metrics_of 100 6 (inject_Z 100)) [] = degraded
  /\ determineHealthStatus true (Sample.metrics_of 100 1 (inject_Z 100)) [] = healthy.
Proof.
  split; [| split; [| split]].
  - exact (proj1 (determineHealthStatus_order false
                    (Sample.metrics_of 100 0 (inject_Z 100)) []) eq_refl).
  - exact (proj1 (proj2 (proj2 (proj2 (proj2 (determineHealthStatus_order true
                    (Sample.metrics_of 100 11 (inject_Z 100)) [])))))
             (Qeq_refl _)).
  - exact (proj1 (proj2 (proj2 (proj2 (proj2 (proj2 (determineHealthStatus_order true
                    (Sample.metrics_of 100 6 (inject_Z 100)) []))))))
             eq_refl (Qeq_refl _) (Qeq_refl _)).
  - refine (proj2 (proj2 (proj2 (proj2 (proj2 (proj2 (determineHealthStatus_order true
                    (Sample.metrics_of 100 1 (inject_Z 100)) []))))))
             eq_refl (Qeq_refl _) (Qeq_refl _) _).
    simpl. lia.
Defined.

(** C7, the claim as stated fails.  With an error rate of 0.01, an average
    response time of 100 ms and a healthy probe, a service with four error
    entries on record is degraded, not healthy; and with an error rate of
    0.06 and an average of 100 ms, a service whose probe fails is unhealthy,
    not degraded. *)
Lemma health_examples_omit_conditions :
  ((errorRate (Sample.metrics_of 400 4 (inject_Z 100)) == 1 # 100)%Q
   /\ (Layer.averageResponseTime (Sample.metrics_of 400 4 (inject_Z 100))
       == inject_Z 100)%Q
   /\ List.length (getRecentErrors "billing" 5 Sample.four_failures) = 4%nat
   /\ determineHealthStatus true (Sample.metrics_of 400 4 (inject_Z 100))
        (getRecentErrors "billing" 5 Sample.four_failures) = degraded
   /\ degraded <> healthy)
  /\ ((errorRate (Sample.metrics_of 100 6 (inject_Z 100)) == 6 # 100)%Q
      /\ (Layer.averageResponseTime (Sample.metrics_of 100 6 (inject_Z 100))
          == inject_Z 100)%Q
      /\ determineHealthStatus false (Sample.metrics_of 100 6 (inject_Z 100)) []
         = unhealthy
      /\ unhealthy <> degraded).
Proof.
  split.
  - split; [reflexivity | split; [reflexivity | split; [reflexivity | split]]].
    + vm_compute. reflexivity.
    + discriminate.
  - split; [reflexivity | split; [reflexivity | split; [reflexivity |]]].
    discriminate.
Qed.

End Health.

(* ------------------------------------------------------------------ *)
(** * Monitor: the log store *)

Section LogStore.
Import Js Monitor.

(** [slice(-n)] keeps the last [n] elements when [0 < n]. *)
Lemma Array_slice_last {A : Type} (l : list A) (n : Z) :
  0 < n -> n < Z.of_nat (List.length l) ->
  Array_slice l (- n) None = skipn (List.length l - Z.to_nat n) l.
Proof.
  intros Hn Hlen. unfold Array_slice, slice_index.
  replace (- n <? 0) with true by (symmetry; apply Z.ltb_lt; lia).
  rewrite Z.max_l by lia.
  replace (Z.to_nat (Z.of_nat (List.length l) + - n))
    with (List.length l - Z.to_nat n)%nat by lia.
  apply firstn_all2. rewrite length_skipn. lia.
Qed.

(** [slice(-0)] is [slice(0)]: the whole array. *)
Lemma Array_slice_minus_zero {A : Type} (l : list A) :
  Array_slice l (- 0) None = l.
Proof.
  unfold Array_slice, slice_index. simpl (- 0). change (0 <? 0) with false.
  cbv iota. rewrite Z.min_l by lia. rewrite Z.sub_0_r. simpl skipn.
  apply firstn_all2. lia.
Qed.

Lemma filter_length_le {A : Type} (f : A -> bool) (l : list A) :
  (List.length (filter f l) <= List.length l)%nat.
Proof.
  induction l as [|x r IH]; simpl; [lia |].
  destruct (f x); simpl; lia.
Qed.

(** An entry that passes the retention test is newer than the cutoff. *)
Lemma after_date_newer (t ts : Z) : after_date (Date_of t) ts = true -> t < ts.
Proof.
  unfold after_date, Date_of.
  destruct (Z.abs t <=? 8640000000000000); [apply Z.ltb_lt | discriminate].
Qed.

(** What an insert leaves in the store when the cap is at least one: the
    pushed array without its [dropped] oldest entries, filtered by age. *)
Lemma addLogEntry_shape (now : Z) (entry : LogEntry) (st : St) :
  1 <= maxLogEntries (config st) ->
  let pushed := (logs st ++ [entry])%list in
  let dropped := (List.length pushed - Z.to_nat (maxLogEntries (config st)))%nat in
  let cutoff := Date_of (now - retentionPeriod (config st) * 24 * 60 * 60 * 1000) in
  logs (addLogEntry now entry st)
  = filter (fun log => after_date cutoff (timestamp log)) (skipn dropped pushed).
Proof.
  intros Hcap. cbv zeta. unfold addLogEntry. simpl logs.
  destruct (Z.of_nat (List.length (logs st ++ [entry])%list)
              >? maxLogEntries (config st)) eqn:E.
  - apply Zgtb_true in E. rewrite Array_slice_last by lia. reflexivity.
  - rewrite Z.gtb_ltb in E. apply Z.ltb_ge in E.
    replace (List.length (logs st ++ [entry])%list
             - Z.to_nat (maxLogEntries (config st)))%nat with 0%nat by lia.
    reflexivity.
Qed.

(** With a cap of at least one entry the store is bounded by the cap, holds
    nothing at or beyond the retention age, and is the old store plus the
    new entry with some entries removed and none altered. *)
Lemma addLogEntry_bounded (now : Z) (entry : LogEntry) (st : St) :
  1 <= maxLogEntries (config st) ->
  let cutoff := now - retentionPeriod (config st) * 24 * 60 * 60 * 1000 in
  Z.of_nat (List.length (logs (addLogEntry now entry st))) <= maxLogEntries (config st)
  /\ Forall (fun log => cutoff < timestamp log) (logs (addLogEntry now entry st))
  /\ incl (logs (addLogEntry now entry st)) (logs st ++ [entry])%list.
Proof.
  intros Hcap. cbv zeta. rewrite addLogEntry_shape by assumption. cbv zeta.
  set (pushed := (logs st ++ [entry])%list).
  set (dropped := (List.length pushed - Z.to_nat (maxLogEntries (config st)))%nat).
  repeat split.
  - pose proof (filter_length_le
                  (fun log =>
                     after_date
                       (Date_of (now - retentionPeriod (config st) * 24 * 60 * 60 * 1000))
                       (timestamp log)) (skipn dropped pushed)) as H.
    rewrite length_skipn in H. subst dropped. lia.
  - apply Forall_forall. intros x Hx. apply filter_In in Hx.
    destruct Hx as [_ Hx]. apply after_date_newer in Hx. exact Hx.
  - intros x Hx. apply filter_In in Hx. destruct Hx as [Hx _].
    rewrite <- (firstn_skipn dropped pushed). apply in_or_app. right. exact Hx.
Qed.

(** Whatever the cap, nothing older than the retention period survives an
    insert. *)
Lemma addLogEntry_retention (now : Z) (entry : LogEntry) (st : St) :
  Forall (fun log => now - retentionPeriod (config st) * 24 * 60 * 60 * 1000
                     < timestamp log)
    (logs (addLogEntry now entry st)).
Proof.
  unfold addLogEntry. simpl logs. apply Forall_forall. intros x Hx.
  apply filter_In in Hx. destruct Hx as [_ Hx]. apply after_date_newer in Hx.
  exact Hx.
Qed.

(** With a cap of zero the size test sends the array through [slice(-0)],
    which drops nothing. *)
Lemma addLogEntry_zero_cap (now : Z) (entry : LogEntry) (st : St) :
  maxLogEntries (config st) = 0 ->
  logs (addLogEntry now entry st)
  = filter (fun log =>
              after_date
                (Date_of (now - retentionPeriod (config st) * 24 * 60 * 60 * 1000))
                (timestamp log))
      (logs st ++ [entry])%list.
Proof.
  intros Hcap. unfold addLogEntry. simpl logs. rewrite Hcap.
  rewrite Array_slice_minus_zero.
  destruct (Z.of_nat (List.length (logs st ++ [entry])%list) >? 0); reflexivity.
Qed.

(** C9, the code at the failing input: a monitor configured with
    [maxLogEntries = 0] that logs three entries holds three entries. *)
Theorem addLogEntry_zero_cap_overflow :
  let st0 := new_IntegrationMonitor Sample.zero_cap_config in
  let st3 :=
    Sample.log_info 1002 "test" "third"
      (Sample.log_info 1001 "test" "second"
         (Sample.log_info 1000 "test" "first" st0)) in
  maxLogEntries (config st3) = 0
  /\ map message (logs st3) = ["first"; "second"; "third"]
  /\ Z.of_nat (List.length (logs st3)) > maxLogEntries (config st3).
Proof.
  cbv zeta. split; [reflexivity | split; [reflexivity |]].
  vm_compute. reflexivity.
Qed.

End LogStore.

(* ------------------------------------------------------------------ *)
(** * Monitor: the alert cooldown *)

Section AlertCooldown.
Import Js Monitor Spec.

Lemma map_get_set_same {V : Type} (m : JsMap V) (k : string) (v : V) :
  map_get (map_set m k v) k = Some v.
Proof.
  induction m as [|[k' v'] r IH]; simpl.
  - rewrite String.eqb_refl. reflexivity.
  - destruct (String.eqb k' k) eqn:E; simpl; rewrite E; [reflexivity | exact IH].
Qed.

Lemma alerts_of_app (a b : list MonitorEvent) :
  alerts_of (a ++ b) = (alerts_of a ++ alerts_of b)%list.
Proof.
  induction a as [|e r IH]; simpl; [reflexivity |].
  destruct e; simpl; rewrite IH; reflexivity.
Qed.

Lemma shouldLog_error (st : St) : shouldLog error st = true.
Proof.
  unfold shouldLog. destruct (logLevel (config st)); reflexivity.
Qed.

(** An error entry behaves as its [checkAlerts] on the store that has
    taken the entry in. *)
Lemma log_error_unfold (svc : string) (c : LogCall) (st : St) :
  exists entry,
    log_error svc c st
    = checkAlerts (at_time c) svc entry
        (emit (ev_log entry) (addLogEntry (at_time c) entry st)).
Proof.
  unfold log_error, log. rewrite shouldLog_error. simpl negb. cbv iota.
  eexists. reflexivity.
Qed.

Lemma checkAlerts_fires (now : Z) (name : string) (entry : LogEntry) (st : St) :
  enabled (alertConfig (config st)) = true ->
  (forall lastAlert,
      map_get (alertCooldowns st) (name ++ "_error") = Some lastAlert ->
      cooldown (alertConfig (config st)) <= now - lastAlert) ->
  checkAlerts now name entry st
  = set_alertCooldowns (map_set (alertCooldowns st) (name ++ "_error") now)
      (triggerAlert now name "high_error_rate"
         ("High error rate detected in " ++ name) sev_warning st).
Proof.
  intros Hen Hcool. unfold checkAlerts. rewrite Hen. simpl negb. cbv iota zeta.
  destruct (map_get (alertCooldowns st) (name ++ "_error")) as [lastAlert|] eqn:E;
    [| reflexivity].
  specialize (Hcool lastAlert eq_refl).
  replace (now - lastAlert <? cooldown (alertConfig (config st)))
    with false by (symmetry; apply Z.ltb_ge; exact Hcool).
  reflexivity.
Qed.

Lemma checkAlerts_suppressed (now : Z) (name : string) (entry : LogEntry) (st : St)
    (lastAlert : Z) :
  map_get (alertCooldowns st) (name ++ "_error") = Some lastAlert ->
  now - lastAlert < cooldown (alertConfig (config st)) ->
  checkAlerts now name entry st = st.
Proof.
  intros Hlast Hwin. unfold checkAlerts.
  destruct (negb (enabled (alertConfig (config st)))); [reflexivity |].
  cbv zeta. rewrite Hlast.
  replace (now - lastAlert <? cooldown (alertConfig (config st)))
    with true by (symmetry; apply Z.ltb_lt; exact Hwin).
  reflexivity.
Qed.

(** An error entry that finds no alert cooling down raises one alert and
    starts the cooldown at its own time. *)
Lemma log_error_fires (svc : string) (c : LogCall) (st : St) :
  enabled (alertConfig (config st)) = true ->
  not_cooling svc (at_time c) st ->
  alerts_of (emitted (log_error svc c st))
  = (alerts_of (emitted st) ++ [error_alert svc (at_time c)])%list
  /\ map_get (alertCooldowns (log_error svc c st)) (svc ++ "_error")
     = Some (at_time c)
  /\ config (log_error svc c st) = config st.
Proof.
  intros Hen Hcool. destruct (log_error_unfold svc c st) as [entry ->].
  rewrite checkAlerts_fires; [| exact Hen | exact Hcool].
  unfold set_alertCooldowns, triggerAlert, start_delivery, emit, addLogEntry,
    set_logs, error_alert.
  cbn [emitted alertCooldowns config logs healthChecks deliveries].
  rewrite !alerts_of_app. cbn [alerts_of]. rewrite app_nil_r, map_get_set_same.
  repeat split.
Qed.

(** An error entry that arrives while the alert of its service is cooling
    down raises nothing and leaves the cooldown as it is. *)
Lemma log_error_suppressed (svc : string) (c : LogCall) (st : St) (lastAlert : Z) :
  map_get (alertCooldowns st) (svc ++ "_error") = Some lastAlert ->
  at_time c - lastAlert < cooldown (alertConfig (config st)) ->
  alerts_of (emitted (log_error svc c st)) = alerts_of (emitted st)
  /\ alertCooldowns (log_error svc c st) = alertCooldowns st
  /\ deliveries (log_error svc c st) = deliveries st
  /\ config (log_error svc c st) = config st.
Proof.
  intros Hlast Hwin. destruct (log_error_unfold svc c st) as [entry ->].
  rewrite (checkAlerts_suppressed _ _ _ _ lastAlert); [| exact Hlast | exact Hwin].
  unfold emit, addLogEntry, set_logs.
  cbn [emitted alertCooldowns config logs healthChecks deliveries].
  rewrite alerts_of_app. cbn [alerts_of]. rewrite app_nil_r. repeat split.
Qed.

Lemma log_errors_suppressed (svc : string) (cs : list LogCall) :
  forall (st : St) (lastAlert : Z),
    map_get (alertCooldowns st) (svc ++ "_error") = Some lastAlert ->
    Forall (fun c => at_time c - lastAlert
                     < cooldown (alertConfig (config st))) cs ->
    alerts_of (emitted (log_errors svc cs st)) = alerts_of (emitted st)
    /\ alertCooldowns (log_errors svc cs st) = alertCooldowns st
    /\ config (log_errors svc cs st) = config st.
Proof.
  induction cs as [|c cs IH]; intros st lastAlert Hlast Hall.
  - repeat split.
  - inversion Hall as [|? ? Hc Hcs]; subst.
    destruct (log_error_suppressed svc c st lastAlert Hlast Hc)
      as (Ha & Hcd & _ & Hcfg).
    change (log_errors svc (c :: cs) st)
      with (log_errors svc cs (log_error svc c st)).
    destruct (IH (log_error svc c st) lastAlert) as (Ha' & Hcd' & Hcfg').
    + rewrite Hcd. exact Hlast.
    + rewrite Hcfg. exact Hcs.
    + repeat split; congruence.
Qed.

(** C8 (amended).  With alerting enabled and no alert of the service's
    error kind cooling down when the first entry arrives, error-level
    entries of one service that arrive within one cooldown window of the
    first produce exactly one alert event: the first entry raises it and
    records its own time as the cooldown timestamp, and every further one
    is suppressed without a trace. *)
Theorem error_alert_cooldown :
  forall (st : St) (svc : string) (first : LogCall) (further : list LogCall),
    enabled (alertConfig (config st)) = true ->
    not_cooling svc (at_time first) st ->
    Forall (fun c => at_time c - at_time first
                     < cooldown (alertConfig (config st))) further ->
    let st1 := log_error svc first st in
    let st2 := log_errors svc further st1 in
    alerts_of (emitted st1)
    = (alerts_of (emitted st) ++ [error_alert svc (at_time first)])%list
    /\ map_get (alertCooldowns st1) (svc ++ "_error") = Some (at_time first)
    /\ alerts_of (emitted st2) = alerts_of (emitted st1)
    /\ alertCooldowns st2 = alertCooldowns st1.
Proof.
  intros st svc first further Hen Hcool Hall. cbv zeta.
  destruct (log_error_fires svc first st Hen Hcool) as (Ha & Hcd & Hcfg).
  destruct (log_errors_suppressed svc further (log_error svc first st)
              (at_time first) Hcd) as (Ha' & Hcd' & _).
  - rewrite Hcfg. exact Hall.
  - repeat split; assumption.
Qed.

Lemma error_alert_cooldown_witness :
  let st := new_IntegrationMonitor Sample.monitoringConfig in
  let st1 := log_error "billing" (Sample.failure_at 1000) st in
  let st2 := log_errors "billing" [Sample.failure_at 2000] st1 in
  enabled (alertConfig (config st)) = true
  /\ not_cooling "billing" 1000 st
  /\ 2000 - 1000 < cooldown (alertConfig (config st))
  /\ alerts_of (emitted st1) = [error_alert "billing" 1000]
  /\ alerts_of (emitted st2) = alerts_of (emitted st1).
Proof.
  cbv zeta.
  assert (Hcool : not_cooling "billing" 1000
                    (new_IntegrationMonitor Sample.monitoringConfig)).
  { intros lastAlert H. discriminate H. }
  assert (Hwin : Forall
                   (fun c => at_time c - at_time (Sample.failure_at 1000)
                             < cooldown (alertConfig (config
                                 (new_IntegrationMonitor Sample.monitoringConfig))))
                   [Sample.failure_at 2000]).
  { constructor; [reflexivity | constructor]. }
  destruct (error_alert_cooldown (new_IntegrationMonitor Sample.monitoringConfig)
              "billing" (Sample.failure_at 1000) [Sample.failure_at 2000]
              eq_refl Hcool Hwin)
    as (H1 & _ & H3 & _).
  split; [reflexivity | split; [exact Hcool | split; [reflexivity | split]]].
  - exact H1.
  - exact H3.
Defined.

(** C8, the claim as stated fails.  With alerting disabled in the
    configuration, two error entries of one service within the cooldown
    window produce no alert event at all; and with alerting enabled, two
    error entries that arrive while an earlier alert of the service is
    cooling down produce none either. *)
Lemma error_entries_without_alert :
  (let st := new_IntegrationMonitor Sample.alerts_off_config in
   let st2 :=
     log_error "billing" (Sample.failure_at 2000)
       (log_error "billing" (Sample.failure_at 1000) st) in
   2000 - 1000 < cooldown (alertConfig (config st))
   /\ List.length (logs st2) = 2%nat
   /\ alerts_of (emitted st2) = []
   /\ List.length (alerts_of (emitted st2)) <> 1%nat)
  /\ (let st1 :=
        log_error "billing" (Sample.failure_at 1000)
          (new_IntegrationMonitor Sample.monitoringConfig) in
      let st3 :=
        log_error "billing" (Sample.failure_at 3000)
          (log_error "billing" (Sample.failure_at 2000) st1) in
      enabled (alertConfig (config st1)) = true
      /\ 3000 - 2000 < cooldown (alertConfig (config st1))
      /\ List.length (logs st3) = (List.length (logs st1) + 2)%nat
      /\ alerts_of (emitted st3) = alerts_of (emitted st1)).
Proof.
  cbv zeta. split.
  - split; [reflexivity | split; [reflexivity | split; [reflexivity |]]].
    discriminate.
  - split; [reflexivity | split; [reflexivity | split; reflexivity]].
Qed.

End AlertCooldown.

(* ------------------------------------------------------------------ *)
(** * Integration layer: reading the cache *)

Section CacheRead.
Import Js Layer.

Lemma map_get_set_other {V : Type} (m : JsMap V) (k k' : string) (v : V) :
  k <> k' -> map_get (map_set m k v) k' = map_get m k'.
Proof.
  intros Hne. induction m as [|[k0 v0] r IH]; simpl.
  - destruct (String.eqb_spec k k'); [contradiction | reflexivity].
  - destruct (String.eqb_spec k0 k) as [-> | H0]; simpl.
    + destruct (String.eqb_spec k k'); [contradiction | reflexivity].
    + destruct (String.eqb k0 k'); [reflexivity | exact IH].
Qed.

Lemma map_get_absent {V : Type} (m : JsMap V) (k : string) :
  ~ In k (map_keys m) -> map_get m k = None.
Proof.
  induction m as [|[k0 v0] r IH]; simpl; intros H; [reflexivity |].
  destruct (String.eqb_spec k0 k) as [-> | Hne].
  - exfalso. apply H. left. reflexivity.
  - apply IH. intros Hin. apply H. right. exact Hin.
Qed.

Lemma map_get_present {V : Type} (m : JsMap V) (k : string) (v : V) :
  map_get m k = Some v -> In (k, v) m.
Proof.
  induction m as [|[k0 v0] r IH]; simpl; intros H; [discriminate |].
  destruct (String.eqb_spec k0 k) as [-> | Hne].
  - injection H as ->. left. reflexivity.
  - right. apply IH. exact H.
Qed.

Lemma map_get_delete_same {V : Type} (m : JsMap V) (k : string) :
  NoDup (map_keys m) -> map_get (map_delete m k) k = None.
Proof.
  induction m as [|[k0 v0] r IH]; simpl; intros Hnd; [reflexivity |].
  inversion Hnd as [|? ? Hnotin Hnd']; subst.
  destruct (String.eqb_spec k0 k) as [-> | Hne].
  - apply map_get_absent. exact Hnotin.
  - simpl. destruct (String.eqb_spec k0 k); [contradiction | apply IH; exact Hnd'].
Qed.

(** A read of a present entry that has not outlived [ttl] returns the
    stored value and counts one more access. *)
Lemma getFromCache_fresh (key : string) (st : St) (item : CacheItem) :
  map_get (cache st) key = Some item ->
  clock st - timestamp item <= ttl (cacheConfig st) ->
  getFromCache key st
  = (item_data item, set_cache (map_set (cache st) key (hit item)) st).
Proof.
  intros Hget Hage. unfold getFromCache. rewrite Hget.
  replace (ttl (cacheConfig st) <? clock st - timestamp item) with false
    by (symmetry; apply Z.ltb_ge; exact Hage).
  reflexivity.
Qed.

(** A read of an entry older than [ttl] returns [null] and deletes it. *)
Lemma getFromCache_expired (key : string) (st : St) (item : CacheItem) :
  map_get (cache st) key = Some item ->
  ttl (cacheConfig st) < clock st - timestamp item ->
  getFromCache key st = (JNull, set_cache (map_delete (cache st) key) st)
  /\ (NoDup (map_keys (cache st)) ->
      map_get (cache (snd (getFromCache key st))) key = None).
Proof.
  intros Hget Hage. unfold getFromCache. rewrite Hget.
  replace (ttl (cacheConfig st) <? clock st - timestamp item) with true
    by (symmetry; apply Z.ltb_lt; exact Hage).
  split; [reflexivity |]. intros Hnd. simpl. apply map_get_delete_same. exact Hnd.
Qed.

Lemma generateCacheKey_pure (cfg : AxiosRequestConfig) (st st' : St) :
  fst (generateCacheKey cfg st) = fst (generateCacheKey cfg st')
  /\ snd (generateCacheKey cfg st) = st.
Proof.
  unfold generateCacheKey.
  destruct (JSON_serialize _) as [e | [s |]]; split; reflexivity.
Qed.

(** The early return of [request]: a cacheable call whose entry is present,
    not expired and truthy resolves from the cache, and of the whole state
    only the access count of the entry and [cacheHits] change. *)
Lemma request_cache_hit (cfg : AxiosRequestConfig) (st : St) (key : string)
    (item : CacheItem) :
  enabled (cacheConfig st) = true ->
  is_get cfg = true ->
  fst (generateCacheKey cfg st) = Return key ->
  map_get (cache st) key = Some item ->
  clock st - timestamp item <= ttl (cacheConfig st) ->
  truthy (item_data item) = true ->
  request cfg st
  = (Return {| success := true; data := Some (item_data item); error := None;
               statusCode := None; responseTime := Some (clock st - clock st);
               cached := Some true |},
     set_metrics (inc_cacheHits (metrics st))
       (set_cache (map_set (cache st) key (hit item)) st)).
Proof.
  intros Hen Hget Hkey Hitem Hage Htruthy.
  unfold request, bind, Date_now, tryCatch.
  destruct (generateCacheKey_pure cfg st st) as [_ Hst].
  destruct (generateCacheKey cfg st) as [res st0] eqn:E.
  simpl in Hkey, Hst. subst res st0.
  unfold checkCache, cacheable. rewrite Hen, Hget. simpl andb. cbv iota.
  rewrite (getFromCache_fresh key st item Hitem Hage).
  rewrite Htruthy. reflexivity.
Qed.

Lemma evictFromCache_frame (st : St) :
  clock (evictFromCache st) = clock st
  /\ cacheConfig (evictFromCache st) = cacheConfig st.
Proof.
  unfold evictFromCache, evictLRU, evictFIFO, evictLFU.
  destruct (strategy (cacheConfig st)).
  - destruct (truthy _); split; reflexivity.
  - destruct (cache st) as [|[k it] r]; [split; reflexivity |].
    destruct (truthy _); split; reflexivity.
  - destruct (truthy _); split; reflexivity.
Qed.

(** What [setCache] leaves under the key. *)
Lemma setCache_stores (key : string) (value : JsValue) (st : St) :
  map_get (cache (setCache key value st)) key
  = Some {| item_data := value; timestamp := clock st; hits := 0 |}
  /\ clock (setCache key value st) = clock st
  /\ cacheConfig (setCache key value st) = cacheConfig st.
Proof.
  unfold setCache.
  destruct (map_size (cache st) >=? maxSize (cacheConfig st));
    cbn [cache set_cache clock cacheConfig];
    rewrite map_get_set_same;
    try (destruct (evictFromCache_frame st) as [-> ->]);
    repeat split.
Qed.

(** A truthy value stored under the key of a GET and asked for again while
    it is no older than [ttl] is answered from the cache, unchanged. *)
Lemma request_after_setCache (cfg : AxiosRequestConfig) (st : St) (key : string)
    (value : JsValue) (later : Z) :
  enabled (cacheConfig st) = true ->
  is_get cfg = true ->
  fst (generateCacheKey cfg st) = Return key ->
  truthy value = true ->
  later - clock st <= ttl (cacheConfig st) ->
  fst (request cfg (set_clock later (setCache key value st)))
  = Return {| success := true; data := Some value; error := None;
              statusCode := None; responseTime := Some (later - later);
              cached := Some true |}.
Proof.
  intros Hen Hget Hkey Htruthy Hage.
  destruct (setCache_stores key value st) as (Hitem & Hclock & Hcc).
  rewrite (request_cache_hit cfg (set_clock later (setCache key value st)) key
             {| item_data := value; timestamp := clock st; hits := 0 |}).
  - reflexivity.
  - cbn [cacheConfig set_clock]. rewrite Hcc. exact Hen.
  - exact Hget.
  - destruct (generateCacheKey_pure cfg (set_clock later (setCache key value st)) st)
      as [-> _]. exact Hkey.
  - exact Hitem.
  - cbn [cacheConfig set_clock clock timestamp]. rewrite Hcc. exact Hage.
  - exact Htruthy.
Qed.

(** The same entry holding a falsy value: the call goes on as after a miss. *)
Lemma checkCache_falsy (cfg : AxiosRequestConfig) (st : St) (key : string)
    (item : CacheItem) (startTime : Z) :
  enabled (cacheConfig st) = true ->
  is_get cfg = true ->
  map_get (cache st) key = Some item ->
  clock st - timestamp item <= ttl (cacheConfig st) ->
  truthy (item_data item) = false ->
  checkCache cfg key startTime st
  = (Return None,
     set_metrics
       (inc_cacheMisses (metrics st))
       (set_cache (map_set (cache st) key (hit item)) st)).
Proof.
  intros Hen Hget Hitem Hage Hfalsy.
  unfold checkCache, cacheable. rewrite Hen, Hget. simpl andb. cbv iota.
  rewrite (getFromCache_fresh key st item Hitem Hage).
  rewrite Hfalsy. reflexivity.
Qed.

(** C4, the code at the failing input.  A GET whose response, the empty
    string, has been stored in the cache is issued again at once: the entry
    is there and fresh, yet the second call is not answered from the cache
    but sent to the network a second time. *)
Theorem cached_empty_body_is_fetched_again :
  let first := get "/status" no_options in
  let st1 := Sample.after first Sample.empty_body_layer in
  let second := get "/status" no_options in
  map (fun entry => (item_data (snd entry), timestamp (snd entry))) (cache st1)
    = [(JString EmptyString, 1000)]
  /\ clock st1 - 1000 <= ttl (cacheConfig st1)
  /\ Sample.outcome second st1
     = Return {| success := true; data := Some (JString EmptyString); error := None;
                 statusCode := Some 200; responseTime := Some 0;
                 cached := None |}
  /\ http_calls st1 = 1%nat
  /\ http_calls (Sample.after second st1) = 2%nat.
Proof.
  cbv zeta. vm_compute. repeat split; discriminate.
Qed.

(** C10, the code at the failing input.  A GET whose cache entry is present
    and not expired, holding the JSON value [0]: the call returns a result
    with a status code and without [cached], counts a cache miss instead of
    a hit, passes the rate limiter and makes an HTTP attempt. *)
Theorem cache_hit_on_zero_counts_as_miss :
  let st1 := Sample.after (get "/count" no_options) Sample.zero_body_layer in
  let second := get "/count" no_options in
  let st2 := Sample.after second st1 in
  map (fun entry => (item_data (snd entry), timestamp (snd entry))) (cache st1)
    = [(JNumber 0, 1000)]
  /\ clock st1 - 1000 <= ttl (cacheConfig st1)
  /\ Sample.outcome second st1
     = Return {| success := true; data := Some (JNumber 0); error := None;
                 statusCode := Some 200; responseTime := Some 0;
                 cached := None |}
  /\ cacheHits (metrics st2) = cacheHits (metrics st1)
  /\ cacheMisses (metrics st2) = cacheMisses (metrics st1) + 1
  /\ totalRequests (metrics st2) = totalRequests (metrics st1) + 1
  /\ successfulRequests (metrics st2) = successfulRequests (metrics st1) + 1
  /\ List.length (trace st2) = (List.length (trace st1) + 2)%nat.
Proof.
  cbv zeta. vm_compute. repeat split; discriminate.
Qed.

End CacheRead.

(* ------------------------------------------------------------------ *)
(** * Integration layer: filling the cache and evicting from it *)

Section CacheEviction.
Import Js Layer Spec.

Lemma map_set_absent {V : Type} (m : JsMap V) (k : string) (v : V) :
  ~ In k (map_keys m) -> map_set m k v = (m ++ [(k, v)])%list.
Proof.
  induction m as [|[k0 v0] r IH]; simpl; intros H; [reflexivity |].
  destruct (String.eqb_spec k0 k) as [-> | Hne].
  - exfalso. apply H. left. reflexivity.
  - f_equal. apply IH. intros Hin. apply H. right. exact Hin.
Qed.

Lemma map_delete_length {V : Type} (m : JsMap V) (k : string) :
  In k (map_keys m) -> S (List.length (map_delete m k)) = List.length m.
Proof.
  induction m as [|[k0 v0] r IH]; simpl; intros H; [contradiction |].
  destruct (String.eqb_spec k0 k) as [-> | Hne]; [reflexivity |].
  simpl. f_equal. apply IH. destruct H as [H | H]; [contradiction | exact H].
Qed.

Lemma map_delete_keys {V : Type} (m : JsMap V) (k k' : string) :
  In k' (map_keys (map_delete m k)) -> In k' (map_keys m).
Proof.
  induction m as [|[k0 v0] r IH]; simpl; intros H; [contradiction |].
  destruct (String.eqb_spec k0 k) as [-> | Hne].
  - right. exact H.
  - destruct H as [H | H]; [left; exact H | right; apply IH; exact H].
Qed.

Lemma in_map_keys {V : Type} (m : JsMap V) (k : string) (v : V) :
  In (k, v) m -> In k (map_keys m).
Proof. intros H. apply (in_map fst) in H. exact H. Qed.

(** [lru_scan] returns the key it was given when no entry is older than
    [oldestTime], and otherwise the key of an entry of least timestamp. *)
Lemma lru_scan_spec (entries : JsMap CacheItem) :
  forall (oldestKey : string) (oldestTime : Z),
    (lru_scan entries oldestKey oldestTime = oldestKey
     /\ forall k it, In (k, it) entries -> oldestTime <= timestamp it)
    \/ (exists it,
           In (lru_scan entries oldestKey oldestTime, it) entries
           /\ timestamp it < oldestTime
           /\ forall k' it', In (k', it') entries -> timestamp it <= timestamp it').
Proof.
  induction entries as [|[key item] r IH]; intros oldestKey oldestTime; simpl.
  - left. split; [reflexivity | intros k it []].
  - destruct (timestamp item <? oldestTime) eqn:E.
    + apply Z.ltb_lt in E.
      destruct (IH key (timestamp item)) as [[Hk Hall] | (it & Hin & Hlt & Hmin)].
      * right. exists item. rewrite Hk. repeat split.
        -- left. reflexivity.
        -- exact E.
        -- intros k' it' [Heq | Hin]; [injection Heq as _ <-; lia |].
           apply (Hall k' it' Hin).
      * right. exists it. repeat split.
        -- right. exact Hin.
        -- lia.
        -- intros k' it' [Heq | Hin']; [injection Heq as _ <-; lia |].
           apply (Hmin k' it' Hin').
    + apply Z.ltb_ge in E.
      destruct (IH oldestKey oldestTime) as [[Hk Hall] | (it & Hin & Hlt & Hmin)].
      * left. split; [exact Hk |].
        intros k it [Heq | Hin]; [injection Heq as _ <-; exact E |].
        apply (Hall k it Hin).
      * right. exists it. repeat split.
        -- right. exact Hin.
        -- exact Hlt.
        -- intros k' it' [Heq | Hin']; [injection Heq as _ <-; lia |].
           apply (Hmin k' it' Hin').
Qed.

(** [lfu_scan] likewise, for the access counts. *)
Lemma lfu_scan_spec (entries : JsMap CacheItem) :
  forall (leastUsedKey : string) (leastHits : ExtNum),
    (lfu_scan entries leastUsedKey leastHits = leastUsedKey
     /\ forall k it, In (k, it) entries -> ext_ltb (hits it) leastHits = false)
    \/ (exists it,
           In (lfu_scan entries leastUsedKey leastHits, it) entries
           /\ ext_ltb (hits it) leastHits = true
           /\ forall k' it', In (k', it') entries -> hits it <= hits it').
Proof.
  induction entries as [|[key item] r IH]; intros leastUsedKey leastHits; simpl.
  - left. split; [reflexivity | intros k it []].
  - destruct (ext_ltb (hits item) leastHits) eqn:E.
    + destruct (IH key (Fin (hits item))) as [[Hk Hall] | (it & Hin & Hlt & Hmin)].
      * right. exists item. rewrite Hk. repeat split.
        -- left. reflexivity.
        -- exact E.
        -- intros k' it' [Heq | Hin]; [injection Heq as _ <-; lia |].
           specialize (Hall k' it' Hin). unfold ext_ltb, ext_gtb in Hall.
           apply Z.ltb_ge in Hall. exact Hall.
      * unfold ext_ltb, ext_gtb in Hlt. apply Z.ltb_lt in Hlt.
        right. exists it. repeat split.
        -- right. exact Hin.
        -- unfold ext_ltb, ext_gtb in *. destruct leastHits; [| reflexivity].
           apply Z.ltb_lt in E. apply Z.ltb_lt. lia.
        -- intros k' it' [Heq | Hin']; [injection Heq as _ <-; lia |].
           apply (Hmin k' it' Hin').
    + destruct (IH leastUsedKey leastHits) as [[Hk Hall] | (it & Hin & Hlt & Hmin)].
      * left. split; [exact Hk |].
        intros k it [Heq | Hin]; [injection Heq as _ <-; exact E |].
        apply (Hall k it Hin).
      * right. exists it. repeat split.
        -- right. exact Hin.
        -- exact Hlt.
        -- intros k' it' [Heq | Hin']; [| apply (Hmin k' it' Hin')].
           injection Heq as _ <-.
           unfold ext_ltb, ext_gtb in *. destruct leastHits; [| discriminate].
           apply Z.ltb_ge in E. apply Z.ltb_lt in Hlt. lia.
Qed.

Lemma truthy_key (k : string) : k <> EmptyString -> truthy (JString k) = true.
Proof.
  intros H. simpl. destruct (String.eqb_spec k EmptyString); [contradiction | reflexivity].
Qed.

Lemma well_keyed_in (c : JsMap CacheItem) (k : string) (it : CacheItem) :
  well_keyed c -> In (k, it) c -> k <> EmptyString.
Proof.
  intros [_ Hne] Hin. rewrite Forall_forall in Hne.
  apply Hne. apply (in_map_keys c k it Hin).
Qed.

(** Below capacity [setCache] evicts nothing: the new key goes last. *)
Lemma setCache_below_capacity (key : string) (value : JsValue) (st : St) :
  map_size (cache st) < maxSize (cacheConfig st) ->
  ~ In key (map_keys (cache st)) ->
  cache (setCache key value st) = (cache st ++ [(key, new_item value st)])%list.
Proof.
  intros Hsize Hfresh. unfold setCache.
  replace (map_size (cache st) >=? maxSize (cacheConfig st)) with false
    by (symmetry; rewrite Z.geb_leb; apply Z.leb_gt; exact Hsize).
  simpl. apply map_set_absent. exact Hfresh.
Qed.

(** What an insert into a full cache does once the scan has picked
    [victim]. *)
Lemma insert_after_eviction (c : JsMap CacheItem) (victim key : string)
    (item : CacheItem) :
  In victim (map_keys c) ->
  ~ In key (map_keys c) ->
  map_set (map_delete c victim) key item = (map_delete c victim ++ [(key, item)])%list
  /\ List.length (map_set (map_delete c victim) key item) = List.length c.
Proof.
  intros Hv Hfresh.
  assert (H : map_set (map_delete c victim) key item
              = (map_delete c victim ++ [(key, item)])%list).
  { apply map_set_absent. intros Hin. apply Hfresh.
    apply (map_delete_keys c victim key Hin). }
  split; [exact H |].
  rewrite H, length_app. simpl. pose proof (map_delete_length c victim Hv). lia.
Qed.

(** FIFO: the insert into a full cache removes the entry inserted first. *)
Lemma setCache_fifo_evicts_first (key : string) (value : JsValue) (st : St)
    (firstKey : string) (firstItem : CacheItem) (rest : JsMap CacheItem) :
  strategy (cacheConfig st) = fifo ->
  cache st = (firstKey, firstItem) :: rest ->
  map_size (cache st) = maxSize (cacheConfig st) ->
  well_keyed (cache st) ->
  ~ In key (map_keys (cache st)) ->
  cache (setCache key value st) = (rest ++ [(key, new_item value st)])%list
  /\ map_size (cache (setCache key value st)) = maxSize (cacheConfig st).
Proof.
  intros Hs Hc Hsize Hwk Hfresh. unfold setCache.
  replace (map_size (cache st) >=? maxSize (cacheConfig st)) with true
    by (symmetry; rewrite Z.geb_leb; apply Z.leb_le; lia).
  unfold evictFromCache. rewrite Hs. unfold evictFIFO. rewrite Hc.
  rewrite truthy_key
    by (apply (well_keyed_in (cache st) firstKey firstItem Hwk);
        rewrite Hc; left; reflexivity).
  cbn [cache set_cache clock]. simpl map_delete. rewrite String.eqb_refl.
  rewrite Hc in Hfresh. simpl in Hfresh.
  rewrite map_set_absent by tauto.
  split; [reflexivity |].
  rewrite <- Hsize, Hc. unfold map_size. rewrite length_app. simpl. lia.
Qed.

(** LFU: the insert into a full, non-empty cache removes an entry whose
    access count no other entry undercuts. *)
Lemma setCache_lfu_evicts_least_used (key : string) (value : JsValue) (st : St) :
  strategy (cacheConfig st) = lfu ->
  map_size (cache st) = maxSize (cacheConfig st) ->
  1 <= maxSize (cacheConfig st) ->
  well_keyed (cache st) ->
  ~ In key (map_keys (cache st)) ->
  exists victim item,
    In (victim, item) (cache st)
    /\ (forall k it, In (k, it) (cache st) -> hits item <= hits it)
    /\ cache (setCache key value st)
       = (map_delete (cache st) victim ++ [(key, new_item value st)])%list
    /\ map_size (cache (setCache key value st)) = maxSize (cacheConfig st).
Proof.
  intros Hs Hsize Hcap Hwk Hfresh. unfold setCache.
  replace (map_size (cache st) >=? maxSize (cacheConfig st)) with true
    by (symmetry; rewrite Z.geb_leb; apply Z.leb_le; lia).
  unfold evictFromCache. rewrite Hs. unfold evictLFU.
  destruct (lfu_scan_spec (cache st) EmptyString PosInf) as [[_ Hall] | (it & Hin & _ & Hmin)].
  - exfalso. destruct (cache st) as [|[k0 it0] r] eqn:Hc.
    + unfold map_size in Hsize. simpl in Hsize. lia.
    + specialize (Hall k0 it0 (or_introl eq_refl)). discriminate Hall.
  - exists (lfu_scan (cache st) EmptyString PosInf), it.
    rewrite (truthy_key _ (well_keyed_in _ _ _ Hwk Hin)).
    cbn [cache set_cache clock].
    destruct (insert_after_eviction (cache st) (lfu_scan (cache st) EmptyString PosInf) key
                (new_item value st) (in_map_keys _ _ _ Hin) Hfresh) as [Heq Hlen].
    repeat split; try assumption.
    unfold map_size. unfold new_item in Hlen. rewrite Hlen. exact Hsize.
Qed.

(** LRU: the insert into a full cache removes an entry of least timestamp,
    provided some entry was written before the current millisecond. *)
Lemma setCache_lru_evicts_oldest (key : string) (value : JsValue) (st : St) :
  strategy (cacheConfig st) = lru ->
  map_size (cache st) = maxSize (cacheConfig st) ->
  well_keyed (cache st) ->
  ~ In key (map_keys (cache st)) ->
  (exists k it, In (k, it) (cache st) /\ timestamp it < clock st) ->
  exists victim item,
    In (victim, item) (cache st)
    /\ (forall k it, In (k, it) (cache st) -> timestamp item <= timestamp it)
    /\ cache (setCache key value st)
       = (map_delete (cache st) victim ++ [(key, new_item value st)])%list
    /\ map_size (cache (setCache key value st)) = maxSize (cacheConfig st).
Proof.
  intros Hs Hsize Hwk Hfresh (k0 & it0 & Hin0 & Hold). unfold setCache.
  replace (map_size (cache st) >=? maxSize (cacheConfig st)) with true
    by (symmetry; rewrite Z.geb_leb; apply Z.leb_le; lia).
  unfold evictFromCache. rewrite Hs. unfold evictLRU.
  destruct (lru_scan_spec (cache st) EmptyString (clock st))
    as [[_ Hall] | (it & Hin & _ & Hmin)].
  - exfalso. specialize (Hall k0 it0 Hin0). lia.
  - exists (lru_scan (cache st) EmptyString (clock st)), it.
    rewrite (truthy_key _ (well_keyed_in _ _ _ Hwk Hin)).
    cbn [cache set_cache clock].
    destruct (insert_after_eviction (cache st) (lru_scan (cache st) EmptyString (clock st)) key
                (new_item value st) (in_map_keys _ _ _ Hin) Hfresh) as [Heq Hlen].
    repeat split; try assumption.
    unfold map_size. unfold new_item in Hlen. rewrite Hlen. exact Hsize.
Qed.

(** LRU when every entry carries the current millisecond: the scan starts
    from [Date.now()] with a strict comparison, selects nothing, and the
    insert grows the cache. *)
Lemma setCache_lru_same_millisecond (key : string) (value : JsValue) (st : St) :
  strategy (cacheConfig st) = lru ->
  map_size (cache st) >= maxSize (cacheConfig st) ->
  (forall k it, In (k, it) (cache st) -> timestamp it = clock st) ->
  ~ In key (map_keys (cache st)) ->
  cache (setCache key value st) = (cache st ++ [(key, new_item value st)])%list.
Proof.
  intros Hs Hsize Hsame Hfresh. unfold setCache.
  replace (map_size (cache st) >=? maxSize (cacheConfig st)) with true
    by (symmetry; rewrite Z.geb_leb; apply Z.leb_le; lia).
  unfold evictFromCache. rewrite Hs. unfold evictLRU.
  destruct (lru_scan_spec (cache st) EmptyString (clock st))
    as [[Hk _] | (it & Hin & Hlt & _)].
  - rewrite Hk. simpl truthy. cbv iota. apply map_set_absent. exact Hfresh.
  - exfalso. specialize (Hsame _ _ Hin). lia.
Qed.

(** C5, the code at the failing input.  With the LRU strategy and
    [maxSize = 1], two GETs of distinct URLs answered within the same
    millisecond leave two entries in the cache: nothing is evicted.  Under
    FIFO and LFU the same calls leave one entry, the second. *)
Theorem lru_same_millisecond_overflows :
  let two_gets (s : Strategy) :=
    Sample.after (get "/b" no_options)
      (Sample.after (get "/a" no_options) (Sample.one_slot_layer s)) in
  maxSize (cacheConfig (two_gets lru)) = 1
  /\ map (fun entry => timestamp (snd entry)) (cache (two_gets lru)) = [1000; 1000]
  /\ map_size (cache (two_gets lru)) = 2
  /\ map_size (cache (two_gets fifo)) = 1
  /\ map_size (cache (two_gets lfu)) = 1
  /\ map_keys (cache (two_gets fifo)) = map_keys (cache (two_gets lfu))
  /\ (forall k, In k (map_keys (cache (two_gets fifo))) ->
                In k (map_keys (cache (two_gets lru)))).
Proof.
  cbv zeta. vm_compute. repeat split; try discriminate.
  intros k [<- | []]. right. left. reflexivity.
Qed.

End CacheEviction.

(* ------------------------------------------------------------------ *)
(** * Integration layer: the sliding-window rate limiter *)

Section RateLimiter.
Import Js Layer Spec.

(** The state in which an admission ends, by the branch it took. *)
Lemma checkRateLimit_step (st : St) :
  let now := clock st in
  let waitTime :=
    ext_add (Math_min (pruned st)) (windowMs (rateLimitConfig st) - now) in
  let counted := set_metrics (inc_rateLimitHits (metrics st)) st in
  let resumed :=
    if Z.of_nat (List.length (pruned st)) >=? maxRequests (rateLimitConfig st)
    then if ext_gtb waitTime 0
         then set_clock (now + timer_ms waitTime) (perform (Delay waitTime) counted)
         else counted
    else st in
  checkRateLimit st
  = (Return tt,
     set_rateLimitTracker
       (map_set (rateLimitTracker st) (baseURL (config st))
          (pruned st ++ [now])%list)
       resumed).
Proof.
  cbv zeta. unfold checkRateLimit, pruned, window, bind, run, ret, delay.
  destruct (Z.of_nat (List.length _) >=? maxRequests (rateLimitConfig st));
    [| reflexivity].
  cbn [metrics set_metrics rateLimitConfig config clock rateLimitTracker].
  destruct (ext_gtb _ 0); reflexivity.
Qed.

Lemma Math_min_least (l : list Z) :
  l <> [] ->
  exists m, Math_min l = Fin m /\ In m l /\ forall t, In t l -> m <= t.
Proof.
  induction l as [|x r IH]; intros Hne; [congruence |].
  destruct r as [|y r'].
  - exists x. simpl. repeat split; [left; reflexivity |].
    intros t [<- | []]. lia.
  - destruct IH as (m & Hm & Hin & Hmin); [discriminate |].
    change (Math_min (x :: y :: r'))
      with (match Math_min (y :: r') with
            | PosInf => Fin x
            | Fin m => Fin (Z.min x m)
            end).
    rewrite Hm. exists (Z.min x m). repeat split.
    + destruct (Z.min_spec x m) as [[_ ->] | [_ ->]];
        [left; reflexivity | right; exact Hin].
    + intros t [<- | Ht]; [lia |]. specialize (Hmin t Ht). lia.
Qed.

Lemma least_unique (l : list Z) (a b : Z) :
  In a l -> (forall t, In t l -> a <= t) ->
  In b l -> (forall t, In t l -> b <= t) -> a = b.
Proof.
  intros Ha Hamin Hb Hbmin. specialize (Hamin b Hb). specialize (Hbmin a Ha). lia.
Qed.

Lemma filter_all {A : Type} (f : A -> bool) (l : list A) :
  Forall (fun x => f x = true) l -> filter f l = l.
Proof.
  induction 1 as [|x r Hx _ IH]; simpl; [reflexivity |].
  rewrite Hx, IH. reflexivity.
Qed.

(** The window after an admission, and the other fields the limiter reads. *)
Lemma checkRateLimit_frame (st : St) :
  window (snd (checkRateLimit st)) = (pruned st ++ [clock st])%list
  /\ config (snd (checkRateLimit st)) = config st
  /\ rateLimitConfig (snd (checkRateLimit st)) = rateLimitConfig st
  /\ cacheConfig (snd (checkRateLimit st)) = cacheConfig st
  /\ cache (snd (checkRateLimit st)) = cache st
  /\ webhooks (snd (checkRateLimit st)) = webhooks st
  /\ http (snd (checkRateLimit st)) = http st
  /\ http_calls (snd (checkRateLimit st)) = http_calls st.
Proof.
  rewrite checkRateLimit_step. cbv zeta. unfold window.
  destruct (Z.of_nat (List.length (pruned st)) >=? maxRequests (rateLimitConfig st));
    [destruct (ext_gtb _ 0) |];
    cbn [snd config rateLimitTracker set_rateLimitTracker set_clock perform
         set_metrics rateLimitConfig cacheConfig cache webhooks http http_calls];
    rewrite map_get_set_same; repeat split.
Qed.

(** The delay of an admission, by the number of timestamps left in the
    window. *)
Lemma checkRateLimit_below (st : St) :
  Z.of_nat (List.length (pruned st)) < maxRequests (rateLimitConfig st) ->
  trace (snd (checkRateLimit st)) = trace st
  /\ clock (snd (checkRateLimit st)) = clock st
  /\ metrics (snd (checkRateLimit st)) = metrics st.
Proof.
  intros H. rewrite checkRateLimit_step. cbv zeta.
  replace (Z.of_nat (List.length (pruned st)) >=? maxRequests (rateLimitConfig st))
    with false by (symmetry; rewrite Z.geb_leb; apply Z.leb_gt; exact H).
  repeat split.
Qed.

Lemma pruned_in (st : St) (t : Z) :
  In t (pruned st)
  <-> In t (window st) /\ clock st - windowMs (rateLimitConfig st) < t.
Proof.
  unfold pruned. rewrite filter_In, Z.ltb_lt. reflexivity.
Qed.

Lemma checkRateLimit_waits (st : St) (oldest : Z) :
  maxRequests (rateLimitConfig st) <= Z.of_nat (List.length (pruned st)) ->
  In oldest (pruned st) ->
  (forall t, In t (pruned st) -> oldest <= t) ->
  let waitTime := oldest + windowMs (rateLimitConfig st) - clock st in
  0 < waitTime
  /\ trace (snd (checkRateLimit st)) = (trace st ++ [Delay (Fin waitTime)])%list
  /\ clock (snd (checkRateLimit st)) = clock st + timer_ms (Fin waitTime)
  /\ metrics (snd (checkRateLimit st)) = inc_rateLimitHits (metrics st).
Proof.
  intros Hfull Hin Hmin. cbv zeta.
  assert (Hpos : 0 < oldest + windowMs (rateLimitConfig st) - clock st).
  { apply pruned_in in Hin. lia. }
  split; [exact Hpos |].
  rewrite checkRateLimit_step. cbv zeta.
  replace (Z.of_nat (List.length (pruned st)) >=? maxRequests (rateLimitConfig st))
    with true by (symmetry; rewrite Z.geb_leb; apply Z.leb_le; exact Hfull).
  destruct (Math_min_least (pruned st)) as (m & Hm & Hmin_in & Hmin_least).
  { intros E. rewrite E in Hin. exact Hin. }
  rewrite Hm.
  assert (m = oldest) as -> by (apply (least_unique (pruned st)); assumption).
  unfold ext_add, ext_gtb.
  replace (oldest + (windowMs (rateLimitConfig st) - clock st))
    with (oldest + windowMs (rateLimitConfig st) - clock st) by lia.
  replace (0 <? oldest + windowMs (rateLimitConfig st) - clock st) with true
    by (symmetry; apply Z.ltb_lt; exact Hpos).
  repeat split.
Qed.

(** With an empty window and a budget of zero or less there is no oldest
    timestamp: [Math.min()] is [Infinity], and so is the requested delay. *)
Lemma checkRateLimit_no_budget (st : St) :
  pruned st = [] ->
  maxRequests (rateLimitConfig st) <= 0 ->
  trace (snd (checkRateLimit st)) = (trace st ++ [Delay PosInf])%list.
Proof.
  intros He Hmax. rewrite checkRateLimit_step. cbv zeta. rewrite He. simpl.
  replace (0 >=? maxRequests (rateLimitConfig st)) with true
    by (symmetry; rewrite Z.geb_leb; apply Z.leb_le; exact Hmax).
  reflexivity.
Qed.

Lemma set_clock_window (t : Z) (st : St) :
  window (set_clock t st) = window st
  /\ pruned (set_clock t st)
     = filter (fun x => t - windowMs (rateLimitConfig st) <? x) (window st).
Proof. split; reflexivity. Qed.

(** An admission that finds the whole window recent and the budget not
    used up goes through without delay. *)
Lemma admission_inside (t : Z) (st : St) :
  Forall (fun x => t - windowMs (rateLimitConfig st) < x) (window st) ->
  Z.of_nat (List.length (window st)) < maxRequests (rateLimitConfig st) ->
  window (admission_at t st) = (window st ++ [t])%list
  /\ trace (admission_at t st) = trace st
  /\ rateLimitConfig (admission_at t st) = rateLimitConfig st.
Proof.
  intros Hin Hlen. unfold admission_at.
  assert (Hp : pruned (set_clock t st) = window st).
  { destruct (set_clock_window t st) as [_ ->]. apply filter_all.
    eapply Forall_impl; [| exact Hin]. intros x Hx. apply Z.ltb_lt. exact Hx. }
  destruct (checkRateLimit_frame (set_clock t st)) as (Hw & _ & Hrl & _).
  destruct (checkRateLimit_below (set_clock t st)) as (Htr & _ & _).
  { rewrite Hp. exact Hlen. }
  rewrite Hw, Hp, Htr, Hrl. repeat split.
Qed.

Lemma admissions_inside (ts : list Z) :
  forall st : St,
    Forall (fun t => forall x, In x (window st ++ ts)%list ->
                               t - windowMs (rateLimitConfig st) < x) ts ->
    Z.of_nat (List.length (window st) + List.length ts)
      <= maxRequests (rateLimitConfig st) ->
    window (admissions ts st) = (window st ++ ts)%list
    /\ trace (admissions ts st) = trace st
    /\ rateLimitConfig (admissions ts st) = rateLimitConfig st.
Proof.
  induction ts as [|t ts IH]; intros st Hall Hlen.
  - simpl. rewrite app_nil_r. repeat split.
  - inversion Hall as [|? ? Ht Hts]; subst.
    destruct (admission_inside t st) as (Hw & Htr & Hrl).
    + apply Forall_forall. intros x Hx. apply Ht. apply in_or_app. left. exact Hx.
    + simpl List.length in Hlen. lia.
    + change (admissions (t :: ts) st) with (admissions ts (admission_at t st)).
      destruct (IH (admission_at t st)) as (Hw' & Htr' & Hrl').
      * rewrite Hw, Hrl, <- app_assoc. exact Hts.
      * rewrite Hw, Hrl, length_app. simpl List.length in *. lia.
      * rewrite Hw', Htr', Hrl', Hw, Htr, Hrl, <- app_assoc. repeat split.
Qed.

Lemma admissions_snoc (ts : list Z) (t : Z) (st : St) :
  admissions (ts ++ [t]) st = admission_at t (admissions ts st).
Proof. unfold admissions. rewrite fold_left_app. reflexivity. Qed.

(** Six admissions back to back on a fresh window of five per second. *)
Lemma sixth_admission_waits (st : St) (t1 t2 t3 t4 t5 t6 : Z) :
  windowMs (rateLimitConfig st) = 1000 ->
  maxRequests (rateLimitConfig st) = 5 ->
  window st = [] ->
  t1 <= t2 <= t3 -> t3 <= t4 <= t5 -> t5 <= t6 -> t6 - t1 < 1000 ->
  trace (admissions [t1; t2; t3; t4; t5] st) = trace st
  /\ trace (admissions [t1; t2; t3; t4; t5; t6] st)
     = (trace st ++ [Delay (Fin (1000 - (t6 - t1)))])%list
  /\ window (admissions [t1; t2; t3; t4; t5; t6] st) = [t1; t2; t3; t4; t5; t6].
Proof.
  intros HW Hmax Hw H12 H34 H56 Hspan.
  destruct (admissions_inside [t1; t2; t3; t4; t5] st) as (Hw5 & Htr5 & Hrl5).
  { rewrite Hw, HW. simpl app.
    repeat constructor; intros x Hx; simpl in Hx; intuition lia. }
  { rewrite Hw, Hmax. simpl. lia. }
  rewrite Hw in Hw5. simpl app in Hw5.
  split; [exact Htr5 |].
  change [t1; t2; t3; t4; t5; t6] with ([t1; t2; t3; t4; t5] ++ [t6])%list at 1 2.
  rewrite !admissions_snoc.
  set (s5 := admissions [t1; t2; t3; t4; t5] st) in *.
  unfold admission_at.
  assert (Hp : pruned (set_clock t6 s5) = [t1; t2; t3; t4; t5]).
  { destruct (set_clock_window t6 s5) as [_ ->]. rewrite Hw5, Hrl5, HW.
    apply filter_all. repeat constructor; apply Z.ltb_lt; lia. }
  destruct (checkRateLimit_frame (set_clock t6 s5)) as (Hw6 & _).
  destruct (checkRateLimit_waits (set_clock t6 s5) t1) as (_ & Htr6 & _).
  - rewrite Hp. change (rateLimitConfig (set_clock t6 s5)) with (rateLimitConfig s5).
    rewrite Hrl5, Hmax. simpl. lia.
  - rewrite Hp. left. reflexivity.
  - rewrite Hp. intros t Ht. simpl in Ht. intuition lia.
  - rewrite Hw6, Hp, Htr6.
    change (rateLimitConfig (set_clock t6 s5)) with (rateLimitConfig s5).
    change (clock (set_clock t6 s5)) with t6.
    change (trace (set_clock t6 s5)) with (trace s5).
    rewrite Hrl5, HW, Htr5.
    replace (t1 + 1000 - t6) with (1000 - (t6 - t1)) by lia.
    split; reflexivity.
Qed.

(** The admission algorithm.  An admission is never rejected.  It first
    drops from the window the timestamps not newer than [now - windowMs];
    if at least [maxRequests] remain it asks for a timer of
    [oldest + windowMs - now], where [oldest] is the oldest timestamp that
    remains, and resumes when the timer fires, which is after the duration
    asked for only up to [2^31 - 1] ms; otherwise it does not wait; in both
    cases it then appends [now] to the window.  With [maxRequests = 5] and
    [windowMs = 1000], of six admissions back to back on a fresh instance
    the first five do not wait and the sixth asks for [windowMs] less the
    time elapsed since the first. *)
Theorem checkRateLimit_window :
  forall st : St,
    let now := clock st in
    let windowMs := windowMs (rateLimitConfig st) in
    let maxRequests := maxRequests (rateLimitConfig st) in
    let st' := snd (checkRateLimit st) in
    fst (checkRateLimit st) = Return tt
    /\ (forall t, In t (pruned st) <-> In t (window st) /\ now - windowMs < t)
    /\ window st' = (pruned st ++ [now])%list
    /\ (Z.of_nat (List.length (pruned st)) < maxRequests ->
        trace st' = trace st
        /\ clock st' = now
        /\ rateLimitHits (metrics st') = rateLimitHits (metrics st))
    /\ (maxRequests <= Z.of_nat (List.length (pruned st)) ->
        forall oldest,
          In oldest (pruned st) ->
          (forall t, In t (pruned st) -> oldest <= t) ->
          0 < oldest + windowMs - now
          /\ trace st' = (trace st ++ [Delay (Fin (oldest + windowMs - now))])%list
          /\ clock st' = now + timer_ms (Fin (oldest + windowMs - now))
          /\ (oldest + windowMs - now <= 2147483647 ->
              clock st' = oldest + windowMs)
          /\ rateLimitHits (metrics st') = rateLimitHits (metrics st) + 1)
    /\ (forall (ts : list Z) (t : Z),
          fst (checkRateLimit (set_clock t (admissions ts st))) = Return tt)
    /\ (forall t1 t2 t3 t4 t5 t6 : Z,
          windowMs = 1000 -> maxRequests = 5 -> window st = [] ->
          t1 <= t2 <= t3 -> t3 <= t4 <= t5 -> t5 <= t6 -> t6 - t1 < 1000 ->
          trace (admissions [t1; t2; t3; t4; t5] st) = trace st
          /\ trace (admissions [t1; t2; t3; t4; t5; t6] st)
             = (trace st ++ [Delay (Fin (1000 - (t6 - t1)))])%list
          /\ window (admissions [t1; t2; t3; t4; t5; t6] st)
             = [t1; t2; t3; t4; t5; t6]).
Proof.
  intros st. cbv zeta.
  split; [rewrite checkRateLimit_step; reflexivity |].
  split; [intros t; apply pruned_in |].
  split; [apply checkRateLimit_frame |].
  split.
  { intros H. destruct (checkRateLimit_below st H) as (Htr & Hc & Hm).
    rewrite Htr, Hc, Hm. repeat split. }
  split.
  { intros H oldest Hin Hmin.
    destruct (checkRateLimit_waits st oldest H Hin Hmin) as (Hpos & Htr & Hc & Hm).
    rewrite Htr, Hc, Hm. cbv zeta in Hpos.
    split; [exact Hpos |]. split; [reflexivity |]. split; [reflexivity |].
    split; [| reflexivity].
    intros Hfit. unfold timer_ms.
    replace (oldest + windowMs (rateLimitConfig st) - clock st <? 1) with false
      by (symmetry; apply Z.ltb_ge; lia).
    replace (2147483647 <? oldest + windowMs (rateLimitConfig st) - clock st)
      with false by (symmetry; apply Z.ltb_ge; lia).
    simpl orb. cbv iota. lia. }
  split.
  { intros ts t. rewrite checkRateLimit_step. reflexivity. }
  intros t1 t2 t3 t4 t5 t6. apply sixth_admission_waits.
Qed.

Lemma checkRateLimit_window_witness :
  let st := Sample.five_per_second_layer in
  windowMs (rateLimitConfig st) = 1000
  /\ maxRequests (rateLimitConfig st) = 5
  /\ window st = []
  /\ trace (admissions [1000; 1001; 1002; 1003; 1004] st) = trace st
  /\ trace (admissions [1000; 1001; 1002; 1003; 1004; 1005] st)
     = (trace st ++ [Delay (Fin (1000 - (1005 - 1000)))])%list
  /\ window (admissions [1000; 1001; 1002; 1003; 1004; 1005] st)
     = [1000; 1001; 1002; 1003; 1004; 1005].
Proof.
  cbv zeta.
  split; [reflexivity | split; [reflexivity | split; [reflexivity |]]].
  refine (proj2 (proj2 (proj2 (proj2 (proj2 (proj2
            (checkRateLimit_window Sample.five_per_second_layer))))))
            1000 1001 1002 1003 1004 1005
            eq_refl eq_refl eq_refl _ _ _ _); lia.
Defined.

(** C3, the code at the failing input.  With a budget of five requests in
    a window of thirty days, five admissions fill the window and a sixth,
    one millisecond after the fifth, asks for a timer of thirty days less
    five milliseconds.  That is more than the [2^31 - 1] ms a timer can
    hold, so the timer fires after one millisecond: the sixth caller goes
    on at 1006 and the window holds six timestamps.  With a window of one
    second the same sixth admission does wait, until 2000. *)
Theorem long_window_admits_after_one_millisecond :
  let admitted (st : St) := admissions [1000; 1001; 1002; 1003; 1004] st in
  let sixth (st : St) := checkRateLimit (set_clock 1005 (admitted st)) in
  let long := sixth Sample.thirty_day_layer in
  let short := sixth Sample.five_per_second_layer in
  windowMs (rateLimitConfig Sample.thirty_day_layer) = 30 * 24 * 60 * 60 * 1000
  /\ maxRequests (rateLimitConfig Sample.thirty_day_layer) = 5
  /\ trace (admitted Sample.thirty_day_layer) = []
  /\ window (admitted Sample.thirty_day_layer) = [1000; 1001; 1002; 1003; 1004]
  /\ fst long = Return tt
  /\ trace (snd long) = [Delay (Fin (1000 + 2592000000 - 1005))]
  /\ clock (snd long) = 1005 + 1
  /\ clock (snd long) < 1000 + 2592000000
  /\ window (snd long) = [1000; 1001; 1002; 1003; 1004; 1005]
  /\ rateLimitHits (metrics (snd long)) = 1
  /\ fst short = Return tt
  /\ trace (snd short) = [Delay (Fin (1000 + 1000 - 1005))]
  /\ clock (snd short) = 1000 + 1000
  /\ window (snd short) = [1000; 1001; 1002; 1003; 1004; 1005].
Proof.
  cbv zeta. vm_compute. repeat split.
Qed.

End RateLimiter.

(* ------------------------------------------------------------------ *)
(** * Integration layer: retry with exponential backoff *)

Section Retry.
Import Js Layer Spec.

Variable cfg : AxiosRequestConfig.

Lemma schedule_app (a b : list Effect) :
  schedule (a ++ b) = (schedule a ++ schedule b)%list.
Proof.
  induction a as [|e r IH]; simpl; [reflexivity |].
  destruct e; simpl; rewrite IH; reflexivity.
Qed.

(** One iteration, by the outcome of its request. *)
Lemma retryLoop_success (fuel : nat) (attempt : Z) (lastError : Thrown) (st : St)
    (elapsed : Z) (r : AxiosResponse) :
  http st (http_calls st) cfg = HttpOk elapsed r ->
  retryLoop (S fuel) attempt lastError cfg st
  = (Return r, attempt_succeeded cfg elapsed r st).
Proof.
  intros H. simpl. unfold bind, run, tryCatch, axios_request.
  cbn [http http_calls set_metrics]. rewrite H. reflexivity.
Qed.

Lemma retryLoop_failure (fuel : nat) (attempt : Z) (lastError : Thrown) (st : St)
    (elapsed : Z) (e : JsError) :
  http st (http_calls st) cfg = HttpErr elapsed e ->
  retryLoop (S fuel) attempt lastError cfg st
  = retryLoop fuel (attempt + 1) (ThrowErr e) cfg
      (attempt_failed cfg attempt elapsed e st).
Proof.
  intros H. simpl. unfold bind, run, tryCatch, axios_request.
  cbn [http http_calls set_metrics]. rewrite H.
  unfold attempt_failed.
  cbn [config recordFailure perform set_metrics set_clock set_http_calls].
  destruct (attempt <? retryAttempts (config st)); reflexivity.
Qed.

Lemma attempt_failed_frame (attempt elapsed : Z) (e : JsError) (st : St) :
  config (attempt_failed cfg attempt elapsed e st) = config st
  /\ http (attempt_failed cfg attempt elapsed e st) = http st
  /\ http_calls (attempt_failed cfg attempt elapsed e st) = S (http_calls st)
  /\ totalRequests (metrics (attempt_failed cfg attempt elapsed e st))
     = totalRequests (metrics st) + 1
  /\ schedule (trace (attempt_failed cfg attempt elapsed e st))
     = (schedule (trace st)
        ++ Attempt cfg
           :: (if attempt <? retryAttempts (config st)
               then [Delay (Fin (retryDelay (config st) * 2 ^ attempt))]
               else []))%list.
Proof.
  unfold attempt_failed.
  destruct (attempt <? retryAttempts (config st));
    cbn [snd delay run config http http_calls metrics trace recordFailure perform
         set_metrics set_clock set_http_calls note_failure inc_totalRequests
         totalRequests];
    rewrite !schedule_app; cbn [schedule]; rewrite ?app_nil_r, <- ?app_assoc;
    repeat split.
Qed.

Lemma attempt_succeeded_frame (elapsed : Z) (r : AxiosResponse) (st : St) :
  config (attempt_succeeded cfg elapsed r st) = config st
  /\ http_calls (attempt_succeeded cfg elapsed r st) = S (http_calls st)
  /\ totalRequests (metrics (attempt_succeeded cfg elapsed r st))
     = totalRequests (metrics st) + 1
  /\ schedule (trace (attempt_succeeded cfg elapsed r st))
     = (schedule (trace st) ++ [Attempt cfg])%list.
Proof.
  unfold attempt_succeeded, recordSuccess, updateAverageResponseTime.
  cbn [config http_calls metrics trace perform set_metrics set_clock
       set_http_calls inc_totalRequests inc_successfulRequests
       set_averageResponseTime totalRequests].
  rewrite !schedule_app. cbn [schedule]. rewrite app_nil_r. repeat split.
Qed.

(** The loop never makes more requests than it has iterations. *)
Lemma retryLoop_attempts_bound (fuel : nat) :
  forall (attempt : Z) (lastError : Thrown) (st : St),
    (http_calls (snd (retryLoop fuel attempt lastError cfg st))
     <= http_calls st + fuel)%nat.
Proof.
  induction fuel as [|fuel IH]; intros attempt lastError st.
  - simpl. lia.
  - destruct (http st (http_calls st) cfg) as [elapsed r | elapsed e] eqn:E.
    + rewrite (retryLoop_success _ _ _ _ _ _ E). simpl snd.
      destruct (attempt_succeeded_frame elapsed r st) as (_ & -> & _). lia.
    + rewrite (retryLoop_failure _ _ _ _ _ _ E).
      specialize (IH (attempt + 1) (ThrowErr e)
                    (attempt_failed cfg attempt elapsed e st)).
      destruct (attempt_failed_frame attempt elapsed e st) as (_ & _ & Hc & _).
      rewrite Hc in IH. lia.
Qed.

(** [i] failures followed by a success, with iterations to spare. *)
Lemma retryLoop_fails_then_succeeds (i : nat) :
  forall (fuel : nat) (attempt : Z) (lastError : Thrown) (st : St)
         (elapsed : Z) (r : AxiosResponse),
    (i < fuel)%nat ->
    attempt + Z.of_nat i <= retryAttempts (config st) ->
    (forall j, (j < i)%nat ->
               exists el e, http st (http_calls st + j)%nat cfg = HttpErr el e) ->
    http st (http_calls st + i)%nat cfg = HttpOk elapsed r ->
    fst (retryLoop fuel attempt lastError cfg st) = Return r
    /\ http_calls (snd (retryLoop fuel attempt lastError cfg st))
       = (http_calls st + i + 1)%nat
    /\ totalRequests (metrics (snd (retryLoop fuel attempt lastError cfg st)))
       = totalRequests (metrics st) + Z.of_nat i + 1
    /\ schedule (trace (snd (retryLoop fuel attempt lastError cfg st)))
       = (schedule (trace st)
          ++ rounds cfg (retryDelay (config st)) attempt i ++ [Attempt cfg])%list.
Proof.
  induction i as [|i IH]; intros fuel attempt lastError st elapsed r Hfuel Hk Hfail Hok.
  - destruct fuel as [|fuel]; [lia |].
    rewrite Nat.add_0_r in Hok.
    rewrite (retryLoop_success _ _ _ _ _ _ Hok). simpl fst. simpl snd.
    destruct (attempt_succeeded_frame elapsed r st) as (_ & Hc & Ht & Hs).
    rewrite Hc, Ht, Hs. simpl rounds. repeat split; lia.
  - destruct fuel as [|fuel]; [lia |].
    destruct (Hfail 0%nat) as (el & e & He); [lia |].
    rewrite Nat.add_0_r in He.
    rewrite (retryLoop_failure _ _ _ _ _ _ He).
    destruct (attempt_failed_frame attempt el e st) as (Hcfg & Hh & Hc & Ht & Hs).
    destruct (IH fuel (attempt + 1) (ThrowErr e)
                (attempt_failed cfg attempt el e st) elapsed r)
      as (R1 & R2 & R3 & R4).
    + lia.
    + rewrite Hcfg. lia.
    + intros j Hj. rewrite Hh, Hc.
      replace (S (http_calls st) + j)%nat with (http_calls st + S j)%nat by lia.
      apply Hfail. lia.
    + rewrite Hh, Hc.
      replace (S (http_calls st) + i)%nat with (http_calls st + S i)%nat by lia.
      exact Hok.
    + rewrite R1, R2, R3, R4, Hcfg, Hc, Ht, Hs.
      replace (attempt <? retryAttempts (config st)) with true
        by (symmetry; apply Z.ltb_lt; lia).
      simpl rounds. rewrite <- !app_assoc. simpl app.
      repeat split; lia.
Qed.

(** Every iteration fails: the loop runs dry and throws the error of its
    last request, having waited after every failure but the last. *)
Lemma retryLoop_fails_throughout (fuel : nat) :
  forall (attempt : Z) (lastError : Thrown) (st : St)
         (els : nat -> Z) (errs : nat -> JsError),
    Z.of_nat fuel = retryAttempts (config st) + 1 - attempt ->
    (forall j, (j < fuel)%nat ->
               http st (http_calls st + j)%nat cfg = HttpErr (els j) (errs j)) ->
    fst (retryLoop fuel attempt lastError cfg st)
    = Raise (match fuel with O => lastError | S n => ThrowErr (errs n) end)
    /\ http_calls (snd (retryLoop fuel attempt lastError cfg st))
       = (http_calls st + fuel)%nat
    /\ schedule (trace (snd (retryLoop fuel attempt lastError cfg st)))
       = (schedule (trace st)
          ++ match fuel with
             | O => []
             | S n => rounds cfg (retryDelay (config st)) attempt n ++ [Attempt cfg]
             end)%list.
Proof.
  induction fuel as [|fuel IH]; intros attempt lastError st els errs Hfuel Hfail.
  - simpl. rewrite app_nil_r. repeat split. lia.
  - pose proof (Hfail 0%nat ltac:(lia)) as He. rewrite Nat.add_0_r in He.
    rewrite (retryLoop_failure _ _ _ _ _ _ He).
    destruct (attempt_failed_frame attempt (els 0%nat) (errs 0%nat) st)
      as (Hcfg & Hh & Hc & _ & Hs).
    destruct (IH (attempt + 1) (ThrowErr (errs 0%nat))
                (attempt_failed cfg attempt (els 0%nat) (errs 0%nat) st)
                (fun j => els (S j)) (fun j => errs (S j)))
      as (R1 & R2 & R3).
    + rewrite Hcfg. lia.
    + intros j Hj. rewrite Hh, Hc.
      replace (S (http_calls st) + j)%nat with (http_calls st + S j)%nat by lia.
      apply Hfail. lia.
    + rewrite R1, R2, R3, Hcfg, Hc, Hs.
      destruct fuel as [|n].
      * replace (attempt <? retryAttempts (config st)) with false
          by (symmetry; apply Z.ltb_ge; lia).
        simpl. rewrite app_nil_r. repeat split. lia.
      * replace (attempt <? retryAttempts (config st)) with true
          by (symmetry; apply Z.ltb_lt; lia).
        simpl rounds. rewrite <- !app_assoc. simpl app.
        repeat split. lia.
Qed.

End Retry.


(* ------------------------------------------------------------------ *)
(** * Integration layer: what a call resolves or rejects with *)

Section RequestBoundary.
Import Js Layer Spec.

Lemma sendWebhook_frame (webhook : WebhookConfig) (event : string) (payload : JsValue)
    (st : St) :
  config (snd (sendWebhook webhook event payload st)) = config st.
Proof.
  unfold sendWebhook. destruct (JSON_serialize _) as [e | body]; [reflexivity |].
  destruct (hook st (hook_calls st)); reflexivity.
Qed.

(** Webhook delivery swallows every failure. *)
Lemma emitWebhookLoop_returns (entries : JsMap WebhookConfig) (event : string)
    (payload : JsValue) :
  forall st : St, fst (emitWebhookLoop entries event payload st) = Return tt.
Proof.
  induction entries as [|[id webhook] r IH]; intros st; simpl; [reflexivity |].
  unfold bind.
  destruct (existsb (String.eqb event) (events webhook)).
  - unfold tryCatch.
    destruct (sendWebhook webhook event payload st) as [[[] | t] st1].
    + apply IH.
    + unfold run. apply IH.
  - unfold ret. apply IH.
Qed.

Lemma emitWebhook_returns (event : string) (payload : JsValue) (st : St) :
  fst (emitWebhook event payload st) = Return tt.
Proof. unfold emitWebhook. apply emitWebhookLoop_returns. Qed.

(** A loop that runs at least once, or that starts from an error, does not
    throw [undefined]. *)
Lemma retryLoop_throws_an_error (cfg : AxiosRequestConfig) (fuel : nat) :
  forall (attempt : Z) (lastError : Thrown) (st : St),
    fuel <> 0%nat \/ lastError <> ThrowUndefined ->
    fst (retryLoop fuel attempt lastError cfg st) <> Raise ThrowUndefined.
Proof.
  induction fuel as [|fuel IH]; intros attempt lastError st H.
  - simpl. destruct H as [H | H]; [congruence |]. intros E. apply H. congruence.
  - destruct (http st (http_calls st) cfg) as [elapsed r | elapsed e] eqn:E.
    + rewrite (retryLoop_success cfg _ _ _ _ _ _ E). discriminate.
    + rewrite (retryLoop_failure cfg _ _ _ _ _ _ E). apply IH. right. discriminate.
Qed.

Lemma checkCache_frame (cfg : AxiosRequestConfig) (key : string) (startTime : Z)
    (st : St) :
  (exists early, fst (checkCache cfg key startTime st) = Return early)
  /\ config (snd (checkCache cfg key startTime st)) = config st
  /\ http (snd (checkCache cfg key startTime st)) = http st
  /\ http_calls (snd (checkCache cfg key startTime st)) = http_calls st.
Proof.
  unfold checkCache. destruct (cacheable cfg st); [| simpl; eauto].
  unfold getFromCache. destruct (map_get (cache st) key) as [item |].
  - destruct (ttl (cacheConfig st) <? clock st - timestamp item).
    + simpl. eauto.
    + destruct (truthy (item_data item)); simpl; eauto.
  - simpl. eauto.
Qed.

(** Past the computation of the cache key, and with a retry count that is
    not negative, [request] resolves: whatever goes wrong inside the [try]
    block comes back as a result. *)
Lemma request_resolves (cfg : AxiosRequestConfig) (st : St) (key : string) :
  fst (generateCacheKey cfg st) = Return key ->
  0 <= retryAttempts (config st) ->
  exists result, fst (request cfg st) = Return result.
Proof.
  intros Hkey Hk. unfold request, bind, Date_now, tryCatch.
  destruct (generateCacheKey_pure cfg st st) as [_ Hst].
  destruct (generateCacheKey cfg st) as [res st0] eqn:E.
  simpl in Hkey, Hst. subst res st0.
  destruct (checkCache_frame cfg key (clock st) st) as ([early He] & Hcfg & _).
  destruct (checkCache cfg key (clock st) st) as [res st1] eqn:Ec.
  simpl in He, Hcfg. subst res.
  destruct early as [r |]; [eexists; reflexivity |].
  destruct (checkRateLimit_frame st1) as (_ & Hcfg2 & _).
  rewrite checkRateLimit_step in Hcfg2 |- *. cbv zeta in Hcfg2 |- *.
  simpl snd in Hcfg2.
  match goal with
  | |- context [makeRequestWithRetry cfg ?s] => set (st2 := s) in *
  end.
  pose proof (retryLoop_throws_an_error cfg
                (Z.to_nat (retryAttempts (config st2) + 1)) 0 ThrowUndefined st2)
    as Hthrow.
  change (retryLoop (Z.to_nat (retryAttempts (config st2) + 1)) 0 ThrowUndefined
            cfg st2) with (makeRequestWithRetry cfg st2) in Hthrow.
  destruct (makeRequestWithRetry cfg st2) as [[response | t] st3] eqn:Em.
  - unfold ret, run. destruct (cacheable cfg st3); eexists; reflexivity.
  - destruct t as [e |].
    + pose proof (emitWebhook_returns "api_failure"
                    (JObject [("error", JString (message e));
                              ("config", config_value cfg);
                              ("responseTime", JNumber (clock st3 - clock st))]) st3)
        as Hw.
      destruct (emitWebhook _ _ st3) as [res st4]. simpl in Hw. subst res.
      eexists. reflexivity.
    + exfalso. apply Hthrow; [| reflexivity].
      left. rewrite Hcfg2, Hcfg. lia.
Qed.

(** A call that is not answered from the cache and whose every request
    fails resolves to a failure that carries the message and the status of
    the last error. *)
Lemma request_surfaces_last_error (cfg : AxiosRequestConfig) (st : St) (key : string)
    (els : nat -> Z) (errs : nat -> JsError) :
  0 <= retryAttempts (config st) ->
  fst (generateCacheKey cfg st) = Return key ->
  fst (checkCache cfg key (clock st) st) = Return None ->
  (forall j, Z.of_nat j <= retryAttempts (config st) ->
             http st (http_calls st + j)%nat cfg = HttpErr (els j) (errs j)) ->
  exists elapsed,
    fst (request cfg st)
    = Return {| success := false; data := None;
                error := Some (message (errs (Z.to_nat (retryAttempts (config st)))));
                statusCode :=
                  response_status (errs (Z.to_nat (retryAttempts (config st))));
                responseTime := Some elapsed; cached := None |}.
Proof.
  intros Hk Hkey Hmiss Hfail. unfold request, bind, Date_now, tryCatch.
  destruct (generateCacheKey_pure cfg st st) as [_ Hst].
  destruct (generateCacheKey cfg st) as [res st0] eqn:E.
  simpl in Hkey, Hst. subst res st0.
  destruct (checkCache_frame cfg key (clock st) st) as (_ & Hcfg & Hh & Hc).
  destruct (checkCache cfg key (clock st) st) as [res st1] eqn:Ec.
  simpl in Hmiss, Hcfg, Hh, Hc. subst res.
  destruct (checkRateLimit_frame st1) as (_ & Hcfg2 & _ & _ & _ & _ & Hh2 & Hc2).
  rewrite checkRateLimit_step in Hcfg2, Hh2, Hc2 |- *.
  cbv zeta in Hcfg2, Hh2, Hc2 |- *. simpl snd in Hcfg2, Hh2, Hc2.
  match goal with
  | |- context [makeRequestWithRetry cfg ?s] => set (st2 := s) in *
  end.
  destruct (retryLoop_fails_throughout cfg
              (Z.to_nat (retryAttempts (config st2) + 1)) 0 ThrowUndefined st2
              els errs) as (R1 & _).
  { rewrite Hcfg2, Hcfg. lia. }
  { intros j Hj. rewrite Hh2, Hh, Hc2, Hc. apply Hfail.
    rewrite Hcfg2, Hcfg in Hj. lia. }
  change (retryLoop (Z.to_nat (retryAttempts (config st2) + 1)) 0 ThrowUndefined
            cfg st2) with (makeRequestWithRetry cfg st2) in R1.
  replace (Z.to_nat (retryAttempts (config st2) + 1))
    with (S (Z.to_nat (retryAttempts (config st)))) in R1
    by (rewrite Hcfg2, Hcfg; lia).
  destruct (makeRequestWithRetry cfg st2) as [res st3] eqn:Em.
  simpl in R1. subst res.
  set (e := errs (Z.to_nat (retryAttempts (config st)))).
  pose proof (emitWebhook_returns "api_failure"
                (JObject [("error", JString (message e));
                          ("config", config_value cfg);
                          ("responseTime", JNumber (clock st3 - clock st))]) st3)
    as Hw.
  destruct (emitWebhook _ _ st3) as [res st4]. simpl in Hw. subst res.
  eexists. reflexivity.
Qed.

(** C1, the code at the failing input.  The cache key is computed before
    the [try] block is entered, by [JSON.stringify] over the body; on a body
    that holds a BigInt this throws, and the call rejects with the
    [TypeError] instead of resolving to a result. *)
Theorem request_rejects_unserialisable_body :
  let call := post "/payments" (JObject [("amount", JBigInt 100)]) no_options in
  Sample.outcome call Sample.fresh_layer
  = Raise (ThrowErr (TypeError "Do not know how to serialize a BigInt"))
  /\ (forall result : APIResponse,
         Sample.outcome call Sample.fresh_layer <> Return result)
  /\ metrics (Sample.after call Sample.fresh_layer) = initialMetrics
  /\ trace (Sample.after call Sample.fresh_layer) = [].
Proof.
  cbv zeta. split; [reflexivity |]. split; [| split; reflexivity].
  intros result. discriminate.
Qed.

End RequestBoundary.

(* ------------------------------------------------------------------ *)
(** * Integration layer: the retry schedule of a call *)

Section RetrySchedule.
Import Js Layer Spec.

(** The retry schedule, as the requests made and the timers asked for.
    With [retryAttempts = k >= 0] a call makes at most [k + 1] requests.
    If its first [i <= k] requests fail and the next succeeds, it returns
    that response after exactly [i + 1] requests, having asked for a timer
    of [retryDelay * 2^j] between request [j] and request [j + 1]; with
    [k = 2], two failures and a success are three requests with timers of
    [retryDelay * 1] and [retryDelay * 2].  If all [k + 1] requests fail, it
    throws the error of the last one, and [request] returns a failure with
    the message and the status of that error.  How long a timer takes to
    fire is [timer_ms]. *)
Theorem makeRequestWithRetry_backoff :
  forall (cfg : AxiosRequestConfig) (st : St),
    let k := retryAttempts (config st) in
    let d := retryDelay (config st) in
    let calls := http_calls st in
    let res := makeRequestWithRetry cfg st in
    0 <= k ->
    Z.of_nat (http_calls (snd res)) - Z.of_nat calls <= k + 1
    /\ (forall (i : nat) (elapsed : Z) (r : AxiosResponse),
          Z.of_nat i <= k ->
          (forall j, (j < i)%nat ->
                     exists el e, http st (calls + j)%nat cfg = HttpErr el e) ->
          http st (calls + i)%nat cfg = HttpOk elapsed r ->
          fst res = Return r
          /\ http_calls (snd res) = (calls + i + 1)%nat
          /\ schedule (trace (snd res))
             = (schedule (trace st) ++ rounds cfg d 0 i ++ [Attempt cfg])%list)
    /\ (forall (els : nat -> Z) (errs : nat -> JsError),
          (forall j, Z.of_nat j <= k ->
                     http st (calls + j)%nat cfg = HttpErr (els j) (errs j)) ->
          fst res = Raise (ThrowErr (errs (Z.to_nat k)))
          /\ http_calls (snd res) = (calls + Z.to_nat k + 1)%nat
          /\ schedule (trace (snd res))
             = (schedule (trace st)
                ++ rounds cfg d 0 (Z.to_nat k) ++ [Attempt cfg])%list)
    /\ (forall (key : string) (els : nat -> Z) (errs : nat -> JsError),
          fst (generateCacheKey cfg st) = Return key ->
          fst (checkCache cfg key (clock st) st) = Return None ->
          (forall j, Z.of_nat j <= k ->
                     http st (calls + j)%nat cfg = HttpErr (els j) (errs j)) ->
          exists elapsed,
            fst (request cfg st)
            = Return {| success := false; data := None;
                        error := Some (message (errs (Z.to_nat k)));
                        statusCode := response_status (errs (Z.to_nat k));
                        responseTime := Some elapsed; cached := None |})
    /\ (k = 2 ->
        forall (el0 el1 el2 : Z) (e0 e1 : JsError) (r : AxiosResponse),
          http st calls cfg = HttpErr el0 e0 ->
          http st (calls + 1)%nat cfg = HttpErr el1 e1 ->
          http st (calls + 2)%nat cfg = HttpOk el2 r ->
          fst res = Return r
          /\ http_calls (snd res) = (calls + 3)%nat
          /\ schedule (trace (snd res))
             = (schedule (trace st)
                ++ [Attempt cfg; Delay (Fin (d * 1));
                    Attempt cfg; Delay (Fin (d * 2)); Attempt cfg])%list).
Proof.
  intros cfg st. cbv zeta. intros Hk. unfold makeRequestWithRetry.
  set (fuel := Z.to_nat (retryAttempts (config st) + 1)).
  assert (Hgen :
    forall (i : nat) (elapsed : Z) (r : AxiosResponse),
      Z.of_nat i <= retryAttempts (config st) ->
      (forall j, (j < i)%nat ->
                 exists el e, http st (http_calls st + j)%nat cfg = HttpErr el e) ->
      http st (http_calls st + i)%nat cfg = HttpOk elapsed r ->
      fst (retryLoop fuel 0 ThrowUndefined cfg st) = Return r
      /\ http_calls (snd (retryLoop fuel 0 ThrowUndefined cfg st))
         = (http_calls st + i + 1)%nat
      /\ schedule (trace (snd (retryLoop fuel 0 ThrowUndefined cfg st)))
         = (schedule (trace st)
            ++ rounds cfg (retryDelay (config st)) 0 i ++ [Attempt cfg])%list).
  { intros i elapsed r Hi Hfail Hok.
    destruct (retryLoop_fails_then_succeeds cfg i fuel 0 ThrowUndefined st elapsed r)
      as (R1 & R2 & _ & R4).
    - subst fuel. lia.
    - lia.
    - exact Hfail.
    - exact Hok.
    - repeat split; assumption. }
  split.
  { pose proof (retryLoop_attempts_bound cfg fuel 0 ThrowUndefined st). subst fuel. lia. }
  split; [exact Hgen |].
  split.
  { intros els errs Hfail.
    destruct (retryLoop_fails_throughout cfg fuel 0 ThrowUndefined st els errs)
      as (R1 & R2 & R3).
    - subst fuel. lia.
    - intros j Hj. apply Hfail. subst fuel. lia.
    - replace fuel with (S (Z.to_nat (retryAttempts (config st)))) in R1, R2, R3 |- *
        by (subst fuel; lia).
      rewrite R1, R2, R3. repeat split. lia. }
  split.
  { intros key els errs Hkey Hmiss Hfail.
    apply (request_surfaces_last_error cfg st key els errs Hk Hkey Hmiss Hfail). }
  intros Hk2 el0 el1 el2 e0 e1 r H0 H1 H2.
  destruct (Hgen 2%nat el2 r) as (R1 & R2 & R3).
  - rewrite Hk2. simpl. lia.
  - intros j Hj. destruct j as [|[|j]]; [| | lia].
    + rewrite Nat.add_0_r. eauto.
    + eauto.
  - exact H2.
  - rewrite R1, R2, R3. simpl rounds. repeat split. lia.
Qed.

(** C2, the code at the failing input.  With [retryAttempts = 2] and
    [retryDelay = 1500000000], against a service that fails twice and then
    answers, each request taking 5 ms, the call makes three requests and
    asks for timers of [retryDelay * 1] and [retryDelay * 2].  The first
    timer fires after the 1500000000 ms asked for; the second, 3000000000
    ms, is more than the [2^31 - 1] ms a timer can hold and fires after one
    millisecond.  The third request is made 1500000011 ms after the call
    began, and [get] reports a [responseTime] of 1500000016 ms, where the
    two waits alone come to 4500000000 ms.  With [retryDelay = 1000] both
    timers fire when asked. *)
Theorem long_backoff_resumes_after_one_millisecond :
  let st := Sample.long_backoff_layer in
  let res := makeRequestWithRetry Sample.get_test st in
  let d := retryDelay (config st) in
  let short := makeRequestWithRetry Sample.get_test Sample.flaky_layer in
  retryAttempts (config st) = 2
  /\ d = 1500000000
  /\ fst res = Return (Sample.response_ok (JString "payload") None)
  /\ http_calls (snd res) = 3%nat
  /\ schedule (trace (snd res))
     = [Attempt Sample.get_test; Delay (Fin (d * 1));
        Attempt Sample.get_test; Delay (Fin (d * 2)); Attempt Sample.get_test]
  /\ clock (snd (delay (Fin (d * 1)) st)) = clock st + d * 1
  /\ clock (snd (delay (Fin (d * 2)) st)) = clock st + 1
  /\ clock (snd res) = clock st + 5 + d * 1 + 5 + 1 + 5
  /\ clock (snd res) < clock st + d * 1 + d * 2
  /\ option_map responseTime
       (match Sample.outcome (get "/test-retry" no_options) st with
        | Return result => Some result
        | Raise _ => None
        end) = Some (Some 1500000016)
  /\ fst short = Return (Sample.response_ok (JString "payload") None)
  /\ clock (snd short)
     = clock Sample.flaky_layer + 5 + 1000 * 1 + 5 + 1000 * 2 + 5.
Proof.
  cbv zeta. vm_compute. repeat split.
Qed.

End RetrySchedule.

Lemma makeRequestWithRetry_backoff_witness :
  let res := Layer.makeRequestWithRetry Sample.get_test Sample.flaky_layer in
  0 <= Layer.retryAttempts (Layer.config Sample.flaky_layer)
  /\ Layer.retryAttempts (Layer.config Sample.flaky_layer) = 2
  /\ fst res = Layer.Return (Sample.response_ok (Js.JString "payload") None)
  /\ Layer.http_calls (snd res) = 3%nat
  /\ Spec.schedule (Layer.trace (snd res))
     = [Layer.Attempt Sample.get_test; Layer.Delay (Js.Fin 1000);
        Layer.Attempt Sample.get_test; Layer.Delay (Js.Fin 2000);
        Layer.Attempt Sample.get_test].
Proof.
  cbv zeta.
  assert (Hk : 0 <= Layer.retryAttempts (Layer.config Sample.flaky_layer))
    by (simpl; lia).
  split; [exact Hk | split; [reflexivity |]].
  exact (proj2 (proj2 (proj2 (proj2
           (makeRequestWithRetry_backoff Sample.get_test Sample.flaky_layer Hk))))
           eq_refl 5 5 5 Sample.network_error Sample.network_error
           (Sample.response_ok (Js.JString "payload") None)
           eq_refl eq_refl eq_refl).
Defined.

(* ------------------------------------------------------------------ *)
(** * Integration layer: what the stages of a call leave alone *)

Section PipelineFrames.
Import Js Layer Spec.

Lemma posts_of_app (a b : list Effect) :
  posts_of (a ++ b) = (posts_of a ++ posts_of b)%list.
Proof.
  induction a as [|e r IH]; simpl; [reflexivity |].
  destruct e; simpl; rewrite IH; reflexivity.
Qed.

Lemma same_surroundings_refl (st : St) : same_surroundings st st.
Proof. unfold same_surroundings. repeat split. Qed.

Lemma same_surroundings_trans (a b c : St) :
  same_surroundings a b -> same_surroundings b c -> same_surroundings a c.
Proof.
  unfold same_surroundings.
  intros (A1 & A2 & A3 & A4 & A5 & A6 & A7 & A8 & A9 & A10 & A11)
         (B1 & B2 & B3 & B4 & B5 & B6 & B7 & B8 & B9 & B10 & B11).
  repeat split; congruence.
Qed.

Lemma attempt_failed_surroundings (cfg : AxiosRequestConfig) (attempt elapsed : Z)
    (e : JsError) (st : St) :
  same_surroundings st (attempt_failed cfg attempt elapsed e st).
Proof.
  unfold same_surroundings, attempt_failed, unaccounted.
  destruct (attempt <? retryAttempts (config st));
    cbn [snd delay run config rateLimitConfig cacheConfig cache webhooks hook
         hook_calls metrics trace recordFailure perform set_metrics set_clock
         set_http_calls note_failure inc_totalRequests totalRequests
         successfulRequests failedRequests cacheHits cacheMisses];
    rewrite !posts_of_app; cbn [posts_of]; rewrite ?app_nil_r;
    repeat split; lia.
Qed.

Lemma attempt_succeeded_surroundings (cfg : AxiosRequestConfig) (elapsed : Z)
    (r : AxiosResponse) (st : St) :
  same_surroundings st (attempt_succeeded cfg elapsed r st).
Proof.
  unfold same_surroundings, attempt_succeeded, recordSuccess,
    updateAverageResponseTime, unaccounted.
  cbn [config rateLimitConfig cacheConfig cache webhooks hook hook_calls metrics
       trace perform set_metrics set_clock set_http_calls inc_totalRequests
       inc_successfulRequests set_averageResponseTime totalRequests
       successfulRequests failedRequests cacheHits cacheMisses].
  rewrite !posts_of_app. cbn [posts_of]. rewrite ?app_nil_r.
  repeat split; lia.
Qed.

Lemma retryLoop_surroundings (cfg : AxiosRequestConfig) (fuel : nat) :
  forall (attempt : Z) (lastError : Thrown) (st : St),
    same_surroundings st (snd (retryLoop fuel attempt lastError cfg st)).
Proof.
  induction fuel as [|fuel IH]; intros attempt lastError st.
  - apply same_surroundings_refl.
  - destruct (http st (http_calls st) cfg) as [elapsed r | elapsed e] eqn:E.
    + rewrite (retryLoop_success cfg _ _ _ _ _ _ E).
      apply attempt_succeeded_surroundings.
    + rewrite (retryLoop_failure cfg _ _ _ _ _ _ E).
      eapply same_surroundings_trans; [apply attempt_failed_surroundings | apply IH].
Qed.

Lemma checkRateLimit_surroundings (st : St) :
  same_surroundings st (snd (checkRateLimit st)).
Proof.
  rewrite checkRateLimit_step. cbv zeta. unfold same_surroundings, unaccounted.
  destruct (Z.of_nat (List.length (pruned st)) >=? maxRequests (rateLimitConfig st));
    [destruct (ext_gtb _ 0) |];
    cbn [snd config rateLimitConfig cacheConfig cache webhooks hook hook_calls
         metrics trace perform set_metrics set_clock set_rateLimitTracker
         inc_rateLimitHits totalRequests successfulRequests failedRequests
         cacheHits cacheMisses];
    rewrite ?posts_of_app; cbn [posts_of]; rewrite ?app_nil_r;
    repeat split.
Qed.

End PipelineFrames.

(* ------------------------------------------------------------------ *)
(** * Integration layer: webhook delivery *)

Section WebhookDelivery.
Import Js Layer Spec.

Lemma console_errors_of_app (a b : list Effect) :
  console_errors_of (a ++ b) = (console_errors_of a ++ console_errors_of b)%list.
Proof.
  induction a as [|e r IH]; simpl; [reflexivity |].
  destruct e; simpl; rewrite IH; reflexivity.
Qed.

(** The envelope serialises whenever the payload does. *)
Lemma envelope_serialises (event : string) (now : Z) (payload : JsValue)
    (o : option string) :
  JSON_serialize payload = inr o ->
  exists body, JSON_serialize (envelope event now payload) = inr (Some body).
Proof.
  intros H. unfold envelope. cbn [JSON_serialize]. rewrite H.
  destruct o; eexists; reflexivity.
Qed.

Lemma envelope_throws (event : string) (now : Z) (payload : JsValue) (e : JsError) :
  JSON_serialize payload = inl e ->
  JSON_serialize (envelope event now payload) = inl e.
Proof.
  intros H. unfold envelope. cbn [JSON_serialize]. rewrite H. reflexivity.
Qed.

Lemma same_instance_refl (st : St) : same_instance st st.
Proof. unfold same_instance. repeat split. Qed.

Lemma same_instance_trans (a b c : St) :
  same_instance a b -> same_instance b c -> same_instance a c.
Proof.
  unfold same_instance.
  intros (A1 & A2 & A3 & A4 & A5 & A6 & A7 & A8 & A9 & A10)
         (B1 & B2 & B3 & B4 & B5 & B6 & B7 & B8 & B9 & B10).
  repeat split; congruence.
Qed.

(** One pass of the loop over a serialisable payload. *)
Lemma emitWebhookLoop_posts (entries : JsMap WebhookConfig) (event : string)
    (payload : JsValue) (body : string) :
  forall st : St,
    JSON_serialize (envelope event (clock st) payload) = inr (Some body) ->
    fst (emitWebhookLoop entries event payload st) = Return tt
    /\ same_instance st (snd (emitWebhookLoop entries event payload st))
    /\ posts_of (trace (snd (emitWebhookLoop entries event payload st)))
       = (posts_of (trace st)
          ++ map (fun entry => (wh_url (snd entry), body))
               (subscribed event entries))%list
    /\ hook_calls (snd (emitWebhookLoop entries event payload st))
       = (hook_calls st + List.length (subscribed event entries))%nat
    /\ console_errors_of (trace (snd (emitWebhookLoop entries event payload st)))
       = (console_errors_of (trace st)
          ++ rejected_posts (hook st) (hook_calls st)
               (subscribed event entries))%list.
Proof.
  induction entries as [|[id webhook] r IH]; intros st Hser.
  - simpl. rewrite !app_nil_r, Nat.add_0_r.
    repeat split.
  - simpl emitWebhookLoop. unfold bind. unfold subscribed. simpl filter.
    fold (subscribed event r).
    destruct (existsb (String.eqb event) (events webhook)) eqn:Esub.
    + unfold tryCatch, sendWebhook. unfold envelope in Hser. rewrite Hser.
      destruct (hook st (hook_calls st)) eqn:Eh.
      * match goal with
        | |- context [emitWebhookLoop r event payload ?s] => set (st1 := s)
        end.
        destruct (IH st1 Hser) as (R1 & R2 & R3 & R4 & R5).
        rewrite R1, R3, R4, R5. subst st1.
        cbn [trace hook hook_calls perform set_hook_calls].
        rewrite posts_of_app, console_errors_of_app. cbn [posts_of console_errors_of].
        simpl map. simpl rejected_posts. rewrite Eh.
        rewrite <- ?app_assoc, ?app_nil_r. simpl app.
        split; [reflexivity | split; [| split; [reflexivity | split]]].
        -- eapply same_instance_trans; [| exact R2].
           unfold same_instance. repeat split.
        -- simpl List.length. lia.
        -- reflexivity.
      * unfold run.
        match goal with
        | |- context [emitWebhookLoop r event payload ?s] => set (st1 := s)
        end.
        destruct (IH st1 Hser) as (R1 & R2 & R3 & R4 & R5).
        rewrite R1, R3, R4, R5. subst st1.
        cbn [trace hook hook_calls perform set_hook_calls].
        rewrite !posts_of_app, !console_errors_of_app.
        cbn [posts_of console_errors_of].
        simpl map. simpl rejected_posts. rewrite Eh.
        rewrite <- ?app_assoc, ?app_nil_r. simpl app.
        split; [reflexivity | split; [| split; [reflexivity | split]]].
        -- eapply same_instance_trans; [| exact R2].
           unfold same_instance. repeat split.
        -- simpl List.length. lia.
        -- reflexivity.
    + unfold ret. apply IH. exact Hser.
Qed.

Lemma targets_of_posts (tr : list Effect) (subs : JsMap WebhookConfig) (body : string) :
  map fst (posts_of tr ++ map (fun entry => (wh_url (snd entry), body)) subs)%list
  = (targets_of tr ++ map (fun entry => wh_url (snd entry)) subs)%list.
Proof.
  unfold targets_of. rewrite map_app, map_map. reflexivity.
Qed.

(** X1.  [emitWebhook] posts an event whose payload serialises once to every
    webhook registered for it, in the order of registration, and to no
    other; a rejected post is reported on the console and not repeated,
    whatever the retry policy of the webhook says; the call itself never
    throws. *)
Theorem emitWebhook_posts_once :
  forall (event : string) (payload : JsValue) (o : option string) (st : St),
    JSON_serialize payload = inr o ->
    fst (emitWebhook event payload st) = Return tt
    /\ targets_of (trace (snd (emitWebhook event payload st)))
       = (targets_of (trace st) ++ subscribers event (webhooks st))%list
    /\ hook_calls (snd (emitWebhook event payload st))
       = (hook_calls st + List.length (subscribers event (webhooks st)))%nat
    /\ console_errors_of (trace (snd (emitWebhook event payload st)))
       = (console_errors_of (trace st)
          ++ rejected_posts (hook st) (hook_calls st)
               (subscribed event (webhooks st)))%list.
Proof.
  intros event payload o st Hser.
  destruct (envelope_serialises event (clock st) payload o Hser) as [body Hbody].
  unfold emitWebhook.
  destruct (emitWebhookLoop_posts (webhooks st) event payload body st Hbody)
    as (R1 & _ & R3 & R4 & R5).
  split; [exact R1 |]. split; [| split; [| exact R5]].
  - unfold targets_of at 1. rewrite R3. apply targets_of_posts.
  - rewrite R4. unfold subscribers. rewrite length_map. reflexivity.
Qed.

Lemma emitWebhook_posts_once_witness :
  fst (emitWebhook "api_failure" Sample.payment Sample.hooked_layer) = Return tt
  /\ targets_of (trace (snd (emitWebhook "api_failure" Sample.payment
                              Sample.hooked_layer)))
     = (targets_of (trace Sample.hooked_layer)
        ++ subscribers "api_failure" (webhooks Sample.hooked_layer))%list
  /\ hook_calls (snd (emitWebhook "api_failure" Sample.payment Sample.hooked_layer))
     = (hook_calls Sample.hooked_layer
        + List.length (subscribers "api_failure" (webhooks Sample.hooked_layer)))%nat
  /\ console_errors_of
       (trace (snd (emitWebhook "api_failure" Sample.payment Sample.hooked_layer)))
     = (console_errors_of (trace Sample.hooked_layer)
        ++ rejected_posts (hook Sample.hooked_layer) (hook_calls Sample.hooked_layer)
             (subscribed "api_failure" (webhooks Sample.hooked_layer)))%list.
Proof.
  eapply emitWebhook_posts_once. vm_compute. reflexivity.
Defined.

End WebhookDelivery.

(* ------------------------------------------------------------------ *)
(** * Integration layer: the stages of a call *)

Section RequestStages.
Import Js Layer Spec.

(** The state a call ends in, by the stage at which it ends. *)
Lemma request_stages (cfg : AxiosRequestConfig) (st : St) :
  match fst (generateCacheKey cfg st) with
  | Raise _ => snd (request cfg st) = st
  | Return key =>
      let looked := checkCache cfg key (clock st) st in
      match fst looked with
      | Return (Some r) => request cfg st = (Return r, snd looked)
      | Return None =>
          let sent :=
            makeRequestWithRetry cfg (snd (checkRateLimit (snd looked))) in
          match fst sent with
          | Return response =>
              snd (request cfg st)
              = if cacheable cfg (snd sent)
                then setCache key (resp_data response) (snd sent)
                else snd sent
          | Raise (ThrowErr e) =>
              snd (request cfg st)
              = snd (emitWebhook "api_failure"
                       (failure_payload cfg e (clock (snd sent) - clock st))
                       (snd sent))
          | Raise ThrowUndefined => snd (request cfg st) = snd sent
          end
      | Raise _ => False
      end
  end.
Proof.
  unfold request, bind, Date_now, tryCatch.
  destruct (generateCacheKey_pure cfg st st) as [_ Hst].
  destruct (generateCacheKey cfg st) as [[key | t] st0] eqn:E;
    simpl in Hst; subst st0; simpl fst; cbv iota; [| reflexivity].
  cbv zeta.
  destruct (checkCache_frame cfg key (clock st) st) as ([early He] & _).
  destruct (checkCache cfg key (clock st) st) as [res st1] eqn:Ec.
  simpl in He. subst res. simpl fst. simpl snd. cbv iota.
  destruct early as [r |]; [reflexivity |].
  rewrite checkRateLimit_step. cbv zeta. simpl snd.
  match goal with
  | |- context [makeRequestWithRetry cfg ?s] => set (st2 := s)
  end.
  destruct (makeRequestWithRetry cfg st2) as [[response | t] st3] eqn:Em;
    simpl fst; simpl snd; cbv iota.
  - unfold run, ret. destruct (cacheable cfg st3); reflexivity.
  - destruct t as [e |]; [| reflexivity].
    unfold failure_payload.
    destruct (emitWebhook _ _ st3) as [[[] | t] st4]; reflexivity.
Qed.

Lemma sendWebhook_same_instance (webhook : WebhookConfig) (event : string)
    (payload : JsValue) (st : St) :
  same_instance st (snd (sendWebhook webhook event payload st)).
Proof.
  unfold sendWebhook, same_instance.
  destruct (JSON_serialize _) as [e | body]; [repeat split |].
  destruct (hook st (hook_calls st)); repeat split.
Qed.

Lemma emitWebhookLoop_same_instance (entries : JsMap WebhookConfig) (event : string)
    (payload : JsValue) :
  forall st : St, same_instance st (snd (emitWebhookLoop entries event payload st)).
Proof.
  induction entries as [|[id webhook] r IH]; intros st; simpl.
  - apply same_instance_refl.
  - unfold bind. destruct (existsb (String.eqb event) (events webhook)).
    + unfold tryCatch.
      pose proof (sendWebhook_same_instance webhook event payload st) as Hs.
      destruct (sendWebhook webhook event payload st) as [[[] | t] st1];
        simpl snd in Hs.
      * eapply same_instance_trans; [exact Hs | apply IH].
      * unfold run. eapply same_instance_trans; [exact Hs |].
        eapply same_instance_trans; [| apply IH].
        unfold same_instance. repeat split.
    + unfold ret. apply IH.
Qed.

(** An event that no webhook is registered for is not delivered at all. *)
Lemma emitWebhookLoop_unsubscribed (entries : JsMap WebhookConfig) (event : string)
    (payload : JsValue) :
  forall st : St,
    subscribed event entries = [] ->
    emitWebhookLoop entries event payload st = (Return tt, st).
Proof.
  induction entries as [|[id webhook] r IH]; intros st H; simpl; [reflexivity |].
  unfold subscribed in H. simpl in H. unfold bind.
  destruct (existsb (String.eqb event) (events webhook)); [discriminate |].
  unfold ret. apply IH. exact H.
Qed.

Lemma checkCache_surroundings (cfg : AxiosRequestConfig) (key : string)
    (startTime : Z) (st : St) :
  let st1 := snd (checkCache cfg key startTime st) in
  config st1 = config st
  /\ rateLimitConfig st1 = rateLimitConfig st
  /\ cacheConfig st1 = cacheConfig st
  /\ webhooks st1 = webhooks st
  /\ trace st1 = trace st
  /\ unaccounted (metrics st1) = unaccounted (metrics st)
  /\ (cacheable cfg st = false -> st1 = st).
Proof.
  cbv zeta. unfold checkCache.
  destruct (cacheable cfg st); [| repeat split].
  unfold getFromCache. destruct (map_get (cache st) key) as [item |];
    [destruct (ttl (cacheConfig st) <? clock st - timestamp item);
     [| destruct (truthy (item_data item))] |];
    repeat split; discriminate.
Qed.

Lemma setCache_surroundings (key : string) (value : JsValue) (st : St) :
  config (setCache key value st) = config st
  /\ rateLimitConfig (setCache key value st) = rateLimitConfig st
  /\ webhooks (setCache key value st) = webhooks st
  /\ trace (setCache key value st) = trace st
  /\ metrics (setCache key value st) = metrics st.
Proof.
  unfold setCache, evictFromCache, evictLRU, evictFIFO, evictLFU.
  destruct (map_size (cache st) >=? maxSize (cacheConfig st)); [| repeat split].
  destruct (strategy (cacheConfig st)).
  - destruct (truthy _); repeat split.
  - destruct (cache st) as [|[k it] r]; [repeat split |].
    destruct (truthy _); repeat split.
  - destruct (truthy _); repeat split.
Qed.

End RequestStages.

(* ------------------------------------------------------------------ *)
(** * Integration layer: what a call counts and what it leaves alone *)

Section RequestAccounting.
Import Js Layer Spec.

Lemma retryLoop_counts_attempts (cfg : AxiosRequestConfig) (fuel : nat) :
  forall (attempt : Z) (lastError : Thrown) (st : St),
    totalRequests (metrics (snd (retryLoop fuel attempt lastError cfg st)))
    - Z.of_nat (http_calls (snd (retryLoop fuel attempt lastError cfg st)))
    = totalRequests (metrics st) - Z.of_nat (http_calls st).
Proof.
  induction fuel as [|fuel IH]; intros attempt lastError st.
  - reflexivity.
  - destruct (http st (http_calls st) cfg) as [elapsed r | elapsed e] eqn:E.
    + rewrite (retryLoop_success cfg _ _ _ _ _ _ E). simpl snd.
      destruct (attempt_succeeded_frame cfg elapsed r st) as (_ & -> & -> & _). lia.
    + rewrite (retryLoop_failure cfg _ _ _ _ _ _ E). rewrite IH.
      destruct (attempt_failed_frame cfg attempt elapsed e st)
        as (_ & _ & -> & -> & _).
      lia.
Qed.

Lemma checkRateLimit_counts (st : St) :
  totalRequests (metrics (snd (checkRateLimit st))) = totalRequests (metrics st).
Proof.
  rewrite checkRateLimit_step. cbv zeta.
  destruct (Z.of_nat (List.length (pruned st)) >=? maxRequests (rateLimitConfig st));
    [destruct (ext_gtb _ 0) |]; reflexivity.
Qed.

Lemma checkCache_counts (cfg : AxiosRequestConfig) (key : string) (startTime : Z)
    (st : St) :
  totalRequests (metrics (snd (checkCache cfg key startTime st)))
  = totalRequests (metrics st)
  /\ hook_calls (snd (checkCache cfg key startTime st)) = hook_calls st.
Proof.
  unfold checkCache.
  destruct (cacheable cfg st); [| split; reflexivity].
  unfold getFromCache. destruct (map_get (cache st) key) as [item |];
    [destruct (ttl (cacheConfig st) <? clock st - timestamp item);
     [| destruct (truthy (item_data item))] |];
    split; reflexivity.
Qed.

Lemma setCache_counts (key : string) (value : JsValue) (st : St) :
  http_calls (setCache key value st) = http_calls st
  /\ hook_calls (setCache key value st) = hook_calls st.
Proof.
  unfold setCache, evictFromCache, evictLRU, evictFIFO, evictLFU.
  destruct (map_size (cache st) >=? maxSize (cacheConfig st)); [| split; reflexivity].
  destruct (strategy (cacheConfig st)).
  - destruct (truthy _); split; reflexivity.
  - destruct (cache st) as [|[k it] r]; [split; reflexivity |].
    destruct (truthy _); split; reflexivity.
  - destruct (truthy _); split; reflexivity.
Qed.

(** The stages of a call that is not answered from the cache, up to the
    answer of the network. *)
Lemma request_sent_surroundings (cfg : AxiosRequestConfig) (key : string) (st : St) :
  let st1 := snd (checkCache cfg key (clock st) st) in
  let st3 := snd (makeRequestWithRetry cfg (snd (checkRateLimit st1))) in
  same_surroundings st1 st3
  /\ totalRequests (metrics st3) - Z.of_nat (http_calls st3)
     = totalRequests (metrics st) - Z.of_nat (http_calls st).
Proof.
  cbv zeta. split.
  - eapply same_surroundings_trans; [apply checkRateLimit_surroundings |].
    apply retryLoop_surroundings.
  - unfold makeRequestWithRetry. rewrite retryLoop_counts_attempts.
    rewrite checkRateLimit_counts.
    destruct (checkRateLimit_frame (snd (checkCache cfg key (clock st) st)))
      as (_ & _ & _ & _ & _ & _ & _ & ->).
    destruct (checkCache_counts cfg key (clock st) st) as [-> _].
    destruct (checkCache_frame cfg key (clock st) st) as (_ & _ & _ & ->).
    reflexivity.
Qed.

(** X2.  Whatever a call of [request] does, every HTTP attempt it makes is
    counted once in [totalRequests] and once in either [successfulRequests]
    or [failedRequests]; a call answered from the cache, or one that throws
    before the [try] block, counts in none of the three. *)
Theorem request_counts_every_attempt :
  forall (cfg : AxiosRequestConfig) (st : St),
    totalRequests (metrics (snd (request cfg st))) - totalRequests (metrics st)
    = Z.of_nat (http_calls (snd (request cfg st))) - Z.of_nat (http_calls st)
    /\ unaccounted (metrics (snd (request cfg st))) = unaccounted (metrics st).
Proof.
  intros cfg st. pose proof (request_stages cfg st) as H.
  destruct (fst (generateCacheKey cfg st)) as [key | t]; [| rewrite H; split; lia].
  cbv zeta in H.
  destruct (checkCache_surroundings cfg key (clock st) st)
    as (_ & _ & _ & _ & _ & Hu1 & _).
  destruct (checkCache_counts cfg key (clock st) st) as [Ht1 _].
  destruct (checkCache_frame cfg key (clock st) st) as (_ & _ & _ & Hc1).
  destruct (fst (checkCache cfg key (clock st) st)) as [[r |] | t]; [| | contradiction].
  - rewrite H. simpl snd. rewrite Ht1, Hc1, Hu1. split; lia.
  - destruct (request_sent_surroundings cfg key st) as [Hs Hn]. cbv zeta in Hs, Hn.
    destruct Hs as (_ & _ & _ & _ & _ & _ & _ & _ & _ & Hu3 & _).
    set (sent := makeRequestWithRetry cfg
                   (snd (checkRateLimit (snd (checkCache cfg key (clock st) st))))) in *.
    destruct (fst sent) as [response | [e |]]; rewrite H.
    + destruct (cacheable cfg (snd sent)).
      * destruct (setCache_surroundings key (resp_data response) (snd sent))
          as (_ & _ & _ & _ & ->).
        destruct (setCache_counts key (resp_data response) (snd sent)) as [-> _].
        rewrite Hu3, Hu1. split; lia.
      * rewrite Hu3, Hu1. split; lia.
    + pose proof (emitWebhookLoop_same_instance (webhooks (snd sent)) "api_failure"
                    (failure_payload cfg e (clock (snd sent) - clock st)) (snd sent))
        as (_ & _ & _ & Hm & _ & _ & _ & _ & _ & Hc).
      unfold emitWebhook. rewrite Hm, Hc, Hu3, Hu1. split; lia.
    + rewrite Hu3, Hu1. split; lia.
Qed.

End RequestAccounting.

(* ------------------------------------------------------------------ *)
(** * Integration layer: calls that bypass the cache or the webhooks *)

Section RequestFrames.
Import Js Layer Spec.

(** What no call of [request] changes. *)
Lemma request_keeps_configuration (cfg : AxiosRequestConfig) (st : St) :
  config (snd (request cfg st)) = config st
  /\ rateLimitConfig (snd (request cfg st)) = rateLimitConfig st
  /\ cacheConfig (snd (request cfg st)) = cacheConfig st
  /\ webhooks (snd (request cfg st)) = webhooks st.
Proof.
  pose proof (request_stages cfg st) as H.
  destruct (fst (generateCacheKey cfg st)) as [key | t];
    [| rewrite H; repeat split].
  cbv zeta in H.
  destruct (checkCache_surroundings cfg key (clock st) st)
    as (C1 & C2 & C3 & C4 & _).
  destruct (fst (checkCache cfg key (clock st) st)) as [[r |] | t]; [| | contradiction].
  - rewrite H. simpl snd. repeat split; assumption.
  - destruct (request_sent_surroundings cfg key st) as [Hs _]. cbv zeta in Hs.
    destruct Hs as (S1 & S2 & S3 & _ & S5 & _).
    set (sent := makeRequestWithRetry cfg
                   (snd (checkRateLimit (snd (checkCache cfg key (clock st) st))))) in *.
    destruct (fst sent) as [response | [e |]]; rewrite H.
    + destruct (cacheable cfg (snd sent)).
      * destruct (setCache_surroundings key (resp_data response) (snd sent))
          as (-> & -> & -> & _).
        destruct (setCache_stores key (resp_data response) (snd sent)) as (_ & _ & ->).
        repeat split; congruence.
      * repeat split; congruence.
    + pose proof (emitWebhookLoop_same_instance (webhooks (snd sent)) "api_failure"
                    (failure_payload cfg e (clock (snd sent) - clock st)) (snd sent))
        as (E1 & E2 & E3 & _ & _ & _ & E7 & _).
      unfold emitWebhook. repeat split; congruence.
    + repeat split; congruence.
Qed.

(** A call that is not cacheable neither reads nor writes the cache. *)
Lemma request_not_cacheable (cfg : AxiosRequestConfig) (st : St) :
  cacheable cfg st = false ->
  cache (snd (request cfg st)) = cache st
  /\ cacheHits (metrics (snd (request cfg st))) = cacheHits (metrics st)
  /\ cacheMisses (metrics (snd (request cfg st))) = cacheMisses (metrics st).
Proof.
  intros Hc. pose proof (request_stages cfg st) as H.
  destruct (fst (generateCacheKey cfg st)) as [key | t];
    [| rewrite H; repeat split].
  cbv zeta in H.
  destruct (checkCache_surroundings cfg key (clock st) st)
    as (_ & _ & _ & _ & _ & _ & Hsame).
  specialize (Hsame Hc).
  destruct (fst (checkCache cfg key (clock st) st)) as [[r |] | t]; [| | contradiction].
  - rewrite H. simpl snd. rewrite Hsame. repeat split.
  - destruct (request_sent_surroundings cfg key st) as [Hs _]. cbv zeta in Hs.
    rewrite Hsame in Hs, H.
    destruct Hs as (_ & _ & S3 & S4 & _ & _ & _ & S8 & S9 & _).
    set (sent := makeRequestWithRetry cfg (snd (checkRateLimit st))) in *.
    assert (Hc3 : cacheable cfg (snd sent) = false).
    { unfold cacheable in *. rewrite S3. exact Hc. }
    destruct (fst sent) as [response | [e |]]; rewrite H.
    + rewrite Hc3. repeat split; assumption.
    + pose proof (emitWebhookLoop_same_instance (webhooks (snd sent)) "api_failure"
                    (failure_payload cfg e (clock (snd sent) - clock st)) (snd sent))
        as (_ & _ & _ & E4 & E5 & _).
      unfold emitWebhook. rewrite E4, E5. repeat split; assumption.
    + repeat split; assumption.
Qed.

(** X3.  [post], [put] and [delete] neither read nor write the cache,
    whatever its configuration, and with the cache disabled no call does:
    the entries, their access counts and the counters [cacheHits] and
    [cacheMisses] are what they were. *)
Theorem writes_bypass_the_cache :
  forall (u : string) (body : JsValue) (cfg : AxiosRequestConfig) (st : St),
    let untouched (st' : St) :=
      cache st' = cache st
      /\ cacheHits (metrics st') = cacheHits (metrics st)
      /\ cacheMisses (metrics st') = cacheMisses (metrics st) in
    untouched (snd (post u body cfg st))
    /\ untouched (snd (put u body cfg st))
    /\ untouched (snd (delete u cfg st))
    /\ (enabled (cacheConfig st) = false ->
        untouched (snd (get u cfg st)) /\ untouched (snd (request cfg st))).
Proof.
  intros u body cfg st. cbv zeta.
  split; [apply request_not_cacheable; unfold cacheable;
          apply andb_false_intro2; reflexivity |].
  split; [apply request_not_cacheable; unfold cacheable;
          apply andb_false_intro2; reflexivity |].
  split; [apply request_not_cacheable; unfold cacheable;
          apply andb_false_intro2; reflexivity |].
  intros Hoff.
  split; apply request_not_cacheable; unfold cacheable; rewrite Hoff; reflexivity.
Qed.

(** On an instance none of whose webhooks is registered for
    ['api_failure'] a call posts to no webhook, however it ends. *)
Lemma request_without_subscribers (cfg : AxiosRequestConfig) (st : St) :
  subscribed "api_failure" (webhooks st) = [] ->
  posts_of (trace (snd (request cfg st))) = posts_of (trace st)
  /\ hook_calls (snd (request cfg st)) = hook_calls st.
Proof.
  intros Hsub. pose proof (request_stages cfg st) as H.
  destruct (fst (generateCacheKey cfg st)) as [key | t];
    [| rewrite H; repeat split].
  cbv zeta in H.
  destruct (checkCache_surroundings cfg key (clock st) st)
    as (_ & _ & _ & C4 & C5 & _).
  destruct (checkCache_counts cfg key (clock st) st) as [_ C6].
  destruct (fst (checkCache cfg key (clock st) st)) as [[r |] | t]; [| | contradiction].
  - rewrite H. simpl snd. rewrite C5, C6. split; reflexivity.
  - destruct (request_sent_surroundings cfg key st) as [Hs _]. cbv zeta in Hs.
    destruct Hs as (_ & _ & _ & _ & S5 & _ & S7 & _ & _ & _ & S11).
    set (sent := makeRequestWithRetry cfg
                   (snd (checkRateLimit (snd (checkCache cfg key (clock st) st))))) in *.
    destruct (fst sent) as [response | [e |]]; rewrite H.
    + destruct (cacheable cfg (snd sent)).
      * destruct (setCache_surroundings key (resp_data response) (snd sent))
          as (_ & _ & _ & -> & _).
        destruct (setCache_counts key (resp_data response) (snd sent)) as [_ ->].
        split; congruence.
      * split; congruence.
    + unfold emitWebhook. rewrite emitWebhookLoop_unsubscribed by congruence.
      simpl snd. split; congruence.
    + split; congruence.
Qed.

(** What a call resolves or rejects with, by the stage at which it ends. *)
Lemma request_outcomes (cfg : AxiosRequestConfig) (st : St) :
  match fst (generateCacheKey cfg st) with
  | Raise t => fst (request cfg st) = Raise t
  | Return key =>
      let looked := checkCache cfg key (clock st) st in
      match fst looked with
      | Return (Some r) => fst (request cfg st) = Return r
      | Return None =>
          let sent :=
            makeRequestWithRetry cfg (snd (checkRateLimit (snd looked))) in
          match fst sent with
          | Return response =>
              fst (request cfg st)
              = Return {| success := true; data := Some (resp_data response);
                          error := None; statusCode := Some (status response);
                          responseTime := Some (clock (snd sent) - clock st);
                          cached := None |}
          | Raise (ThrowErr e) =>
              fst (request cfg st)
              = Return {| success := false; data := None; error := Some (message e);
                          statusCode := response_status e;
                          responseTime := Some (clock (snd sent) - clock st);
                          cached := None |}
          | Raise ThrowUndefined =>
              fst (request cfg st)
              = Raise (ThrowErr (TypeError
                  "Cannot read properties of undefined (reading 'message')"))
          end
      | Raise _ => False
      end
  end.
Proof.
  unfold request, bind, Date_now, tryCatch.
  destruct (generateCacheKey_pure cfg st st) as [_ Hst].
  destruct (generateCacheKey cfg st) as [[key | t] st0] eqn:E;
    simpl in Hst; subst st0; simpl fst; cbv iota; [| reflexivity].
  cbv zeta.
  destruct (checkCache_frame cfg key (clock st) st) as ([early He] & _).
  destruct (checkCache cfg key (clock st) st) as [res st1] eqn:Ec.
  simpl in He. subst res. simpl fst. simpl snd. cbv iota.
  destruct early as [r |]; [reflexivity |].
  rewrite checkRateLimit_step. cbv zeta. simpl snd.
  match goal with
  | |- context [makeRequestWithRetry cfg ?s] => set (st2 := s)
  end.
  destruct (makeRequestWithRetry cfg st2) as [[response | t] st3] eqn:Em;
    simpl fst; simpl snd; cbv iota.
  - unfold run, ret. destruct (cacheable cfg st3); [| reflexivity].
    destruct (setCache_stores key (resp_data response) st3) as (_ & Hclock & _).
    cbn [fst]. rewrite Hclock. reflexivity.
  - destruct t as [e |]; [| reflexivity].
    pose proof (emitWebhook_returns "api_failure"
                  (JObject [("error", JString (message e));
                            ("config", config_value cfg);
                            ("responseTime", JNumber (clock st3 - clock st))]) st3)
      as Hw.
    destruct (emitWebhook _ _ st3) as [res st4]. simpl in Hw. subst res.
    reflexivity.
Qed.



Lemma calls_keep_webhooks (cs : list (Z * AxiosRequestConfig)) :
  forall st : St, webhooks (calls cs st) = webhooks st.
Proof.
  induction cs as [|[t cfg] r IH]; intros st; [reflexivity |].
  unfold calls in *. simpl fold_left. rewrite IH.
  destruct (request_keeps_configuration cfg (set_clock t st)) as (_ & _ & _ & ->).
  reflexivity.
Qed.

Lemma calls_post_nothing (cs : list (Z * AxiosRequestConfig)) :
  forall st : St,
    subscribed "api_failure" (webhooks st) = [] ->
    posts_of (trace (calls cs st)) = posts_of (trace st)
    /\ hook_calls (calls cs st) = hook_calls st.
Proof.
  induction cs as [|[t cfg] r IH]; intros st Hsub; [split; reflexivity |].
  unfold calls in *. simpl fold_left.
  destruct (request_keeps_configuration cfg (set_clock t st)) as (_ & _ & _ & Hw).
  destruct (request_without_subscribers cfg (set_clock t st) Hsub) as [Hp Hc].
  destruct (IH (snd (request cfg (set_clock t st)))) as [-> ->].
  - rewrite Hw. exact Hsub.
  - split; assumption.
Qed.

End RequestFrames.

(* ------------------------------------------------------------------ *)
(** * Integration layer: when a call rejects *)

Section RequestRejection.
Import Js Layer Spec.

Lemma checkCache_keeps_config (cfg : AxiosRequestConfig) (key : string) (st : St) :
  config (snd (checkRateLimit (snd (checkCache cfg key (clock st) st)))) = config st.
Proof.
  destruct (checkRateLimit_frame (snd (checkCache cfg key (clock st) st)))
    as (_ & -> & _).
  destruct (checkCache_frame cfg key (clock st) st) as (_ & -> & _).
  reflexivity.
Qed.

(** X5.  [request] rejects in two cases only: the cache key cannot be made
    (the body or the parameters do not serialise), or the call is not
    answered from the cache and [retryAttempts] is negative, so that the
    retry loop never runs and throws [undefined].  In every other case the
    call resolves, failures included. *)
Theorem request_rejects_exactly_when :
  forall (cfg : AxiosRequestConfig) (st : St),
    (exists t, fst (request cfg st) = Raise t)
    <-> ((exists t, fst (generateCacheKey cfg st) = Raise t)
         \/ (exists key,
                fst (generateCacheKey cfg st) = Return key
                /\ fst (checkCache cfg key (clock st) st) = Return None
                /\ retryAttempts (config st) < 0)).
Proof.
  intros cfg st. pose proof (request_outcomes cfg st) as O.
  destruct (fst (generateCacheKey cfg st)) as [key | t].
  2:{ split; [intros _; left; eexists; reflexivity |].
      intros _. exists t. exact O. }
  cbv zeta in O.
  pose proof (checkCache_keeps_config cfg key st) as Hcfg.
  destruct (fst (checkCache cfg key (clock st) st)) as [[r |] | t] eqn:Ec;
    [| | contradiction].
  - split.
    + intros [t Ht]. rewrite O in Ht. discriminate.
    + intros [[t Ht] | (k & Hk & Hc & _)]; [discriminate |].
      injection Hk as <-. rewrite Ec in Hc. discriminate.
  - set (st2 := snd (checkRateLimit (snd (checkCache cfg key (clock st) st)))) in *.
    pose proof (retryLoop_throws_an_error cfg
                  (Z.to_nat (retryAttempts (config st2) + 1)) 0 ThrowUndefined st2)
      as Hthrow.
    change (retryLoop (Z.to_nat (retryAttempts (config st2) + 1)) 0 ThrowUndefined
              cfg st2) with (makeRequestWithRetry cfg st2) in Hthrow.
    destruct (Z_lt_le_dec (retryAttempts (config st)) 0) as [Hneg | Hpos].
    + assert (Hm : fst (makeRequestWithRetry cfg st2) = Raise ThrowUndefined).
      { unfold makeRequestWithRetry. rewrite Hcfg.
        replace (Z.to_nat (retryAttempts (config st) + 1)) with 0%nat by lia.
        reflexivity. }
      rewrite Hm in O. split.
      * intros _. right. exists key. split; [reflexivity | split; [exact Ec | exact Hneg]].
      * intros _. eexists. exact O.
    + split.
      * intros [t Ht].
        destruct (fst (makeRequestWithRetry cfg st2)) as [response | [e |]];
          rewrite O in Ht; try discriminate.
        exfalso. apply Hthrow; [| reflexivity]. left. rewrite Hcfg. lia.
      * intros [[t Ht] | (k & _ & _ & Hk)]; [discriminate | lia].
Qed.

End RequestRejection.

(* ------------------------------------------------------------------ *)
(** * Integration layer: requests made around the retry loop *)

Section SideDoors.
Import Js Layer Spec.

(** X6.  [healthCheck] never rejects and reports [healthy] exactly when the
    probe is answered.  The probe goes through the interceptors but not
    through the retry loop: it is counted as a success or as a failure and
    not in [totalRequests], so that afterwards the two add up to one more
    than before against an unchanged total. *)
Theorem healthCheck_is_counted_without_total :
  forall st : St,
    exists result,
      fst (healthCheck st) = Return result
      /\ (healthy result = true
          <-> exists elapsed r,
                http st (http_calls st) health_request = HttpOk elapsed r)
      /\ details_metrics result = metrics (snd (healthCheck st))
      /\ http_calls (snd (healthCheck st)) = S (http_calls st)
      /\ totalRequests (metrics (snd (healthCheck st))) = totalRequests (metrics st)
      /\ unaccounted (metrics (snd (healthCheck st))) = unaccounted (metrics st) - 1.
Proof.
  intros st. unfold healthCheck, tryCatch, bind, Date_now, axios_request, unaccounted.
  destruct (http st (http_calls st) health_request) as [elapsed r | elapsed e];
    eexists; (split; [reflexivity |]); cbn [healthy details_metrics fst snd getMetrics].
  - split; [split; [intros _; eauto | reflexivity] |].
    unfold recordSuccess, updateAverageResponseTime.
    cbn [metrics http_calls perform set_metrics set_clock set_http_calls
         inc_successfulRequests set_averageResponseTime totalRequests
         successfulRequests failedRequests].
    repeat split; lia.
  - split; [split; [discriminate | intros (el & r & H); discriminate] |].
    unfold recordFailure.
    cbn [metrics http_calls perform set_metrics set_clock set_http_calls
         note_failure totalRequests successfulRequests failedRequests].
    repeat split; lia.
Qed.

(** X7.  [streamRequest] counts an answered request twice as a success, once
    in the interceptor and once itself, and once in [totalRequests]; a
    request that fails rejects the call and is counted as a failure only,
    [totalRequests] staying as it was. *)
Theorem streamRequest_counts_success_twice :
  forall (cfg : AxiosRequestConfig) (st : St),
    match http st (http_calls st) cfg with
    | HttpOk elapsed r =>
        fst (streamRequest cfg st) = Return (resp_data r)
        /\ totalRequests (metrics (snd (streamRequest cfg st)))
           = totalRequests (metrics st) + 1
        /\ successfulRequests (metrics (snd (streamRequest cfg st)))
           = successfulRequests (metrics st) + 2
        /\ failedRequests (metrics (snd (streamRequest cfg st)))
           = failedRequests (metrics st)
    | HttpErr elapsed e =>
        fst (streamRequest cfg st) = Raise (ThrowErr e)
        /\ totalRequests (metrics (snd (streamRequest cfg st)))
           = totalRequests (metrics st)
        /\ successfulRequests (metrics (snd (streamRequest cfg st)))
           = successfulRequests (metrics st)
        /\ failedRequests (metrics (snd (streamRequest cfg st)))
           = failedRequests (metrics st) + 1
    end.
Proof.
  intros cfg st. unfold streamRequest, bind, run, ret, axios_request.
  destruct (http st (http_calls st) cfg) as [elapsed r | elapsed e].
  - unfold recordSuccess, updateAverageResponseTime.
    cbn [fst snd metrics perform set_metrics set_clock set_http_calls
         inc_totalRequests inc_successfulRequests set_averageResponseTime
         totalRequests successfulRequests failedRequests].
    repeat split; lia.
  - unfold recordFailure.
    cbn [fst snd metrics perform set_metrics set_clock set_http_calls
         note_failure totalRequests successfulRequests failedRequests].
    repeat split; lia.
Qed.

End SideDoors.

(* ------------------------------------------------------------------ *)
(** * Banking integration *)

Section BankingWebhook.
Import Js Layer Spec.

(** X8.  The webhook that the banking integration registers listens for
    ['payment_completed'], ['payment_failed'] and ['account_updated'],
    none of which the integration layer ever hands to a webhook: whatever
    requests are made through the instance and however they end, nothing
    is posted to it. *)
Theorem banking_webhook_is_never_posted :
  forall (config : Banking.BankingConfig) (now : Z)
         (net : nat -> AxiosRequestConfig -> HttpOutcome) (hooks : nat -> bool)
         (cs : list (Z * AxiosRequestConfig)),
    let st := calls cs (Banking.new_BankingIntegration config now net hooks) in
    map_keys (webhooks st) = ["banking-events"]
    /\ posts_of (trace st) = []
    /\ hook_calls st = 0%nat.
Proof.
  intros config now net hooks cs. cbv zeta.
  rewrite calls_keep_webhooks.
  destruct (calls_post_nothing cs
              (Banking.new_BankingIntegration config now net hooks) eq_refl)
    as [-> ->].
  repeat split.
Qed.

End BankingWebhook.

(* ------------------------------------------------------------------ *)
(** * Integration layer: the size of the cache *)

Section CacheSize.
Import Js Layer Spec.

Lemma map_delete_size {V : Type} (m : JsMap V) (k : string) :
  (List.length (map_delete m k) <= List.length m <= S (List.length (map_delete m k)))%nat.
Proof.
  induction m as [|[k0 v0] r IH]; simpl; [lia |].
  destruct (String.eqb k0 k); simpl; lia.
Qed.

(** An eviction removes one key or none. *)
Lemma evictFromCache_cases (st : St) :
  evictFromCache st = st
  \/ exists k, evictFromCache st = set_cache (map_delete (cache st) k) st.
Proof.
  unfold evictFromCache, evictLRU, evictFIFO, evictLFU.
  destruct (strategy (cacheConfig st)).
  - destruct (truthy _); [right; eexists; reflexivity | left; reflexivity].
  - destruct (cache st) as [|[k it] r] eqn:E; [left; reflexivity |].
    destruct (truthy _); [right; eexists; reflexivity | left; reflexivity].
  - destruct (truthy _); [right; eexists; reflexivity | left; reflexivity].
Qed.

Lemma setCache_size (key : string) (value : JsValue) (st : St) :
  ~ In key (map_keys (cache st)) ->
  map_size (cache st) <= map_size (cache (setCache key value st))
  <= map_size (cache st) + 1.
Proof.
  intros Hfresh. unfold setCache.
  destruct (map_size (cache st) >=? maxSize (cacheConfig st)).
  - destruct (evictFromCache_cases st) as [-> | [k ->]]; cbn [cache set_cache].
    + rewrite map_set_absent by exact Hfresh.
      unfold map_size. rewrite length_app. simpl. lia.
    + rewrite map_set_absent
        by (intros Hin; apply Hfresh; apply (map_delete_keys _ k key Hin)).
      unfold map_size. rewrite length_app. simpl.
      pose proof (map_delete_size (cache st) k). lia.
  - cbn [cache set_cache]. rewrite map_set_absent by exact Hfresh.
    unfold map_size. rewrite length_app. simpl. lia.
Qed.

(** X9.  Storing a response under a new key evicts one entry at most: the
    cache never gets smaller.  In particular a cache that is above
    [maxSize], as after [updateCacheConfig] has lowered the bound, stays
    above it. *)
Theorem setCache_evicts_at_most_one :
  forall (key : string) (value : JsValue) (st : St),
    ~ In key (map_keys (cache st)) ->
    map_size (cache st) <= map_size (cache (setCache key value st))
    <= map_size (cache st) + 1
    /\ forall newConfig : PartialCacheConfig,
         map_size (cache st)
         <= map_size (cache (setCache key value (updateCacheConfig newConfig st))).
Proof.
  intros key value st Hfresh. split; [apply setCache_size; exact Hfresh |].
  intros newConfig.
  apply (setCache_size key value (updateCacheConfig newConfig st)). exact Hfresh.
Qed.

Lemma setCache_evicts_at_most_one_witness :
  let st := Sample.warm_layer fifo in
  map_size (cache st) <= map_size (cache (setCache "L2M=" (JString "c") st))
  <= map_size (cache st) + 1
  /\ forall newConfig : PartialCacheConfig,
       map_size (cache st)
       <= map_size (cache (setCache "L2M=" (JString "c")
                             (updateCacheConfig newConfig st))).
Proof.
  cbv zeta. apply setCache_evicts_at_most_one.
  vm_compute. intros [H | [H | []]]; discriminate H.
Defined.

(** X10.  An insert of a new key into a cache that is exactly full removes
    one entry and leaves the cache full: under FIFO the entry inserted
    first, under LFU an entry that no other undercuts in accesses, under
    LRU an entry of least timestamp, provided some entry was written
    before the current millisecond.  The new entry goes last. *)
Theorem setCache_at_capacity_evicts_by_strategy :
  forall (key : string) (value : JsValue) (st : St),
    map_size (cache st) = maxSize (cacheConfig st) ->
    1 <= maxSize (cacheConfig st) ->
    well_keyed (cache st) ->
    ~ In key (map_keys (cache st)) ->
    (strategy (cacheConfig st) = lru ->
     exists k it, In (k, it) (cache st) /\ timestamp it < clock st) ->
    exists victim item,
      In (victim, item) (cache st)
      /\ cache (setCache key value st)
         = (map_delete (cache st) victim ++ [(key, new_item value st)])%list
      /\ map_size (cache (setCache key value st)) = maxSize (cacheConfig st)
      /\ match strategy (cacheConfig st) with
         | fifo => exists rest, cache st = (victim, item) :: rest
         | lfu => forall k it, In (k, it) (cache st) -> hits item <= hits it
         | lru => forall k it, In (k, it) (cache st) -> timestamp item <= timestamp it
         end.
Proof.
  intros key value st Hsize Hcap Hwk Hfresh Hold.
  destruct (strategy (cacheConfig st)) eqn:Hs.
  - destruct (setCache_lru_evicts_oldest key value st Hs Hsize Hwk Hfresh (Hold eq_refl))
      as (victim & item & Hin & Hmin & Hc & Hn).
    exists victim, item. repeat split; assumption.
  - assert (Hne : exists fk fi rest, cache st = (fk, fi) :: rest).
    { destruct (cache st) as [|[fk fi] rest]; [| eauto].
      unfold map_size in Hsize. simpl in Hsize. lia. }
    destruct Hne as (fk & fi & rest & Hc).
    destruct (setCache_fifo_evicts_first key value st fk fi rest Hs Hc Hsize Hwk Hfresh)
      as [Hcache Hn].
    exists fk, fi. split; [rewrite Hc; left; reflexivity |].
    split; [| split; [exact Hn | exists rest; exact Hc]].
    rewrite Hcache, Hc. simpl map_delete. rewrite String.eqb_refl. reflexivity.
  - destruct (setCache_lfu_evicts_least_used key value st Hs Hsize Hcap Hwk Hfresh)
      as (victim & item & Hin & Hmin & Hc & Hn).
    exists victim, item. repeat split; assumption.
Qed.

Lemma setCache_at_capacity_evicts_by_strategy_witness :
  let st := Sample.warm_layer lru in
  exists victim item,
    In (victim, item) (cache st)
    /\ cache (setCache "L2M=" (JString "c") st)
       = (map_delete (cache st) victim ++ [("L2M=", new_item (JString "c") st)])%list
    /\ map_size (cache (setCache "L2M=" (JString "c") st)) = maxSize (cacheConfig st)
    /\ match strategy (cacheConfig st) with
       | fifo => exists rest, cache st = (victim, item) :: rest
       | lfu => forall k it, In (k, it) (cache st) -> hits item <= hits it
       | lru => forall k it, In (k, it) (cache st) -> timestamp item <= timestamp it
       end.
Proof.
  cbv zeta. apply setCache_at_capacity_evicts_by_strategy.
  - vm_compute. reflexivity.
  - vm_compute. discriminate.
  - split.
    + vm_compute. repeat constructor; simpl; intuition discriminate.
    + vm_compute. repeat constructor; discriminate.
  - vm_compute. intros [H | [H | []]]; discriminate H.
  - intros _. exists "eyJ1cmwiOiIvYSIsIm1ldGhvZCI6IkdFVCJ9".
    exists {| item_data := JString "payload"; timestamp := 1000; hits := 0 |}.
    vm_compute. split; [left; reflexivity | reflexivity].
Defined.

End CacheSize.

(* ------------------------------------------------------------------ *)
(** * Integration layer: entries that have outlived their time *)

Section CacheExpiry.
Import Js Layer Spec.

Lemma retryLoop_attempts_monotone (cfg : AxiosRequestConfig) (fuel : nat) :
  forall (attempt : Z) (lastError : Thrown) (st : St),
    (http_calls st <= http_calls (snd (retryLoop fuel attempt lastError cfg st)))%nat.
Proof.
  induction fuel as [|fuel IH]; intros attempt lastError st.
  - simpl. lia.
  - destruct (http st (http_calls st) cfg) as [elapsed r | elapsed e] eqn:E.
    + rewrite (retryLoop_success cfg _ _ _ _ _ _ E). simpl snd.
      destruct (attempt_succeeded_frame cfg elapsed r st) as (_ & -> & _). lia.
    + rewrite (retryLoop_failure cfg _ _ _ _ _ _ E).
      specialize (IH (attempt + 1) (ThrowErr e)
                    (attempt_failed cfg attempt elapsed e st)).
      destruct (attempt_failed_frame cfg attempt elapsed e st) as (_ & _ & Hc & _).
      rewrite Hc in IH. lia.
Qed.

Lemma retryLoop_attempts_once (cfg : AxiosRequestConfig) (fuel : nat)
    (attempt : Z) (lastError : Thrown) (st : St) :
  (http_calls st < http_calls (snd (retryLoop (S fuel) attempt lastError cfg st)))%nat.
Proof.
  destruct (http st (http_calls st) cfg) as [elapsed r | elapsed e] eqn:E.
  - rewrite (retryLoop_success cfg _ _ _ _ _ _ E). simpl snd.
    destruct (attempt_succeeded_frame cfg elapsed r st) as (_ & -> & _). lia.
  - rewrite (retryLoop_failure cfg _ _ _ _ _ _ E).
    pose proof (retryLoop_attempts_monotone cfg fuel (attempt + 1) (ThrowErr e)
                  (attempt_failed cfg attempt elapsed e st)) as Hm.
    destruct (attempt_failed_frame cfg attempt elapsed e st) as (_ & _ & Hc & _).
    rewrite Hc in Hm. lia.
Qed.

(** X11.  A GET whose cache entry has outlived [ttl] is not answered from
    it: the entry is dropped, the call counts a cache miss and goes to the
    network, and when it succeeds the response is stored under the same key
    as a new entry with no accesses. *)
Theorem expired_entry_is_fetched_again :
  forall (cfg : AxiosRequestConfig) (st : St) (key : string) (item : CacheItem),
    enabled (cacheConfig st) = true ->
    is_get cfg = true ->
    fst (generateCacheKey cfg st) = Return key ->
    map_get (cache st) key = Some item ->
    ttl (cacheConfig st) < clock st - timestamp item ->
    0 <= retryAttempts (config st) ->
    cacheHits (metrics (snd (request cfg st))) = cacheHits (metrics st)
    /\ cacheMisses (metrics (snd (request cfg st))) = cacheMisses (metrics st) + 1
    /\ (http_calls st < http_calls (snd (request cfg st)))%nat
    /\ exists r,
         fst (request cfg st) = Return r
         /\ cached r = None
         /\ (success r = true ->
             exists stored,
               map_get (cache (snd (request cfg st))) key = Some stored
               /\ data r = Some (item_data stored)
               /\ hits stored = 0).
Proof.
  intros cfg st key item Hen Hget Hkey Hitem Hage Hk.
  pose proof (request_stages cfg st) as H.
  pose proof (request_outcomes cfg st) as O.
  rewrite Hkey in H, O. cbv zeta in H, O.
  assert (Ec : checkCache cfg key (clock st) st
               = (Return None,
                  set_metrics (inc_cacheMisses (metrics st))
                    (set_cache (map_delete (cache st) key) st))).
  { unfold checkCache, cacheable. rewrite Hen, Hget. simpl andb. cbv iota.
    destruct (getFromCache_expired key st item Hitem Hage) as [-> _].
    reflexivity. }
  destruct (request_sent_surroundings cfg key st) as [Hs Hn]. cbv zeta in Hs, Hn.
  pose proof (checkCache_keeps_config cfg key st) as Hcfg.
  rewrite Ec in H, O, Hs, Hn, Hcfg. simpl fst in H, O. simpl snd in H, O, Hs, Hn, Hcfg.
  set (st1 := set_metrics (inc_cacheMisses (metrics st))
                (set_cache (map_delete (cache st) key) st)) in *.
  destruct Hs as (_ & _ & S3 & _ & _ & _ & _ & S8 & S9 & _).
  assert (Hcalls : (http_calls st < http_calls
                      (snd (makeRequestWithRetry cfg (snd (checkRateLimit st1)))))%nat).
  { unfold makeRequestWithRetry. rewrite Hcfg.
    replace (Z.to_nat (retryAttempts (config st) + 1))
      with (S (Z.to_nat (retryAttempts (config st)))) by lia.
    pose proof (retryLoop_attempts_once cfg (Z.to_nat (retryAttempts (config st))) 0
                  ThrowUndefined (snd (checkRateLimit st1))) as Hone.
    destruct (checkRateLimit_frame st1) as (_ & _ & _ & _ & _ & _ & _ & Hc).
    rewrite Hc in Hone. exact Hone. }
  pose proof (retryLoop_throws_an_error cfg
                (Z.to_nat (retryAttempts (config (snd (checkRateLimit st1))) + 1)) 0
                ThrowUndefined (snd (checkRateLimit st1))) as Hthrow.
  change (retryLoop _ 0 ThrowUndefined cfg (snd (checkRateLimit st1)))
    with (makeRequestWithRetry cfg (snd (checkRateLimit st1))) in Hthrow.
  set (sent := makeRequestWithRetry cfg (snd (checkRateLimit st1))) in *.
  assert (Hc3 : cacheable cfg (snd sent) = true).
  { unfold cacheable. rewrite S3. subst st1. cbn [cacheConfig set_metrics set_cache].
    rewrite Hen, Hget. reflexivity. }
  destruct (fst sent) as [response | [e |]].
  - rewrite H, Hc3.
    destruct (setCache_surroundings key (resp_data response) (snd sent))
      as (_ & _ & _ & _ & ->).
    destruct (setCache_counts key (resp_data response) (snd sent)) as [-> _].
    destruct (setCache_stores key (resp_data response) (snd sent)) as (Hst & _).
    rewrite S8, S9. subst st1.
    cbn [metrics set_metrics set_cache inc_cacheMisses cacheHits cacheMisses].
    repeat split; try lia.
    eexists. split; [exact O |]. split; [reflexivity |].
    intros _. eexists. split; [exact Hst |]. split; reflexivity.
  - rewrite H.
    pose proof (emitWebhookLoop_same_instance (webhooks (snd sent)) "api_failure"
                  (failure_payload cfg e (clock (snd sent) - clock st)) (snd sent))
      as (_ & _ & _ & E4 & _ & _ & _ & _ & _ & E10).
    unfold emitWebhook. rewrite E4, E10, S8, S9. subst st1.
    cbn [metrics set_metrics set_cache inc_cacheMisses cacheHits cacheMisses].
    repeat split; try lia.
    eexists. split; [exact O |]. split; [reflexivity |]. discriminate.
  - exfalso. apply Hthrow; [| reflexivity]. left. rewrite Hcfg. lia.
Qed.

Lemma expired_entry_is_fetched_again_witness :
  let st := set_clock 400000 (Sample.warm_layer lru) in
  let cfg := {| url := Some "/a"; method := Some "GET"; params := JUndefined;
                req_data := JUndefined; metadata_responseTime := None |} in
  cacheHits (metrics (snd (request cfg st))) = cacheHits (metrics st)
  /\ cacheMisses (metrics (snd (request cfg st))) = cacheMisses (metrics st) + 1
  /\ (http_calls st < http_calls (snd (request cfg st)))%nat
  /\ exists r,
       fst (request cfg st) = Return r
       /\ cached r = None
       /\ (success r = true ->
           exists stored,
             map_get (cache (snd (request cfg st)))
               "eyJ1cmwiOiIvYSIsIm1ldGhvZCI6IkdFVCJ9" = Some stored
             /\ data r = Some (item_data stored)
             /\ hits stored = 0).
Proof.
  cbv zeta.
  eapply (expired_entry_is_fetched_again _ (set_clock 400000 (Sample.warm_layer lru))).
  - vm_compute. reflexivity.
  - vm_compute. reflexivity.
  - vm_compute. reflexivity.
  - vm_compute. reflexivity.
  - vm_compute. reflexivity.
  - vm_compute. discriminate.
Defined.

End CacheExpiry.

(* ------------------------------------------------------------------ *)
(** * Monitor: queries over the log store *)

Section LogQueries.
Import Js Monitor Spec.

Lemma filter_twice {A : Type} (f g : A -> bool) (l : list A) :
  filter g (filter f l) = filter (fun x => f x && g x) l.
Proof.
  induction l as [|x r IH]; simpl; [reflexivity |].
  destruct (f x); simpl; [destruct (g x) |]; rewrite IH; reflexivity.
Qed.

Lemma filter_optional {A B : Type} (o : option B) (f : B -> A -> bool) (l : list A) :
  match o with
  | Some b => filter (f b) l
  | None => l
  end
  = filter (fun x => match o with Some b => f b x | None => true end) l.
Proof.
  destruct o; [reflexivity |].
  induction l as [|x r IH]; simpl; [reflexivity | rewrite <- IH; reflexivity].
Qed.

Lemma insert_newest_first_In (x y : LogEntry) (l : list LogEntry) :
  In y (insert_newest_first x l) <-> y = x \/ In y l.
Proof.
  induction l as [|z r IH]; simpl.
  - intuition congruence.
  - destruct (timestamp x <? timestamp z); simpl; rewrite ?IH; intuition congruence.
Qed.

Lemma sort_newest_first_In (y : LogEntry) (l : list LogEntry) :
  In y (sort_newest_first l) <-> In y l.
Proof.
  induction l as [|x r IH]; simpl; [tauto |].
  rewrite insert_newest_first_In, IH. intuition congruence.
Qed.

Lemma insert_newest_first_sorted (x : LogEntry) (l : list LogEntry) :
  newest_first l -> newest_first (insert_newest_first x l).
Proof.
  induction l as [|y r IH]; simpl; intros H.
  - split; [constructor | exact I].
  - destruct H as [Hy Hr].
    destruct (timestamp x <? timestamp y) eqn:E.
    + apply Z.ltb_lt in E. simpl. split; [| apply IH; exact Hr].
      apply Forall_forall. intros z Hz. apply insert_newest_first_In in Hz.
      destruct Hz as [-> | Hz]; [lia |].
      rewrite Forall_forall in Hy. apply Hy. exact Hz.
    + apply Z.ltb_ge in E. simpl. split; [| split; assumption].
      constructor; [exact E |].
      apply Forall_forall. intros z Hz. rewrite Forall_forall in Hy.
      specialize (Hy z Hz). lia.
Qed.

Lemma sort_newest_first_sorted (l : list LogEntry) :
  newest_first (sort_newest_first l).
Proof.
  induction l as [|x r IH]; simpl; [exact I |].
  apply insert_newest_first_sorted. exact IH.
Qed.

Lemma firstn_incl {A : Type} (n : nat) (l : list A) (x : A) :
  In x (firstn n l) -> In x l.
Proof.
  intros H. rewrite <- (firstn_skipn n l). apply in_or_app. left. exact H.
Qed.

Lemma skipn_incl {A : Type} (n : nat) (l : list A) (x : A) :
  In x (skipn n l) -> In x l.
Proof.
  intros H. rewrite <- (firstn_skipn n l). apply in_or_app. right. exact H.
Qed.

Lemma newest_first_firstn (n : nat) :
  forall l : list LogEntry, newest_first l -> newest_first (firstn n l).
Proof.
  induction n as [|n IH]; intros l H; [exact I |].
  destruct l as [|x r]; [exact I |]. simpl. destruct H as [Hx Hr].
  split; [| apply IH; exact Hr].
  apply Forall_forall. intros y Hy. rewrite Forall_forall in Hx.
  apply Hx. apply (firstn_incl n r y Hy).
Qed.

(** An entry past the first [n] of a sorted list is no newer than any of
    the first [n]. *)
Lemma newest_first_rest (n : nat) :
  forall (l : list LogEntry) (x y : LogEntry),
    newest_first l -> In x (firstn n l) -> In y (skipn n l) ->
    timestamp y <= timestamp x.
Proof.
  induction n as [|n IH]; intros l x y H Hx Hy; [contradiction |].
  destruct l as [|z r]; [contradiction |].
  simpl in Hx, Hy. destruct H as [Hz Hr].
  destruct Hx as [<- | Hx].
  - rewrite Forall_forall in Hz. apply Hz. apply (skipn_incl n r y Hy).
  - apply (IH r x y Hr Hx Hy).
Qed.

(** [slice(0, n)] keeps the first [n] elements when [n] is not negative,
    and drops the last [-n] when it is. *)
Lemma Array_slice_first {A : Type} (l : list A) (n : Z) :
  0 <= n -> Array_slice l 0 (Some n) = firstn (Z.to_nat n) l.
Proof.
  intros Hn. unfold Array_slice, slice_index.
  change (0 <? 0) with false. cbv iota.
  replace (n <? 0) with false by (symmetry; apply Z.ltb_ge; exact Hn).
  rewrite (Z.min_l 0) by lia. rewrite Z.sub_0_r. simpl skipn.
  destruct (Z.min_spec n (Z.of_nat (List.length l))) as [[Hlt ->] | [Hge ->]];
    [reflexivity |].
  rewrite Nat2Z.id. rewrite firstn_all. symmetry. apply firstn_all2. lia.
Qed.

Lemma Array_slice_drop_last {A : Type} (l : list A) (n : Z) :
  n < 0 ->
  Array_slice l 0 (Some n) = firstn (List.length l - Z.to_nat (- n)) l.
Proof.
  intros Hn. unfold Array_slice, slice_index.
  change (0 <? 0) with false. cbv iota.
  replace (n <? 0) with true by (symmetry; apply Z.ltb_lt; exact Hn).
  rewrite (Z.min_l 0) by lia. rewrite Z.sub_0_r. simpl skipn.
  f_equal. lia.
Qed.

Lemma level_eqb_eq (a b : Level) : level_eqb a b = true <-> a = b.
Proof.
  unfold level_eqb. split.
  - intros H. apply Z.eqb_eq in H. destruct a, b; simpl in H; congruence.
  - intros ->. apply Z.eqb_refl.
Qed.

(** The query without its limit: the matching entries, sorted. *)
Lemma getLogs_unlimited (options : LogQuery) (st : St) :
  getLogs (without_limit options) st
  = sort_newest_first (filter (matches options) (logs st)).
Proof.
  unfold getLogs, without_limit.
  cbn [q_service q_level q_startDate q_endDate q_limit q_correlationId]. cbv zeta.
  rewrite (filter_optional (given (q_correlationId options))
             (fun c log => correlation_is c log)).
  rewrite (filter_optional (q_endDate options) (fun d log => timestamp log <=? d)).
  rewrite (filter_optional (q_startDate options) (fun d log => timestamp log >=? d)).
  rewrite (filter_optional (q_level options) (fun l log => level_eqb (level log) l)).
  rewrite (filter_optional (given (q_service options))
             (fun s log => String.eqb (service log) s)).
  rewrite !filter_twice. f_equal. apply filter_ext. intros log.
  unfold matches. rewrite !andb_assoc. reflexivity.
Qed.

Lemma getLogs_limited (options : LogQuery) (st : St) :
  getLogs options st
  = match q_limit options with
    | Some n =>
        if n =? 0 then getLogs (without_limit options) st
        else Array_slice (getLogs (without_limit options) st) 0 (Some n)
    | None => getLogs (without_limit options) st
    end.
Proof.
  unfold getLogs, without_limit.
  cbn [q_service q_level q_startDate q_endDate q_limit q_correlationId].
  reflexivity.
Qed.

(** X12.  [getLogs] returns entries of the store that pass every filter of
    the query, each as often as the store holds it, newest first.  Without
    a limit, and with the limit 0, it returns all of them; a positive limit
    keeps the newest that many; a negative one drops that many of the
    oldest. *)
Theorem getLogs_answers_the_query :
  forall (options : LogQuery) (st : St),
    let unlimited := getLogs (without_limit options) st in
    newest_first unlimited
    /\ (forall log,
           In log unlimited <-> In log (logs st) /\ matches options log = true)
    /\ List.length unlimited = List.length (filter (matches options) (logs st))
    /\ getLogs options st
       = match q_limit options with
         | None => unlimited
         | Some n =>
             if n =? 0 then unlimited
             else if 0 <? n then firstn (Z.to_nat n) unlimited
             else firstn (List.length unlimited - Z.to_nat (- n)) unlimited
         end.
Proof.
  intros options st. cbv zeta.
  rewrite (getLogs_limited options st), !(getLogs_unlimited options st).
  split; [apply sort_newest_first_sorted |].
  split; [intros log; rewrite sort_newest_first_In; apply filter_In |].
  split; [apply sort_newest_first_length |].
  destruct (q_limit options) as [n |]; [| reflexivity].
  destruct (n =? 0) eqn:E0; [reflexivity |].
  apply Z.eqb_neq in E0.
  destruct (0 <? n) eqn:E1.
  - apply Z.ltb_lt in E1. apply Array_slice_first. lia.
  - apply Z.ltb_ge in E1. apply Array_slice_drop_last. lia.
Qed.

(** X13.  [getRecentErrors] returns error entries of the service, newest
    first and [limit] at most, and leaves out none that is newer than one it
    returns. *)
Theorem getRecentErrors_are_the_newest :
  forall (name : string) (limit : Z) (st : St),
    0 <= limit ->
    let recent := getRecentErrors name limit st in
    newest_first recent
    /\ Z.of_nat (List.length recent) <= limit
    /\ (forall log,
           In log recent ->
           In log (logs st) /\ service log = name /\ level log = error)
    /\ (forall log other,
           In log recent ->
           In other (logs st) -> service other = name -> level other = error ->
           timestamp log < timestamp other ->
           In other recent).
Proof.
  intros name limit st Hlimit. cbv zeta. unfold getRecentErrors.
  rewrite Array_slice_first by exact Hlimit.
  set (errors := filter (fun log => andb (String.eqb (service log) name)
                                         (level_eqb (level log) error)) (logs st)).
  pose proof (sort_newest_first_sorted errors) as Hsorted.
  split; [apply newest_first_firstn; exact Hsorted |].
  split; [rewrite length_firstn; lia |].
  split.
  - intros log Hin. apply firstn_incl in Hin.
    apply (proj1 (sort_newest_first_In _ _)) in Hin.
    subst errors. apply filter_In in Hin. destruct Hin as [Hin Hf].
    apply andb_true_iff in Hf. destruct Hf as [Hs Hl].
    apply String.eqb_eq in Hs. apply level_eqb_eq in Hl. repeat split; assumption.
  - intros log other Hin Hother Hs Hl Hnewer.
    assert (Hsorted_in : In other (sort_newest_first errors)).
    { apply sort_newest_first_In. subst errors. apply filter_In.
      split; [exact Hother |]. apply andb_true_iff.
      split; [apply String.eqb_eq; exact Hs | apply level_eqb_eq; exact Hl]. }
    rewrite <- (firstn_skipn (Z.to_nat limit) (sort_newest_first errors))
      in Hsorted_in.
    apply in_app_or in Hsorted_in. destruct Hsorted_in as [H | H]; [exact H |].
    pose proof (newest_first_rest (Z.to_nat limit) (sort_newest_first errors)
                  log other Hsorted Hin H).
    lia.
Qed.

Lemma getRecentErrors_are_the_newest_witness :
  let recent := getRecentErrors "billing" 3 Sample.four_failures in
  newest_first recent
  /\ Z.of_nat (List.length recent) <= 3
  /\ (forall log,
         In log recent ->
         In log (logs Sample.four_failures)
         /\ service log = "billing" /\ level log = error)
  /\ (forall log other,
         In log recent ->
         In other (logs Sample.four_failures) ->
         service other = "billing" -> level other = error ->
         timestamp log < timestamp other ->
         In other recent).
Proof.
  apply getRecentErrors_are_the_newest. vm_compute. discriminate.
Defined.

End LogQueries.

(* ------------------------------------------------------------------ *)
(** * Monitor: what a log call stores and raises *)

Section LogCalls.
Import Js Monitor Spec.

Lemma logged_events_app (a b : list MonitorEvent) :
  logged (a ++ b) = (logged a ++ logged b)%list.
Proof.
  induction a as [|e r IH]; simpl; [reflexivity |].
  destruct e; simpl; rewrite IH; reflexivity.
Qed.

Lemma checkAlerts_store (now : Z) (name : string) (entry : LogEntry) (st : St) :
  logs (checkAlerts now name entry st) = logs st
  /\ config (checkAlerts now name entry st) = config st
  /\ healthChecks (checkAlerts now name entry st) = healthChecks st
  /\ exists raised, emitted (checkAlerts now name entry st)
                    = (emitted st ++ map ev_alert raised)%list.
Proof.
  unfold checkAlerts.
  destruct (negb (enabled (alertConfig (config st))));
    [repeat split; exists []; simpl; rewrite app_nil_r; reflexivity |].
  cbv zeta.
  destruct (map_get (alertCooldowns st) (name ++ "_error")) as [lastAlert |];
    [destruct (now - lastAlert <? cooldown (alertConfig (config st))) |];
    repeat split;
    solve [ exists []; simpl; rewrite app_nil_r; reflexivity
          | eexists [_]; reflexivity ].
Qed.

Lemma log_at_unfold (lvl : Level) (svc : string) (c : LogCall) (st : St) :
  shouldLog lvl st = true ->
  log_at lvl svc c st
  = let st1 := emit (ev_log (entry_of lvl svc c))
                 (addLogEntry (at_time c) (entry_of lvl svc c) st) in
    if level_eqb lvl error
    then checkAlerts (at_time c) svc (entry_of lvl svc c) st1
    else st1.
Proof.
  intros H. unfold log_at, log. rewrite H. reflexivity.
Qed.

Lemma filter_none {A : Type} (l : list A) : filter (fun _ => false) l = [].
Proof. induction l as [|x r IH]; simpl; [reflexivity | exact IH]. Qed.

(** X14.  An entry that passes the level test, logged under a cap of at
    least one entry and a positive retention period: as long as the
    retention cutoff is a date, the entry is stored last, behind what the
    cap and the retention period leave of the old store; once the period is
    so long that the cutoff is no date any more, every comparison with it
    fails and the store is emptied, the new entry included.  In both cases
    the store holds at most [maxLogEntries] entries and the entry is emitted
    as a ['log'] event. *)
Theorem log_stores_entry_last :
  forall (lvl : Level) (svc : string) (c : LogCall) (st : St),
    shouldLog lvl st = true ->
    1 <= maxLogEntries (config st) ->
    0 < retentionPeriod (config st) ->
    let dropped :=
      (List.length (logs st) + 1 - Z.to_nat (maxLogEntries (config st)))%nat in
    let cutoff := at_time c - retentionPeriod (config st) * 24 * 60 * 60 * 1000 in
    (if Z.abs cutoff <=? 8640000000000000
     then logs (log_at lvl svc c st)
          = (filter (fun log => cutoff <? timestamp log) (skipn dropped (logs st))
             ++ [entry_of lvl svc c])%list
     else logs (log_at lvl svc c st) = [])
    /\ Z.of_nat (List.length (logs (log_at lvl svc c st))) <= maxLogEntries (config st)
    /\ In (ev_log (entry_of lvl svc c)) (emitted (log_at lvl svc c st)).
Proof.
  intros lvl svc c st Hlvl Hcap Hret. cbv zeta.
  rewrite (log_at_unfold lvl svc c st Hlvl). cbv zeta.
  set (entry := entry_of lvl svc c).
  set (st1 := emit (ev_log entry) (addLogEntry (at_time c) entry st)).
  assert (Hlogs : logs st1 = logs (addLogEntry (at_time c) entry st)) by reflexivity.
  assert (Hev : In (ev_log entry) (emitted st1)).
  { subst st1. cbn [emitted emit]. apply in_or_app. right. left. reflexivity. }
  destruct (checkAlerts_store (at_time c) svc entry st1)
    as (Hl & _ & _ & raised & Hem).
  assert (Hfinal :
            logs (if level_eqb lvl error
                  then checkAlerts (at_time c) svc entry st1 else st1)
            = logs (addLogEntry (at_time c) entry st)).
  { destruct (level_eqb lvl error); congruence. }
  rewrite Hfinal.
  split; [| split].
  - rewrite (addLogEntry_shape (at_time c) entry st Hcap). cbv zeta.
    unfold Date_of.
    destruct (Z.abs (at_time c - retentionPeriod (config st) * 24 * 60 * 60 * 1000)
              <=? 8640000000000000); cbn [after_date].
    + rewrite length_app. simpl List.length.
      rewrite skipn_app.
      replace (List.length (logs st) + 1 - Z.to_nat (maxLogEntries (config st))
               - List.length (logs st))%nat with 0%nat by lia.
      simpl skipn. rewrite filter_app. simpl filter.
      replace (at_time c - retentionPeriod (config st) * 24 * 60 * 60 * 1000
               <? at_time c) with true
        by (symmetry; apply Z.ltb_lt; lia).
      reflexivity.
    + apply filter_none.
  - destruct (addLogEntry_bounded (at_time c) entry st Hcap) as (Hb & _). exact Hb.
  - destruct (level_eqb lvl error); [| exact Hev].
    rewrite Hem. apply in_or_app. left. exact Hev.
Qed.

Lemma log_stores_entry_last_witness :
  let c := Sample.failure_at 5000 in
  let st := Sample.four_failures in
  let dropped :=
    (List.length (logs st) + 1 - Z.to_nat (maxLogEntries (config st)))%nat in
  let cutoff := at_time c - retentionPeriod (config st) * 24 * 60 * 60 * 1000 in
  (if Z.abs cutoff <=? 8640000000000000
   then logs (log_at error "billing" c st)
        = (filter (fun log => cutoff <? timestamp log) (skipn dropped (logs st))
           ++ [entry_of error "billing" c])%list
   else logs (log_at error "billing" c st) = [])
  /\ Z.of_nat (List.length (logs (log_at error "billing" c st)))
     <= maxLogEntries (config st)
  /\ In (ev_log (entry_of error "billing" c)) (emitted (log_at error "billing" c st)).
Proof.
  cbv zeta. apply log_stores_entry_last.
  - vm_compute. reflexivity.
  - vm_compute. discriminate.
  - vm_compute. reflexivity.
Defined.

(** X15.  Only an entry of level ['error'] can raise an alert: a call of
    [log] at any other level raises none, starts no delivery and leaves the
    cooldowns alone; below the configured level it changes nothing at
    all. *)
Theorem log_below_error_never_alerts :
  forall (lvl : Level) (svc : string) (c : LogCall) (st : St),
    lvl <> error ->
    alerts_of (emitted (log_at lvl svc c st)) = alerts_of (emitted st)
    /\ alertCooldowns (log_at lvl svc c st) = alertCooldowns st
    /\ deliveries (log_at lvl svc c st) = deliveries st
    /\ (shouldLog lvl st = false -> log_at lvl svc c st = st).
Proof.
  intros lvl svc c st Hlvl.
  assert (He : level_eqb lvl error = false).
  { destruct (level_eqb lvl error) eqn:E; [| reflexivity].
    apply level_eqb_eq in E. contradiction. }
  destruct (shouldLog lvl st) eqn:Hs.
  - rewrite (log_at_unfold lvl svc c st Hs). cbv zeta. rewrite He.
    cbn [emitted emit alertCooldowns deliveries addLogEntry set_logs].
    rewrite alerts_of_app. cbn [alerts_of]. rewrite app_nil_r.
    repeat split. discriminate.
  - unfold log_at, log. rewrite Hs. repeat split.
Qed.

Lemma log_below_error_never_alerts_witness :
  let c := Sample.failure_at 5000 in
  let st := Sample.four_failures in
  alerts_of (emitted (log_at warn "billing" c st)) = alerts_of (emitted st)
  /\ alertCooldowns (log_at warn "billing" c st) = alertCooldowns st
  /\ deliveries (log_at warn "billing" c st) = deliveries st
  /\ (shouldLog warn st = false -> log_at warn "billing" c st = st).
Proof.
  cbv zeta. apply log_below_error_never_alerts. discriminate.
Defined.

(** X16.  The loop of [triggerAlert] delivers to one channel at a time.
    When a delivery has gone through, the delivery to the next channel is
    started and nothing else happens.  When it has been rejected, the
    failure is first logged as an error of the service ['monitor']; unless
    alerting is off or an alert of that service is cooling down, this raises
    an alert of its own, whose delivery starts at the first configured
    channel, and only then does the loop go on to its next channel. *)
Theorem rejected_delivery_raises_an_alert :
  forall (now : Z) (a : Alert) (c : ChannelType) (rest : list ChannelType)
         (reason : string) (st : St),
    enabled (alertConfig (config st)) = true ->
    not_cooling "monitor" now st ->
    let settled := deliverySettled now a (c :: rest) None st in
    let rejected := deliverySettled now a (c :: rest) (Some reason) st in
    alerts_of (emitted settled) = alerts_of (emitted st)
    /\ logs settled = logs st
    /\ deliveries settled = (deliveries st ++ next_delivery a rest)%list
    /\ alerts_of (emitted rejected)
       = (alerts_of (emitted st) ++ [error_alert "monitor" now])%list
    /\ deliveries rejected
       = (deliveries st
          ++ next_delivery (error_alert "monitor" now)
               (channels (alertConfig (config st)))
          ++ next_delivery a rest)%list
    /\ map_get (alertCooldowns rejected) "monitor_error" = Some now
    /\ map service (logged (emitted rejected))
       = (map service (logged (emitted st)) ++ ["monitor"])%list.
Proof.
  intros now a c rest reason st Hen Hcool. cbv zeta.
  unfold deliverySettled.
  split; [reflexivity |]. split; [reflexivity |]. split; [reflexivity |].
  unfold deliveryFailed, log. rewrite shouldLog_error. simpl negb. cbv iota zeta.
  change (level_eqb error error) with true. cbv iota.
  match goal with
  | |- context [checkAlerts now "monitor" ?e (emit (ev_log ?e) (addLogEntry now ?e st))] =>
      set (entry := e)
  end.
  assert (Hservice : service entry = "monitor") by reflexivity.
  set (st0 := addLogEntry now entry st).
  assert (H0 : emitted st0 = emitted st /\ deliveries st0 = deliveries st
               /\ alertCooldowns st0 = alertCooldowns st /\ config st0 = config st)
    by (repeat split).
  destruct H0 as (He0 & Hd0 & Hc0 & Hg0). clearbody st0 entry.
  rewrite checkAlerts_fires;
    [| cbn [config emit]; rewrite Hg0; exact Hen
     | intros lastAlert Hlast; cbn [config alertCooldowns emit] in *;
       rewrite Hg0; rewrite Hc0 in Hlast; apply (Hcool lastAlert Hlast)].
  unfold set_alertCooldowns, triggerAlert, start_delivery, emit.
  cbn [emitted alertCooldowns config logs healthChecks deliveries].
  rewrite He0, Hd0, Hg0.
  rewrite !alerts_of_app, !logged_events_app. cbn [alerts_of logged].
  rewrite ?app_nil_r, map_app.
  change ("monitor" ++ "_error") with "monitor_error".
  rewrite map_get_set_same, <- app_assoc. cbn [map]. rewrite Hservice.
  repeat split.
Qed.

Lemma rejected_delivery_raises_an_alert_witness :
  let st := new_IntegrationMonitor Sample.paging_config in
  let a := error_alert "billing" 900 in
  let settled := deliverySettled 1000 a [webhook; slack] None st in
  let rejected := deliverySettled 1000 a [webhook; slack] (Some "timeout") st in
  alerts_of (emitted settled) = alerts_of (emitted st)
  /\ logs settled = logs st
  /\ deliveries settled = (deliveries st ++ next_delivery a [slack])%list
  /\ alerts_of (emitted rejected)
     = (alerts_of (emitted st) ++ [error_alert "monitor" 1000])%list
  /\ deliveries rejected
     = (deliveries st
        ++ next_delivery (error_alert "monitor" 1000)
             (channels (alertConfig (config st)))
        ++ next_delivery a [slack])%list
  /\ map_get (alertCooldowns rejected) "monitor_error" = Some 1000
  /\ map service (logged (emitted rejected))
     = (map service (logged (emitted st)) ++ ["monitor"])%list.
Proof.
  cbv zeta. apply rejected_delivery_raises_an_alert.
  - reflexivity.
  - intros lastAlert H. discriminate H.
Defined.

End LogCalls.

(* ------------------------------------------------------------------ *)
(** * Monitor: health snapshots and their alerts *)

Section HealthAlerts.
Import Js Monitor Spec.

Lemma append_length (a b : string) :
  String.length (a ++ b) = (String.length a + String.length b)%nat.
Proof.
  induction a as [|c a IH]; simpl; [reflexivity | rewrite IH; reflexivity].
Qed.

Lemma append_same_suffix (s a b : string) : (a ++ s = b ++ s)%string -> a = b.
Proof.
  revert b. induction a as [|c a IH]; intros [|d b] H; simpl in H.
  - reflexivity.
  - exfalso. apply (f_equal String.length) in H. simpl in H.
    rewrite append_length in H. lia.
  - exfalso. apply (f_equal String.length) in H. simpl in H.
    rewrite append_length in H. lia.
  - injection H as -> H. f_equal. apply IH. exact H.
Qed.

Lemma error_key_is_no_health_key (a b : string) :
  (a ++ "_error" <> b ++ "_health")%string.
Proof.
  revert b. induction a as [|c a IH]; intros b H.
  - apply (f_equal String.length) in H. rewrite !append_length in H.
    simpl in H. lia.
  - destruct b as [|d b].
    + simpl in H. injection H as _ H.
      assert (Hl := f_equal String.length H). rewrite append_length in Hl.
      simpl in Hl. destruct a; [discriminate H | simpl in Hl; lia].
    + simpl in H. injection H as _ H. apply (IH b H).
Qed.

Lemma checkAlerts_cooldowns (now : Z) (name : string) (entry : LogEntry) (st : St) :
  alertCooldowns (checkAlerts now name entry st) = alertCooldowns st
  \/ alertCooldowns (checkAlerts now name entry st)
     = map_set (alertCooldowns st) (name ++ "_error") now.
Proof.
  unfold checkAlerts.
  destruct (negb (enabled (alertConfig (config st)))); [left; reflexivity |].
  cbv zeta.
  destruct (map_get (alertCooldowns st) (name ++ "_error")) as [lastAlert |];
    [destruct (now - lastAlert <? cooldown (alertConfig (config st))) |];
    solve [left; reflexivity | right; reflexivity].
Qed.

Lemma checkHealthAlerts_cooldowns (now : Z) (name : string) (status : HealthStatus)
    (st : St) :
  alertCooldowns (checkHealthAlerts now name status st) = alertCooldowns st
  \/ alertCooldowns (checkHealthAlerts now name status st)
     = map_set (alertCooldowns st) (name ++ "_health") now.
Proof.
  unfold checkHealthAlerts.
  destruct (negb (enabled (alertConfig (config st)))); [left; reflexivity |].
  cbv zeta.
  destruct (map_get (alertCooldowns st) (name ++ "_health")) as [lastAlert |];
    [destruct (now - lastAlert <? cooldown (alertConfig (config st))) |];
    solve [left; reflexivity | right; reflexivity].
Qed.

(** X17.  Cooldowns are kept per service and per kind of alert: an error
    alert never starts or renews the cooldown of a health alert, nor a
    health alert that of an error alert, and neither touches the cooldowns
    of another service. *)
Theorem cooldowns_are_per_service_and_kind :
  forall (now : Z) (name other : string) (entry : LogEntry) (status : HealthStatus)
         (st : St),
    map_get (alertCooldowns (checkAlerts now name entry st)) (other ++ "_health")
    = map_get (alertCooldowns st) (other ++ "_health")
    /\ map_get (alertCooldowns (checkHealthAlerts now name status st))
         (other ++ "_error")
       = map_get (alertCooldowns st) (other ++ "_error")
    /\ (other <> name ->
        map_get (alertCooldowns (checkAlerts now name entry st)) (other ++ "_error")
        = map_get (alertCooldowns st) (other ++ "_error")
        /\ map_get (alertCooldowns (checkHealthAlerts now name status st))
             (other ++ "_health")
           = map_get (alertCooldowns st) (other ++ "_health")).
Proof.
  intros now name other entry status st.
  destruct (checkAlerts_cooldowns now name entry st) as [-> | ->];
    destruct (checkHealthAlerts_cooldowns now name status st) as [-> | ->];
    repeat split; intros;
    try (apply map_get_set_other; first
           [ apply error_key_is_no_health_key
           | intros H'; apply (error_key_is_no_health_key other name);
             symmetry; exact H'
           | intros H'; apply append_same_suffix in H'; congruence ]).
Qed.

Lemma checkHealthAlerts_fires (now : Z) (name : string) (status : HealthStatus)
    (st : St) :
  enabled (alertConfig (config st)) = true ->
  (forall lastAlert,
      map_get (alertCooldowns st) (name ++ "_health") = Some lastAlert ->
      cooldown (alertConfig (config st)) <= now - lastAlert) ->
  checkHealthAlerts now name status st
  = set_alertCooldowns (map_set (alertCooldowns st) (name ++ "_health") now)
      (triggerAlert now name "health_issue"
         ("Health issue detected in " ++ name ++ ": " ++ status_name status)
         (match status with unhealthy => sev_critical | _ => sev_warning end) st).
Proof.
  intros Hen Hcool. unfold checkHealthAlerts. rewrite Hen. simpl negb. cbv iota zeta.
  destruct (map_get (alertCooldowns st) (name ++ "_health")) as [lastAlert|] eqn:E;
    [| reflexivity].
  specialize (Hcool lastAlert eq_refl).
  replace (now - lastAlert <? cooldown (alertConfig (config st)))
    with false by (symmetry; apply Z.ltb_ge; exact Hcool).
  reflexivity.
Qed.

Lemma checkHealthAlerts_suppressed (now : Z) (name : string) (status : HealthStatus)
    (st : St) (lastAlert : Z) :
  map_get (alertCooldowns st) (name ++ "_health") = Some lastAlert ->
  now - lastAlert < cooldown (alertConfig (config st)) ->
  checkHealthAlerts now name status st = st.
Proof.
  intros Hlast Hwin. unfold checkHealthAlerts.
  destruct (negb (enabled (alertConfig (config st)))); [reflexivity |].
  cbv zeta. rewrite Hlast.
  replace (now - lastAlert <? cooldown (alertConfig (config st)))
    with true by (symmetry; apply Z.ltb_lt; exact Hwin).
  reflexivity.
Qed.

(** The part of a health check that follows the probe: it stores the status
    it computes as the snapshot of the service and does not itself write to
    the log store.  A healthy status raises no alert.  Any other status
    raises one ['health_issue'] alert, critical for unhealthy and a warning
    for degraded, and starts the health cooldown of the service -- unless
    alerting is off or that cooldown is running, in which case nothing is
    raised. *)
Lemma performHealthCheck_after_probe :
  forall (now : Z) (name : string) (probe_healthy : bool)
         (m : Layer.IntegrationMetrics) (st : St),
    let status := determineHealthStatus probe_healthy m (getRecentErrors name 5 st) in
    let st' := performHealthCheck now name probe_healthy m st in
    map_get (healthChecks st') name = Some status
    /\ logs st' = logs st
    /\ (status = healthy ->
        alerts_of (emitted st') = alerts_of (emitted st)
        /\ alertCooldowns st' = alertCooldowns st)
    /\ (status <> healthy ->
        enabled (alertConfig (config st)) = true ->
        (forall lastAlert,
            map_get (alertCooldowns st) (name ++ "_health") = Some lastAlert ->
            cooldown (alertConfig (config st)) <= now - lastAlert) ->
        alerts_of (emitted st')
        = (alerts_of (emitted st) ++ [health_alert name status now])%list
        /\ map_get (alertCooldowns st') (name ++ "_health") = Some now)
    /\ (forall lastAlert,
           map_get (alertCooldowns st) (name ++ "_health") = Some lastAlert ->
           now - lastAlert < cooldown (alertConfig (config st)) ->
           alerts_of (emitted st') = alerts_of (emitted st)
           /\ alertCooldowns st' = alertCooldowns st)
    /\ (enabled (alertConfig (config st)) = false ->
        alerts_of (emitted st') = alerts_of (emitted st)).
Proof.
  intros now name probe_healthy m st. cbv zeta. unfold performHealthCheck.
  set (status := determineHealthStatus probe_healthy m (getRecentErrors name 5 st)).
  set (st1 := emit (ev_health_check name status)
                (set_healthChecks (map_set (healthChecks st) name status) st)).
  assert (H1 : map_get (healthChecks st1) name = Some status)
    by (subst st1; cbn [healthChecks emit set_healthChecks]; apply map_get_set_same).
  assert (H2 : alerts_of (emitted st1) = alerts_of (emitted st)).
  { subst st1. cbn [emitted emit set_healthChecks]. rewrite alerts_of_app.
    cbn [alerts_of]. apply app_nil_r. }
  assert (Hstay : forall s, checkHealthAlerts now name s st1 = st1
                            \/ checkHealthAlerts now name s st1
                               = set_alertCooldowns
                                   (map_set (alertCooldowns st1) (name ++ "_health") now)
                                   (triggerAlert now name "health_issue"
                                      ("Health issue detected in " ++ name ++ ": "
                                       ++ status_name s)
                                      (match s with
                                       | unhealthy => sev_critical
                                       | _ => sev_warning
                                       end) st1)).
  { intros s. unfold checkHealthAlerts.
    destruct (negb (enabled (alertConfig (config st1)))); [left; reflexivity |].
    cbv zeta.
    destruct (map_get (alertCooldowns st1) (name ++ "_health")) as [lastAlert |];
      [destruct (now - lastAlert <? cooldown (alertConfig (config st1))) |];
      solve [left; reflexivity | right; reflexivity]. }
  split; [| split; [| split; [| split; [| split]]]].
  - destruct status eqn:Es; [exact H1 | |];
      destruct (Hstay status) as [E | E]; rewrite Es in E; rewrite E;
      solve [exact H1 | cbn [healthChecks set_alertCooldowns triggerAlert
                             start_delivery emit]; exact H1].
  - destruct status eqn:Es; [reflexivity | |];
      destruct (Hstay status) as [E | E]; rewrite Es in E; rewrite E; reflexivity.
  - intros ->. split; [exact H2 | reflexivity].
  - intros Hne Hen Hcool.
    assert (E : (match status with
                 | healthy => st1
                 | _ => checkHealthAlerts now name status st1
                 end) = checkHealthAlerts now name status st1)
      by (destruct status; [contradiction | reflexivity | reflexivity]).
    rewrite E. rewrite (checkHealthAlerts_fires now name status st1 Hen Hcool).
    subst st1.
    unfold set_alertCooldowns, triggerAlert, start_delivery, emit, health_alert,
      set_healthChecks.
    cbn [emitted alertCooldowns config logs healthChecks deliveries].
    rewrite !alerts_of_app. cbn [alerts_of]. rewrite ?app_nil_r.
    rewrite map_get_set_same. split; reflexivity.
  - intros lastAlert Hlast Hwin.
    destruct status; [split; [exact H2 | reflexivity] | |];
      rewrite (checkHealthAlerts_suppressed now name _ st1 lastAlert Hlast Hwin);
      split; solve [exact H2 | reflexivity].
  - intros Hoff.
    destruct status; [exact H2 | |];
      unfold checkHealthAlerts; change (config st1) with (config st);
      rewrite Hoff; exact H2.
Qed.

(** X19.  For a service that has made no request the ['error_rate'] check of
    a health snapshot fails, the quotient of the two zero counters being no
    number, while the status computed in the same pass takes the error rate
    of such a service to be zero. *)
Theorem idle_service_fails_error_rate_check :
  forall (probe_healthy : bool) (m : Layer.IntegrationMetrics),
    Layer.totalRequests m = 0 ->
    0 <= Layer.failedRequests m ->
    map_get (health_checks probe_healthy m) "error_rate" = Some check_fail
    /\ errorRate m = 0%Q
    /\ (probe_healthy = true ->
        Qle (Layer.averageResponseTime m) (inject_Z 5000) ->
        determineHealthStatus probe_healthy m [] = healthy).
Proof.
  intros probe_healthy m Htotal Hfailed.
  assert (Hrate : errorRate m = 0%Q) by (unfold errorRate; rewrite Htotal; reflexivity).
  split; [| split; [exact Hrate |]].
  - unfold health_checks, error_rate_below. rewrite Htotal.
    change (0 =? 0) with true. cbv iota.
    replace (Layer.failedRequests m <? 0) with false
      by (symmetry; apply Z.ltb_ge; exact Hfailed).
    reflexivity.
  - intros -> Havg. unfold determineHealthStatus. rewrite Hrate.
    simpl negb. cbv iota zeta.
    assert (H5 : Qgtb (Layer.averageResponseTime m) (inject_Z 5000) = false).
    { unfold Qgtb. apply negb_false_iff. apply Qle_bool_iff. exact Havg. }
    assert (H10 : Qgtb (Layer.averageResponseTime m) (inject_Z 10000) = false).
    { unfold Qgtb. apply negb_false_iff. apply Qle_bool_iff.
      eapply Qle_trans; [exact Havg |]. unfold Qle. simpl. lia. }
    rewrite H5, H10. reflexivity.
Qed.

Lemma idle_service_fails_error_rate_check_witness :
  map_get (health_checks true Layer.initialMetrics) "error_rate" = Some check_fail
  /\ errorRate Layer.initialMetrics = 0%Q
  /\ (true = true ->
      Qle (Layer.averageResponseTime Layer.initialMetrics) (inject_Z 5000) ->
      determineHealthStatus true Layer.initialMetrics [] = healthy).
Proof.
  apply idle_service_fails_error_rate_check.
  - reflexivity.
  - vm_compute. discriminate.
Defined.

End HealthAlerts.

(* ------------------------------------------------------------------ *)
(** * Monitor and services: metrics histories and the summary *)

Section Histories.
Import Js Monitor Registry Spec.

(** X20.  [recordMetrics] appends the sample to the history of the service
    and then cuts the history down to its last 100 samples: the new sample
    is always the last, what is dropped is dropped from the front, and the
    history holds [min 100 (n + 1)] samples when it held [n]. *)
Theorem recordMetrics_keeps_last_100 :
  forall (now : Z) (name : string) (m : Layer.IntegrationMetrics) (st : Registry.St),
    exists dropped older,
      history_of name st = (dropped ++ older)%list
      /\ history_of name (recordMetrics now name m st)
         = (older ++ [{| sample_timestamp := now; sample_metrics := m |}])%list
      /\ List.length (history_of name (recordMetrics now name m st))
         = Nat.min 100 (S (List.length (history_of name st)))
      /\ recorded (recordMetrics now name m st) = (recorded st ++ [(name, m)])%list.
Proof.
  intros now name m st. unfold history_of, getServiceMetrics, recordMetrics.
  cbn [metricsHistory recorded]. rewrite map_get_set_same.
  set (old := match map_get (metricsHistory st) name with
              | Some h => h
              | None => []
              end).
  set (new := {| sample_timestamp := now; sample_metrics := m |}).
  unfold keep_last_100. rewrite length_app. simpl List.length.
  destruct (Z.of_nat (List.length old + 1) >? 100) eqn:E.
  - apply Zgtb_true in E.
    exists (firstn (List.length old + 1 - 100) old),
           (skipn (List.length old + 1 - 100) old).
    split; [symmetry; apply firstn_skipn |].
    rewrite skipn_app.
    replace (List.length old + 1 - 100 - List.length old)%nat with 0%nat by lia.
    simpl skipn. split; [reflexivity |].
    split; [| reflexivity].
    rewrite length_app, length_skipn. cbn [List.length]. lia.
  - rewrite Z.gtb_ltb in E. apply Z.ltb_ge in E.
    exists [], old. split; [reflexivity |]. split; [reflexivity |].
    split; [| reflexivity].
    rewrite length_app. cbn [List.length]. lia.
Qed.

Lemma count_partition (statuses : list HealthStatus) :
  count (status_is healthy) statuses + count (status_is degraded) statuses
  + count (status_is unhealthy) statuses
  = Z.of_nat (List.length statuses).
Proof.
  unfold count. induction statuses as [|s r IH]; [reflexivity |].
  destruct s; simpl filter; simpl List.length; lia.
Qed.

Lemma log_keeps_healthChecks (now : Z) (lvl : Level) (svc op msg : string)
    (meta : option JsValue) (corr usr : option string) (dur code : option Z)
    (err : option ErrorDetail) (st : Monitor.St) :
  healthChecks (log now lvl svc op msg meta corr usr dur code err st) = healthChecks st
  /\ Monitor.config (log now lvl svc op msg meta corr usr dur code err st)
     = Monitor.config st.
Proof.
  unfold log. destruct (negb (shouldLog lvl st)); [split; reflexivity |].
  cbv zeta. destruct (level_eqb lvl error); [| split; reflexivity].
  match goal with
  | |- context [checkAlerts ?n ?s ?e ?x] =>
      destruct (checkAlerts_store n s e x) as (_ & Hc & Hh & _)
  end.
  rewrite Hh, Hc. split; reflexivity.
Qed.

(** X21.  In the summary the healthy, degraded and unhealthy services add up
    to [totalServices], which counts the health snapshots on record and not
    the registrations: registering a service does not change it.  The
    error entries are among the entries counted, and with no request on
    record the average response time and the error rate are 0. *)
Theorem getMonitoringSummary_counts :
  forall st : Registry.St,
    let s := getMonitoringSummary st in
    healthyServices s + degradedServices s + unhealthyServices s = totalServices s
    /\ totalServices s = map_size (healthChecks (monitor st))
    /\ 0 <= errorLogs s <= totalLogs s
    /\ (Registry.totalRequests s <= 0 ->
        Registry.averageResponseTime s = 0%Q /\ Registry.errorRate s = 0%Q)
    /\ forall (now : Z) (name : string) (ref : nat),
         totalServices (getMonitoringSummary (registerService now name ref st))
         = totalServices s.
Proof.
  intros st. cbv zeta. unfold getMonitoringSummary.
  destruct (totals st) as [[requests responseTime] failed] eqn:Et.
  cbn [healthyServices degradedServices unhealthyServices totalServices errorLogs
       totalLogs Registry.totalRequests Registry.averageResponseTime
       Registry.errorRate].
  split; [apply count_partition |].
  split; [unfold map_size; rewrite length_map; reflexivity |].
  split.
  { unfold count. split; [lia |].
    apply Nat2Z.inj_le. apply filter_length_le. }
  split.
  { intros Hz. replace (requests >? 0) with false
      by (symmetry; rewrite Z.gtb_ltb; apply Z.ltb_ge; exact Hz).
    split; reflexivity. }
  intros now name ref.
  destruct (totals (registerService now name ref st)) as [[r' t'] f'].
  cbn [totalServices]. unfold registerService.
  cbn [monitor set_monitor].
  match goal with
  | |- context [log ?n ?l ?s ?o ?m ?a ?b ?c ?d ?e ?f ?x] =>
      destruct (log_keeps_healthChecks n l s o m a b c d e f x) as [-> _]
  end.
  reflexivity.
Qed.

End Histories.

(* ------------------------------------------------------------------ *)
(** * Monitor and services: listeners and the health pass *)

Section Listeners.
Import Js Monitor Registry Spec.

Lemma nth_error_replace_at_same (l : list ServiceObject) :
  forall (ref : nat) (o o' : ServiceObject),
    nth_error l ref = Some o -> nth_error (replace_at ref o' l) ref = Some o'.
Proof.
  induction l as [|x r IH]; intros [|n] o o' H; simpl in *; try discriminate.
  - reflexivity.
  - apply (IH n o o' H).
Qed.

Lemma replace_at_length (l : list ServiceObject) :
  forall (ref : nat) (o' : ServiceObject),
    List.length (replace_at ref o' l) = List.length l.
Proof.
  induction l as [|x r IH]; intros [|n] o'; simpl; try reflexivity.
  rewrite IH. reflexivity.
Qed.

Lemma logged_app (a b : list MonitorEvent) :
  logged (a ++ b) = (logged a ++ logged b)%list.
Proof.
  induction a as [|e r IH]; simpl; [reflexivity |].
  destruct e; simpl; rewrite IH; reflexivity.
Qed.

Lemma health_events_app (a b : list MonitorEvent) :
  health_events (a ++ b) = (health_events a ++ health_events b)%list.
Proof.
  induction a as [|e r IH]; simpl; [reflexivity |].
  destruct e; simpl; rewrite IH; reflexivity.
Qed.

Lemma logged_alerts (raised : list Alert) : logged (map ev_alert raised) = [].
Proof. induction raised as [|a r IH]; simpl; [reflexivity | exact IH]. Qed.

Lemma health_events_alerts (raised : list Alert) :
  health_events (map ev_alert raised) = [].
Proof. induction raised as [|a r IH]; simpl; [reflexivity | exact IH]. Qed.

(** What a call of [log] emits: the entry, if it passes the level test,
    and alerts. *)
Lemma log_emits (now : Z) (lvl : Level) (svc op msg : string)
    (meta : option JsValue) (corr usr : option string) (dur code : option Z)
    (err : option ErrorDetail) (st : Monitor.St) :
  exists raised,
    emitted (log now lvl svc op msg meta corr usr dur code err st)
    = (emitted st
       ++ (if shouldLog lvl st
           then [ev_log {| timestamp := now; level := lvl; service := svc;
                           operation := op; message := msg; metadata := meta;
                           correlationId := corr; userId := usr; duration := dur;
                           statusCode := code; error_detail := err |}]
           else [])
       ++ map ev_alert raised)%list.
Proof.
  unfold log. destruct (shouldLog lvl st); simpl negb; cbv iota.
  2:{ exists []. simpl. rewrite app_nil_r. reflexivity. }
  cbv zeta. destruct (level_eqb lvl error).
  - match goal with
    | |- context [checkAlerts ?n ?s ?e ?x] =>
        destruct (checkAlerts_store n s e x) as (_ & _ & _ & raised & Hem)
    end.
    exists raised. rewrite Hem. cbn [emitted emit addLogEntry set_logs].
    rewrite <- app_assoc. reflexivity.
  - exists []. cbn [emitted emit addLogEntry set_logs]. simpl map.
    rewrite app_nil_r. reflexivity.
Qed.

Lemma on_event_frame (now : Z) (name : string) (e : Layer.Event) (st : Registry.St) :
  objects (on_event now name e st) = objects st
  /\ services (on_event now name e st) = services st
  /\ healthChecks (monitor (on_event now name e st)) = healthChecks (monitor st)
  /\ health_events (emitted (monitor (on_event now name e st)))
     = health_events (emitted (monitor st)).
Proof.
  destruct e as [statusCode url method | error statusCode url method];
    cbn [on_event objects services monitor set_monitor];
    match goal with
    | |- context [log ?n ?l ?s ?o ?m ?a ?b ?c ?d ?e ?f ?x] =>
        destruct (log_keeps_healthChecks n l s o m a b c d e f x) as [Hh _];
        destruct (log_emits n l s o m a b c d e f x) as [raised Hem]
    end;
    rewrite Hh, Hem, !health_events_app, health_events_alerts;
    (destruct (shouldLog _ _)); simpl health_events; rewrite ?app_nil_r;
    repeat split.
Qed.

Lemma emit_event_frame (now : Z) (ref : nat) (e : Layer.Event) (st : Registry.St) :
  objects (emit_event now ref e st) = objects st
  /\ services (emit_event now ref e st) = services st
  /\ healthChecks (monitor (emit_event now ref e st)) = healthChecks (monitor st)
  /\ health_events (emitted (monitor (emit_event now ref e st)))
     = health_events (emitted (monitor st)).
Proof.
  unfold emit_event. generalize (listeners_of ref st). intros names. revert st.
  induction names as [|name r IH]; intros st; [repeat split |].
  simpl fold_left.
  destruct (IH (on_event now name e st)) as (-> & -> & -> & ->).
  apply on_event_frame.
Qed.

Lemma emit_events_frame (now : Z) (ref : nat) (es : list Layer.Event) :
  forall st : Registry.St,
    let st' := fold_left (fun s e => emit_event now ref e s) es st in
    objects st' = objects st
    /\ services st' = services st
    /\ healthChecks (monitor st') = healthChecks (monitor st)
    /\ health_events (emitted (monitor st')) = health_events (emitted (monitor st)).
Proof.
  induction es as [|e r IH]; intros st; cbv zeta; [repeat split |].
  simpl fold_left.
  destruct (IH (emit_event now ref e st)) as (-> & -> & -> & ->).
  apply emit_event_frame.
Qed.



Lemma on_failure_logged (now : Z) (name error : string) (statusCode : option Z)
    (url method : option string) (st : Registry.St) :
  map service
    (logged (emitted (monitor
       (on_event now name (Layer.api_failure error statusCode url method) st))))
  = (map service (logged (emitted (monitor st))) ++ [name])%list
  /\ objects (on_event now name (Layer.api_failure error statusCode url method) st)
     = objects st.
Proof.
  cbn [on_event objects monitor set_monitor]. split; [| reflexivity].
  match goal with
  | |- context [log ?n ?l ?s ?o ?m ?a ?b ?c ?d ?e ?f ?x] =>
      destruct (log_emits n l s o m a b c d e f x) as [raised Hem]
  end.
  rewrite Hem, shouldLog_error, !logged_app, logged_alerts, app_nil_r.
  cbn [logged]. rewrite map_app. reflexivity.
Qed.

(** X23.  A failure that an instance reports is logged as an error once for
    every listener attached to it, in the order of attachment and under the
    name the listener was registered with -- whether or not that name is
    still registered. *)
Theorem failure_is_logged_once_per_listener :
  forall (now : Z) (ref : nat) (error : string) (statusCode : option Z)
         (url method : option string) (st : Registry.St),
    map service
      (logged (emitted (monitor
         (emit_event now ref (Layer.api_failure error statusCode url method) st))))
    = (map service (logged (emitted (monitor st))) ++ listeners_of ref st)%list.
Proof.
  intros now ref error statusCode url method st. unfold emit_event.
  generalize (listeners_of ref st). intros names. revert st.
  induction names as [|name r IH]; intros st.
  - simpl. rewrite app_nil_r. reflexivity.
  - cbn [fold_left]. rewrite IH.
    destruct (on_failure_logged now name error statusCode url method st) as [-> _].
    rewrite <- app_assoc. reflexivity.
Qed.

Lemma healthCheck_returns (st : Layer.St) :
  exists health, fst (Layer.healthCheck st) = Layer.Return health.
Proof.
  unfold Layer.healthCheck, Layer.tryCatch, Layer.bind, Layer.Date_now,
    Layer.axios_request.
  destruct (Layer.http st (Layer.http_calls st) Layer.health_request);
    eexists; reflexivity.
Qed.

Lemma checkHealthAlerts_frame (now : Z) (name : string) (status : HealthStatus)
    (st : Monitor.St) :
  healthChecks (checkHealthAlerts now name status st) = healthChecks st
  /\ health_events (emitted (checkHealthAlerts now name status st))
     = health_events (emitted st).
Proof.
  unfold checkHealthAlerts.
  destruct (negb (enabled (alertConfig (Monitor.config st)))); [split; reflexivity |].
  cbv zeta.
  destruct (map_get (alertCooldowns st) (name ++ "_health")) as [lastAlert |];
    [destruct (now - lastAlert <? cooldown (alertConfig (Monitor.config st))) |];
    cbn [healthChecks emitted set_alertCooldowns triggerAlert start_delivery emit];
    rewrite ?health_events_app; cbn [health_events]; rewrite ?app_nil_r;
    split; reflexivity.
Qed.

Lemma performHealthCheck_frame (now : Z) (name : string) (probe_healthy : bool)
    (m : Layer.IntegrationMetrics) (st : Monitor.St) :
  exists status,
    healthChecks (performHealthCheck now name probe_healthy m st)
    = map_set (healthChecks st) name status
    /\ health_events (emitted (performHealthCheck now name probe_healthy m st))
       = (health_events (emitted st) ++ [(name, status)])%list.
Proof.
  unfold performHealthCheck.
  set (status := determineHealthStatus probe_healthy m (getRecentErrors name 5 st)).
  exists status.
  set (st1 := emit (ev_health_check name status)
                (set_healthChecks (map_set (healthChecks st) name status) st)).
  assert (H1 : healthChecks st1 = map_set (healthChecks st) name status) by reflexivity.
  assert (H2 : health_events (emitted st1)
               = (health_events (emitted st) ++ [(name, status)])%list).
  { subst st1. cbn [emitted emit set_healthChecks]. rewrite health_events_app.
    reflexivity. }
  destruct status; [split; assumption | |];
    match goal with
    | |- context [checkHealthAlerts ?n ?s ?x ?y] =>
        destruct (checkHealthAlerts_frame n s x y) as [-> ->]
    end; split; assumption.
Qed.

Lemma map_get_set_present {V : Type} (m : JsMap V) (k k' : string) (v : V) :
  map_get m k' <> None -> map_get (map_set m k v) k' <> None.
Proof.
  intros H. destruct (String.eqb_spec k k') as [-> | Hne].
  - rewrite map_get_set_same. discriminate.
  - rewrite map_get_set_other by exact Hne. exact H.
Qed.

(** One turn of the health pass on a valid reference. *)
Lemma checkService_step (now : Z) (name : string) (ref : nat) (st : Registry.St) :
  (ref < List.length (objects st))%nat ->
  let st' := snd (checkService now name ref st) in
  map fst (health_events (emitted (monitor st')))
  = (map fst (health_events (emitted (monitor st))) ++ [name])%list
  /\ List.length (objects st') = List.length (objects st)
  /\ services st' = services st
  /\ map_get (healthChecks (monitor st')) name <> None
  /\ (forall other,
         map_get (healthChecks (monitor st)) other <> None ->
         map_get (healthChecks (monitor st')) other <> None).
Proof.
  intros Href. cbv zeta. unfold checkService.
  destruct (nth_error (objects st) ref) as [o |] eqn:Ho.
  2:{ apply nth_error_None in Ho. lia. }
  destruct (healthCheck_returns (Layer.set_clock now (instance o))) as [health Hh].
  destruct (Layer.healthCheck (Layer.set_clock now (instance o))) as [res probed].
  simpl in Hh. subst res.
  set (st1 := set_objects _ st).
  set (es := events_of _).
  destruct (emit_events_frame (Layer.clock probed) ref es st1) as (E1 & E2 & E3 & E4).
  cbv zeta in E1, E2, E3, E4.
  set (st2 := fold_left _ es st1) in *.
  cbn [snd monitor objects services set_monitor].
  destruct (performHealthCheck_frame (Layer.clock probed) name (Layer.healthy health)
              (Layer.getMetrics probed) (monitor st2)) as (status & -> & ->).
  rewrite E1, E2, E3, E4. subst st1.
  cbn [objects services monitor set_objects].
  rewrite map_app, replace_at_length, map_get_set_same.
  repeat split; try discriminate.
  intros other Hother. apply map_get_set_present. exact Hother.
Qed.

Lemma health_pass (l : JsMap nat) :
  forall (now : Z) (st : Registry.St),
    (forall name ref, In (name, ref) l -> (ref < List.length (objects st))%nat) ->
    let st' :=
      snd (fold_left
             (fun acc entry =>
                checkService (fst acc) (fst entry) (snd entry) (snd acc))
             l (now, st)) in
    map fst (health_events (emitted (monitor st')))
    = (map fst (health_events (emitted (monitor st))) ++ map_keys l)%list
    /\ services st' = services st
    /\ (forall name,
           In name (map_keys l) \/ map_get (healthChecks (monitor st)) name <> None ->
           map_get (healthChecks (monitor st')) name <> None).
Proof.
  induction l as [|[name ref] r IH]; intros now st Hrefs; cbv zeta.
  - simpl. rewrite app_nil_r. repeat split. intros name [[] | H]. exact H.
  - simpl fold_left.
    destruct (checkService_step now name ref st (Hrefs name ref (or_introl eq_refl)))
      as (S1 & S2 & S3 & S4 & S5).
    cbv zeta in S1, S2, S3, S4, S5.
    destruct (checkService now name ref st) as [later st1]. simpl snd in *. simpl fst.
    destruct (IH later st1) as (R1 & R2 & R3).
    { intros n x Hin. rewrite S2. apply (Hrefs n x). right. exact Hin. }
    cbv zeta in R1, R2, R3.
    rewrite R1, R2, S1, S3. unfold map_keys. simpl map. rewrite <- app_assoc.
    repeat split.
    intros other [[<- | Hin] | Hold]; apply R3.
    + right. exact S4.
    + left. exact Hin.
    + right. apply S5. exact Hold.
Qed.

(** X24.  A health pass that runs undisturbed checks every registered
    service once, in the order of registration: it emits one
    ['health_check'] event per service and none for anything else, and
    leaves every registered service with a snapshot. *)
Theorem performHealthChecks_checks_every_service :
  forall (now : Z) (st : Registry.St),
    (forall name ref,
        In (name, ref) (services st) -> (ref < List.length (objects st))%nat) ->
    let st' := snd (performHealthChecks now st) in
    map fst (health_events (emitted (monitor st')))
    = (map fst (health_events (emitted (monitor st))) ++ map_keys (services st))%list
    /\ services st' = services st
    /\ (forall name,
           In name (map_keys (services st)) ->
           exists status, map_get (healthChecks (monitor st')) name = Some status).
Proof.
  intros now st Hrefs. cbv zeta. unfold performHealthChecks.
  destruct (health_pass (services st) now st Hrefs) as (H1 & H2 & H3).
  cbv zeta in H1, H2, H3.
  split; [exact H1 | split; [exact H2 |]].
  intros name Hin. specialize (H3 name (or_introl Hin)).
  destruct (map_get _ name) as [status |]; [eauto | contradiction].
Qed.

Lemma performHealthChecks_checks_every_service_witness :
  let st := Sample.registry in
  let st' := snd (performHealthChecks 2000 st) in
  map fst (health_events (emitted (monitor st')))
  = (map fst (health_events (emitted (monitor st))) ++ map_keys (services st))%list
  /\ services st' = services st
  /\ (forall name,
         In name (map_keys (services st)) ->
         exists status, map_get (healthChecks (monitor st')) name = Some status).
Proof.
  cbv zeta. apply performHealthChecks_checks_every_service.
  vm_compute. intros name ref [H | []]. injection H as _ <-. constructor.
Defined.

End Listeners.

(* ------------------------------------------------------------------ *)
(** * Monitor: one turn of the health pass *)

Section HealthTurn.
Import Js Monitor Registry Spec.

Lemma health_alerts_app (a b : list MonitorEvent) :
  health_alerts (a ++ b) = (health_alerts a ++ health_alerts b)%list.
Proof. unfold health_alerts. rewrite alerts_of_app. apply filter_app. Qed.

Lemma recordSuccess_trace (r : Layer.AxiosResponse) (s : Layer.St) :
  Layer.trace (Layer.recordSuccess r s)
  = (Layer.trace s
     ++ [Layer.Emit (Layer.api_success (Layer.status r)
                       (Layer.url (Layer.resp_config r))
                       (Layer.method (Layer.resp_config r)))])%list
  /\ Layer.clock (Layer.recordSuccess r s) = Layer.clock s.
Proof. split; reflexivity. Qed.

Lemma recordFailure_trace (e : JsError) (s : Layer.St) :
  Layer.trace (Layer.recordFailure e s)
  = (Layer.trace s
     ++ [Layer.Emit (Layer.api_failure (Js.message e) (response_status e)
                       (config_url e) (config_method e))])%list
  /\ Layer.clock (Layer.recordFailure e s) = Layer.clock s.
Proof. split; reflexivity. Qed.

(** The probe of a health check: one request, whose outcome decides the
    verdict, the time taken and the event that the interceptors emit. *)
Lemma healthCheck_probe (st : Layer.St) :
  let p := probe st in
  let st' := snd (Layer.healthCheck st) in
  (exists health,
      fst (Layer.healthCheck st) = Layer.Return health
      /\ Layer.healthy health = answered p)
  /\ Layer.clock st' = Layer.clock st + elapsed_of p
  /\ exists e,
       events_of (skipn (List.length (Layer.trace st)) (Layer.trace st')) = [e]
       /\ level_of_event e = (if answered p then info else error).
Proof.
  cbv zeta. unfold probe, Layer.healthCheck, Layer.tryCatch, Layer.bind,
    Layer.Date_now, Layer.axios_request.
  destruct (Layer.http st (Layer.http_calls st) Layer.health_request)
    as [elapsed r | elapsed e]; cbn [fst snd answered elapsed_of].
  - split; [eexists; split; reflexivity |].
    destruct (recordSuccess_trace r
                (Layer.set_clock
                   (Layer.clock (Layer.perform (Layer.Attempt Layer.health_request)
                      (Layer.set_http_calls (S (Layer.http_calls st)) st)) + elapsed)
                   (Layer.perform (Layer.Attempt Layer.health_request)
                      (Layer.set_http_calls (S (Layer.http_calls st)) st))))
      as [-> ->].
    cbn [Layer.trace Layer.clock Layer.set_clock Layer.perform Layer.set_http_calls].
    split; [reflexivity |].
    rewrite <- app_assoc, skipn_app, skipn_all, Nat.sub_diag.
    eexists. split; reflexivity.
  - split; [eexists; split; reflexivity |].
    destruct (recordFailure_trace e
                (Layer.set_clock
                   (Layer.clock (Layer.perform (Layer.Attempt Layer.health_request)
                      (Layer.set_http_calls (S (Layer.http_calls st)) st)) + elapsed)
                   (Layer.perform (Layer.Attempt Layer.health_request)
                      (Layer.set_http_calls (S (Layer.http_calls st)) st))))
      as [-> ->].
    cbn [Layer.trace Layer.clock Layer.set_clock Layer.perform Layer.set_http_calls].
    split; [reflexivity |].
    rewrite <- app_assoc, skipn_app, skipn_all, Nat.sub_diag.
    eexists. split; reflexivity.
Qed.

(** What [checkAlerts] leaves alone. *)
Lemma checkAlerts_leaves (now : Z) (name : string) (entry : LogEntry) (st : Monitor.St) :
  Monitor.config (checkAlerts now name entry st) = Monitor.config st
  /\ logs (checkAlerts now name entry st) = logs st
  /\ (forall k, map_get (alertCooldowns (checkAlerts now name entry st)) (k ++ "_health")
                = map_get (alertCooldowns st) (k ++ "_health"))
  /\ health_alerts (emitted (checkAlerts now name entry st)) = health_alerts (emitted st)
  /\ logged (emitted (checkAlerts now name entry st)) = logged (emitted st).
Proof.
  destruct (checkAlerts_cooldowns now name entry st) as [Hc | Hc].
  - unfold checkAlerts in *.
    destruct (negb (enabled (alertConfig (Monitor.config st))));
      [repeat split |].
    cbv zeta in *.
    destruct (map_get (alertCooldowns st) (name ++ "_error")) as [lastAlert |];
      [destruct (now - lastAlert <? cooldown (alertConfig (Monitor.config st))) |];
      try (repeat split; fail);
      cbn [Monitor.config logs emitted alertCooldowns set_alertCooldowns triggerAlert
           start_delivery emit] in *;
      rewrite health_alerts_app, logged_app; cbn [alerts_of logged health_alerts];
      unfold health_alerts; cbn [alerts_of filter alertType String.eqb Ascii.eqb Bool.eqb];
      rewrite !app_nil_r; repeat split; intros k; rewrite Hc; reflexivity.
  - unfold checkAlerts in *.
    destruct (negb (enabled (alertConfig (Monitor.config st))));
      [repeat split |].
    cbv zeta in *.
    destruct (map_get (alertCooldowns st) (name ++ "_error")) as [lastAlert |];
      [destruct (now - lastAlert <? cooldown (alertConfig (Monitor.config st))) |];
      try (repeat split; fail);
      cbn [Monitor.config logs emitted alertCooldowns set_alertCooldowns triggerAlert
           start_delivery emit] in *;
      rewrite health_alerts_app, logged_app; cbn [alerts_of logged health_alerts];
      unfold health_alerts; cbn [alerts_of filter alertType String.eqb Ascii.eqb Bool.eqb];
      rewrite !app_nil_r; repeat split; intros k;
      apply map_get_set_other; apply error_key_is_no_health_key.
Qed.

(** What a call of [log] does to what a health check reads. *)
Lemma log_leaves (now : Z) (lvl : Level) (svc op msg : string)
    (meta : option JsValue) (corr usr : option string) (dur code : option Z)
    (err : option ErrorDetail) (st : Monitor.St) :
  let st' := log now lvl svc op msg meta corr usr dur code err st in
  Monitor.config st' = Monitor.config st
  /\ (forall k, map_get (alertCooldowns st') (k ++ "_health")
                = map_get (alertCooldowns st) (k ++ "_health"))
  /\ health_alerts (emitted st') = health_alerts (emitted st)
  /\ map level_and_service (logged (emitted st'))
     = (map level_and_service (logged (emitted st))
        ++ (if shouldLog lvl st then [(lvl, svc)] else []))%list
  /\ (level_eqb lvl error = false -> alerts_of (emitted st') = alerts_of (emitted st)).
Proof.
  cbv zeta. unfold log. destruct (shouldLog lvl st); simpl negb; cbv iota.
  2:{ rewrite app_nil_r. repeat split. }
  cbv zeta. destruct (level_eqb lvl error).
  - match goal with
    | |- context [checkAlerts ?n ?s ?e ?x] =>
        destruct (checkAlerts_leaves n s e x) as (Hc & _ & Hk & Ha & Hl)
    end.
    rewrite Hc, Ha, Hl.
    cbn [Monitor.config emitted emit addLogEntry set_logs alertCooldowns] in *.
    rewrite health_alerts_app, logged_app, map_app.
    unfold health_alerts at 2. cbn [alerts_of filter logged map level_and_service
                                     level service].
    rewrite app_nil_r. repeat split; [| discriminate].
    intros k. rewrite Hk. reflexivity.
  - cbn [Monitor.config emitted emit addLogEntry set_logs alertCooldowns].
    rewrite health_alerts_app, logged_app, map_app, alerts_of_app.
    unfold health_alerts at 2. cbn [alerts_of filter logged map level_and_service
                                     level service].
    rewrite !app_nil_r. repeat split.
Qed.

Lemma on_event_leaves (now : Z) (name : string) (e : Layer.Event) (st : Registry.St) :
  let st' := on_event now name e st in
  objects st' = objects st
  /\ Monitor.config (monitor st') = Monitor.config (monitor st)
  /\ (forall k, map_get (alertCooldowns (monitor st')) (k ++ "_health")
                = map_get (alertCooldowns (monitor st)) (k ++ "_health"))
  /\ health_alerts (emitted (monitor st')) = health_alerts (emitted (monitor st))
  /\ map level_and_service (logged (emitted (monitor st')))
     = (map level_and_service (logged (emitted (monitor st)))
        ++ (if shouldLog (level_of_event e) (monitor st)
            then [(level_of_event e, name)] else []))%list
  /\ (level_of_event e = info ->
      alerts_of (emitted (monitor st')) = alerts_of (emitted (monitor st))).
Proof.
  cbv zeta.
  destruct e as [statusCode url method | error statusCode url method];
    cbn [on_event objects monitor set_monitor level_of_event];
    match goal with
    | |- context [log ?n ?l ?s ?o ?m ?a ?b ?c ?d ?e ?f ?x] =>
        destruct (log_leaves n l s o m a b c d e f x) as (Hc & Hk & Ha & Hl & Hn)
    end;
    cbv zeta in Hc, Hk, Ha, Hl, Hn;
    rewrite Hc, Ha, Hl; repeat split; try exact Hk.
  - intros _. apply Hn. reflexivity.
  - discriminate.
Qed.

(** The listeners of an instance hear an event, one after the other. *)
Lemma listeners_hear (now : Z) (e : Layer.Event) (names : list string) :
  forall st : Registry.St,
    let st' := fold_left (fun s name => on_event now name e s) names st in
    objects st' = objects st
    /\ Monitor.config (monitor st') = Monitor.config (monitor st)
    /\ (forall k, map_get (alertCooldowns (monitor st')) (k ++ "_health")
                  = map_get (alertCooldowns (monitor st)) (k ++ "_health"))
    /\ health_alerts (emitted (monitor st')) = health_alerts (emitted (monitor st))
    /\ map level_and_service (logged (emitted (monitor st')))
       = (map level_and_service (logged (emitted (monitor st)))
          ++ (if shouldLog (level_of_event e) (monitor st)
              then map (pair (level_of_event e)) names else []))%list
    /\ (level_of_event e = info ->
        alerts_of (emitted (monitor st')) = alerts_of (emitted (monitor st))).
Proof.
  induction names as [|name r IH]; intros st; cbv zeta.
  - cbn [fold_left map]. destruct (shouldLog _ _); rewrite app_nil_r; repeat split.
  - cbn [fold_left].
    destruct (IH (on_event now name e st)) as (I1 & I2 & I3 & I4 & I5 & I6).
    destruct (on_event_leaves now name e st) as (O1 & O2 & O3 & O4 & O5 & O6).
    cbv zeta in I1, I2, I3, I4, I5, I6, O1, O2, O3, O4, O5, O6.
    rewrite I1, I2, I4, I5, O1, O2, O4, O5.
    assert (Hs : shouldLog (level_of_event e) (monitor (on_event now name e st))
                 = shouldLog (level_of_event e) (monitor st))
      by (unfold shouldLog; rewrite O2; reflexivity).
    rewrite Hs.
    split; [reflexivity |]. split; [reflexivity |].
    split; [intros k; rewrite I3; apply O3 |].
    split; [reflexivity |].
    split.
    + destruct (shouldLog (level_of_event e) (monitor st));
        rewrite <- app_assoc; reflexivity.
    + intros Hinfo. rewrite (I6 Hinfo). apply (O6 Hinfo).
Qed.

(** What the part of a health check after the probe emits. *)
Lemma performHealthCheck_emits (now : Z) (name : string) (probe_healthy : bool)
    (m : Layer.IntegrationMetrics) (st : Monitor.St) :
  let status := determineHealthStatus probe_healthy m (getRecentErrors name 5 st) in
  let st' := performHealthCheck now name probe_healthy m st in
  logs st' = logs st
  /\ healthChecks st' = map_set (healthChecks st) name status
  /\ exists raised,
       emitted st'
       = (emitted st ++ [ev_health_check name status] ++ map ev_alert raised)%list
       /\ (status = healthy -> raised = [])
       /\ (status <> healthy ->
           enabled (alertConfig (Monitor.config st)) = true ->
           health_not_cooling name now st ->
           raised = [health_alert name status now]
           /\ map_get (alertCooldowns st') (name ++ "_health") = Some now).
Proof.
  cbv zeta. unfold performHealthCheck.
  set (status := determineHealthStatus probe_healthy m (getRecentErrors name 5 st)).
  set (st1 := emit (ev_health_check name status)
                (set_healthChecks (map_set (healthChecks st) name status) st)).
  assert (Hcase :
    forall s, s <> healthy ->
      (match s with healthy => st1 | _ => checkHealthAlerts now name s st1 end
       = st1
       /\ ~ (enabled (alertConfig (Monitor.config st)) = true
             /\ health_not_cooling name now st))
      \/ match s with healthy => st1 | _ => checkHealthAlerts now name s st1 end
         = set_alertCooldowns (map_set (alertCooldowns st1) (name ++ "_health") now)
             (triggerAlert now name "health_issue"
                ("Health issue detected in " ++ name ++ ": " ++ status_name s)
                (match s with unhealthy => sev_critical | _ => sev_warning end) st1)).
  { intros s Hs.
    assert (E : match s with healthy => st1 | _ => checkHealthAlerts now name s st1 end
                = checkHealthAlerts now name s st1)
      by (destruct s; [contradiction | reflexivity | reflexivity]).
    rewrite E. unfold checkHealthAlerts.
    change (Monitor.config st1) with (Monitor.config st).
    change (alertCooldowns st1) with (alertCooldowns st).
    destruct (enabled (alertConfig (Monitor.config st))) eqn:Hen; simpl negb; cbv iota.
    2:{ left. split; [reflexivity |]. intros [H _]. discriminate. }
    cbv zeta.
    destruct (map_get (alertCooldowns st) (name ++ "_health")) as [lastAlert |] eqn:Hl;
      [| right; reflexivity].
    destruct (now - lastAlert <? cooldown (alertConfig (Monitor.config st))) eqn:Hw;
      [| right; reflexivity].
    left. split; [reflexivity |]. intros [_ H].
    specialize (H lastAlert Hl). apply Z.ltb_lt in Hw. lia. }
  destruct (status_is status healthy) eqn:Hst.
  - assert (Hh : status = healthy) by (destruct status; [reflexivity | discriminate ..]).
    rewrite Hh. subst st1. cbn [logs healthChecks emitted emit set_healthChecks].
    rewrite <- Hh.
    split; [reflexivity |]. split; [reflexivity |].
    exists []. cbn [map].
    split; [reflexivity |]. split; [reflexivity |].
    intros Hne. contradiction.
  - assert (Hne : status <> healthy) by (intros E; rewrite E in Hst; discriminate).
    destruct (Hcase status Hne) as [[E Hnot] | E]; rewrite E.
    + subst st1. cbn [logs healthChecks emitted emit set_healthChecks].
      split; [reflexivity |]. split; [reflexivity |].
      exists []. cbn [map].
      split; [reflexivity |]. split; [reflexivity |].
      intros _ Hen Hcool. exfalso. apply Hnot. split; assumption.
    + subst st1.
      cbn [logs healthChecks emitted alertCooldowns emit set_healthChecks
           set_alertCooldowns triggerAlert start_delivery].
      split; [reflexivity |]. split; [reflexivity |].
      exists [health_alert name status now]. cbn [map].
      rewrite <- app_assoc. cbn [app].
      split; [reflexivity |]. split; [intros Hh; contradiction |].
      intros _ _ _. split; [reflexivity | apply map_get_set_same].
Qed.

Lemma getRecentErrors_reads_logs (name : string) (limit : Z) (a b : Monitor.St) :
  logs a = logs b -> getRecentErrors name limit a = getRecentErrors name limit b.
Proof. intros H. unfold getRecentErrors. rewrite H. reflexivity. Qed.

(** X18.  One turn of the health pass, running undisturbed.  The probe takes
    its time and is counted in the metrics of the instance; what the
    interceptors emit reaches every listener attached to the instance
    before the snapshot is taken, so that an answered probe is logged at
    level ['info'] (if the monitor logs that level) and a failed one at
    level ['error'], once per listener.  The status is computed from the
    answer, the metrics after the probe and the recent errors, among them
    those just logged; it is stored as the snapshot of the service and
    emitted.  A failed probe makes the status unhealthy.  A healthy status
    comes with no alert at all.  Any other status raises one
    ['health_issue'] alert and starts the health cooldown of the service
    when alerting is on and that cooldown is not running.  For an instance
    with the one listener, a failed probe raises two alerts: a
    ['high_error_rate'] alert from the listener, then the ['health_issue']
    alert. *)
Theorem health_turn_probes_logs_and_alerts :
  forall (now : Z) (name : string) (ref : nat) (o : ServiceObject) (st : Registry.St),
    nth_error (objects st) ref = Some o ->
    let p := probe (instance o) in
    let later := now + elapsed_of p in
    let m := Layer.getMetrics (probed now (instance o)) in
    let st' := snd (checkService now name ref st) in
    let status :=
      determineHealthStatus (answered p) m (getRecentErrors name 5 (monitor st')) in
    fst (checkService now name ref st) = later
    /\ metrics_of ref st' = Some m
    /\ map_get (healthChecks (monitor st')) name = Some status
    /\ health_events (emitted (monitor st'))
       = (health_events (emitted (monitor st)) ++ [(name, status)])%list
    /\ (answered p = false -> status = unhealthy)
    /\ map level_and_service (logged (emitted (monitor st')))
       = (map level_and_service (logged (emitted (monitor st)))
          ++ (if answered p
              then if shouldLog info (monitor st)
                   then map (pair info) (listeners o) else []
              else map (pair error) (listeners o)))%list
    /\ (status = healthy ->
        alerts_of (emitted (monitor st')) = alerts_of (emitted (monitor st)))
    /\ (status <> healthy ->
        enabled (alertConfig (Monitor.config (monitor st))) = true ->
        health_not_cooling name later (monitor st) ->
        health_alerts (emitted (monitor st'))
        = (health_alerts (emitted (monitor st)) ++ [health_alert name status later])%list
        /\ map_get (alertCooldowns (monitor st')) (name ++ "_health") = Some later)
    /\ (answered p = false ->
        listeners o = [name] ->
        enabled (alertConfig (Monitor.config (monitor st))) = true ->
        not_cooling name later (monitor st) ->
        health_not_cooling name later (monitor st) ->
        alerts_of (emitted (monitor st'))
        = (alerts_of (emitted (monitor st))
           ++ [error_alert name later; health_alert name unhealthy later])%list).
Proof.
  intros now name ref o st Ho. cbv zeta. unfold checkService, probed. rewrite Ho.
  destruct (healthCheck_probe (Layer.set_clock now (instance o)))
    as ((health & Hres & Hhealthy) & Hclock & e & Hev & Hlevel).
  change (probe (Layer.set_clock now (instance o))) with (probe (instance o))
    in Hhealthy, Hclock, Hlevel.
  change (Layer.clock (Layer.set_clock now (instance o))) with now in Hclock.
  change (Layer.trace (Layer.set_clock now (instance o)))
    with (Layer.trace (instance o)) in Hev.
  destruct (Layer.healthCheck (Layer.set_clock now (instance o))) as [res after].
  cbn [fst snd] in Hres, Hclock, Hev |- *. subst res.
  rewrite Hev, Hclock, Hhealthy. cbn [fold_left].
  set (p := probe (instance o)) in *.
  set (later := now + elapsed_of p).
  set (st1 := set_objects
                (replace_at ref {| instance := after; listeners := listeners o |}
                   (objects st)) st).
  assert (Hl1 : listeners_of ref st1 = listeners o).
  { unfold listeners_of. subst st1. cbn [objects set_objects].
    rewrite (nth_error_replace_at_same (objects st) ref o _ Ho). reflexivity. }
  unfold emit_event. rewrite Hl1.
  destruct (listeners_hear later e (listeners o) st1) as (L1 & L2 & L3 & L4 & L5 & L6).
  cbv zeta in L1, L2, L3, L4, L5, L6.
  set (st2 := fold_left (fun s n => on_event later n e s) (listeners o) st1) in *.
  change (monitor st1) with (monitor st) in L2, L3, L4, L5, L6.
  destruct (performHealthCheck_emits later name (answered p) (Layer.getMetrics after)
              (monitor st2)) as (P1 & P2 & raised & P3 & P4 & P5).
  cbv zeta in P1, P2, P3, P4, P5.
  cbn [fst snd monitor objects set_monitor].
  set (mon' := performHealthCheck later name (answered p) (Layer.getMetrics after)
                 (monitor st2)) in *.
  rewrite (getRecentErrors_reads_logs name 5 mon' (monitor st2) P1).
  set (status := determineHealthStatus (answered p) (Layer.getMetrics after)
                   (getRecentErrors name 5 (monitor st2))) in *.
  assert (Hdown : answered p = false -> status = unhealthy).
  { intros Hp. subst status. unfold determineHealthStatus. rewrite Hp. reflexivity. }
  assert (Hlogged : map level_and_service (logged (emitted mon'))
                    = map level_and_service (logged (emitted (monitor st2)))).
  { rewrite P3, !logged_app, logged_alerts. cbn [logged]. rewrite !app_nil_r.
    reflexivity. }
  split; [reflexivity |].
  split.
  { unfold metrics_of. cbn [objects set_monitor]. rewrite L1. subst st1. cbn [objects set_objects].
    rewrite (nth_error_replace_at_same (objects st) ref o _ Ho). reflexivity. }
  split; [rewrite P2; apply map_get_set_same |].
  split.
  { rewrite P3, !health_events_app, health_events_alerts. cbn [health_events].
    rewrite app_nil_r.
    destruct (emit_events_frame later ref [e] st1) as (_ & _ & _ & E4).
    cbv zeta in E4. cbn [fold_left] in E4. unfold emit_event in E4.
    rewrite Hl1 in E4. fold st2 in E4. rewrite E4. reflexivity. }
  split; [exact Hdown |].
  split.
  { rewrite Hlogged, L5, Hlevel.
    destruct (answered p); [reflexivity |].
    rewrite shouldLog_error. reflexivity. }
  split.
  { intros Hh. rewrite P3, (P4 Hh). cbn [map]. rewrite alerts_of_app.
    cbn [alerts_of]. rewrite app_nil_r. apply L6. rewrite Hlevel.
    destruct (answered p); [reflexivity |].
    rewrite (Hdown eq_refl) in Hh. discriminate. }
  split.
  { intros Hne Hen Hcool.
    destruct (P5 Hne) as [Hr Hk].
    - rewrite L2. exact Hen.
    - intros lastAlert Hlast. rewrite L2. rewrite L3 in Hlast.
      apply (Hcool lastAlert Hlast).
    - split; [| exact Hk].
      rewrite P3, Hr, !health_alerts_app, L4. f_equal. }
  intros Hp Hone Hen Herr Hhealth.
  destruct (P5 ltac:(rewrite (Hdown Hp); discriminate)) as [Hr _].
  - rewrite L2. exact Hen.
  - intros lastAlert Hlast. rewrite L2. rewrite L3 in Hlast.
    apply (Hhealth lastAlert Hlast).
  - rewrite P3, Hr, (Hdown Hp), !alerts_of_app. cbn [map alerts_of].
    subst st2. rewrite Hone. cbn [fold_left].
    assert (Hfail : exists c, level_of_event e = error
                              /\ monitor (on_event later name e st1)
                                 = log_error name c (monitor st) /\ at_time c = later).
    { rewrite Hp in Hlevel.
      destruct e as [statusCode url method | err statusCode url method];
        [discriminate |].
      eexists {| at_time := later; c_operation := _; c_message := _; c_metadata := _;
                 c_correlationId := None; c_userId := None; c_duration := None;
                 c_statusCode := None; c_error := None |}.
      split; [reflexivity |]. split; reflexivity. }
    destruct Hfail as (c & _ & -> & Hc).
    destruct (log_error_fires name c (monitor st)) as (F1 & _ & _).
    + exact Hen.
    + rewrite Hc. exact Herr.
    + rewrite F1, Hc, <- app_assoc. reflexivity.
Qed.

Lemma health_turn_probes_logs_and_alerts_witness :
  let o := {| instance := Sample.down_layer; listeners := ["billing"] |} in
  let st := Sample.down_registry in
  let st' := snd (checkService 2000 "billing" 0 st) in
  nth_error (objects st) 0 = Some o
  /\ fst (checkService 2000 "billing" 0 st) = 2005
  /\ map_get (healthChecks (monitor st')) "billing" = Some unhealthy
  /\ map level_and_service (logged (emitted (monitor st')))
     = (map level_and_service (logged (emitted (monitor st)))
        ++ [(error, "billing")])%list
  /\ alerts_of (emitted (monitor st'))
     = (alerts_of (emitted (monitor st))
        ++ [error_alert "billing" 2005; health_alert "billing" unhealthy 2005])%list.
Proof.
  cbv zeta.
  assert (Ho : nth_error (objects Sample.down_registry) 0
               = Some {| instance := Sample.down_layer; listeners := ["billing"] |})
    by (vm_compute; reflexivity).
  destruct (health_turn_probes_logs_and_alerts 2000 "billing" 0
              {| instance := Sample.down_layer; listeners := ["billing"] |}
              Sample.down_registry Ho)
    as (H1 & _ & H3 & _ & H5 & H6 & _ & _ & H9).
  cbv zeta in H1, H3, H5, H6, H9.
  split; [exact Ho |].
  split; [exact H1 |].
  split; [rewrite H3; f_equal; apply H5; vm_compute; reflexivity |].
  split; [exact H6 |].
  apply H9.
  - vm_compute. reflexivity.
  - reflexivity.
  - vm_compute. reflexivity.
  - intros lastAlert H. vm_compute in H. discriminate.
  - intros lastAlert H. vm_compute in H. discriminate.
Defined.

End HealthTurn.

(* ------------------------------------------------------------------ *)
(** * Banking integration: the calls that change something *)

Section BankingCalls.
Import Js Layer Spec.

Lemma guarded_resolves (call : M APIResponse) (st : St) :
  (exists r, fst (Banking.guarded call st) = Return r)
  /\ snd (Banking.guarded call st) = snd (call st).
Proof.
  unfold Banking.guarded, tryCatch, ret.
  destruct (call st) as [[r | t] st1]; (split; [eexists; reflexivity | reflexivity]).
Qed.

(** A call makes no more requests than the retry count allows. *)
Lemma request_attempts_bound (cfg : AxiosRequestConfig) (st : St) :
  (http_calls (snd (request cfg st))
   <= http_calls st + Z.to_nat (retryAttempts (config st) + 1))%nat.
Proof.
  pose proof (request_stages cfg st) as H.
  destruct (fst (generateCacheKey cfg st)) as [key | t]; [| rewrite H; lia].
  cbv zeta in H.
  destruct (checkCache_frame cfg key (clock st) st) as (_ & _ & _ & Hc1).
  pose proof (checkCache_keeps_config cfg key st) as Hcfg.
  destruct (fst (checkCache cfg key (clock st) st)) as [[r |] | t]; [| | contradiction].
  - rewrite H. simpl snd. lia.
  - set (st2 := snd (checkRateLimit (snd (checkCache cfg key (clock st) st)))) in *.
    pose proof (retryLoop_attempts_bound cfg
                  (Z.to_nat (retryAttempts (config st2) + 1)) 0 ThrowUndefined st2)
      as Hb.
    change (retryLoop _ 0 ThrowUndefined cfg st2)
      with (makeRequestWithRetry cfg st2) in Hb.
    assert (Hc2 : http_calls st2 = http_calls st).
    { subst st2.
      destruct (checkRateLimit_frame (snd (checkCache cfg key (clock st) st)))
        as (_ & _ & _ & _ & _ & _ & _ & ->).
      exact Hc1. }
    rewrite Hcfg, Hc2 in Hb.
    set (sent := makeRequestWithRetry cfg st2) in *.
    destruct (fst sent) as [response | [e |]]; rewrite H.
    + destruct (cacheable cfg (snd sent)); [| exact Hb].
      destruct (setCache_counts key (resp_data response) (snd sent)) as [-> _].
      exact Hb.
    + pose proof (emitWebhookLoop_same_instance (webhooks (snd sent)) "api_failure"
                    (failure_payload cfg e (clock (snd sent) - clock st)) (snd sent))
        as (_ & _ & _ & _ & _ & _ & _ & _ & _ & E10).
      unfold emitWebhook. rewrite E10. exact Hb.
    + exact Hb.
Qed.

(** X25.  On an instance configured as the banking integration configures
    it, [cancelPayment], [validateAccount] and [unlinkBankAccount] always
    resolve, make four requests at most (the first try and three retries)
    and leave the cache as it is. *)
Theorem banking_writes_resolve_within_four_requests :
  forall (config : Banking.BankingConfig) (st : St) (a b : string),
    Layer.config st = Banking.apiConfig config ->
    let bounded (call : M APIResponse) :=
      (exists r, fst (call st) = Return r)
      /\ (http_calls (snd (call st)) <= http_calls st + 4)%nat
      /\ cache (snd (call st)) = cache st in
    bounded (Banking.cancelPayment a)
    /\ bounded (Banking.validateAccount a b)
    /\ bounded (Banking.unlinkBankAccount a).
Proof.
  intros config st a b Hcfg. cbv zeta.
  assert (Hfour : Z.to_nat (retryAttempts (Layer.config st) + 1) = 4%nat)
    by (rewrite Hcfg; reflexivity).
  unfold Banking.cancelPayment, Banking.validateAccount, Banking.unlinkBankAccount.
  repeat split;
    match goal with
    | |- exists r, fst (Banking.guarded ?m st) = Return r =>
        apply (guarded_resolves m st)
    | |- context [snd (Banking.guarded ?m st)] =>
        destruct (guarded_resolves m st) as [_ ->]
    end.
  - unfold post. rewrite <- Hfour. apply request_attempts_bound.
  - unfold post. apply request_not_cacheable. unfold cacheable.
    apply andb_false_intro2. reflexivity.
  - unfold post. rewrite <- Hfour. apply request_attempts_bound.
  - unfold post. apply request_not_cacheable. unfold cacheable.
    apply andb_false_intro2. reflexivity.
  - unfold delete. rewrite <- Hfour. apply request_attempts_bound.
  - unfold delete. apply request_not_cacheable. unfold cacheable.
    apply andb_false_intro2. reflexivity.
Qed.

Lemma banking_writes_resolve_within_four_requests_witness :
  let st := Banking.new_BankingIntegration Sample.bankingConfig 1000
              (fun _ _ => HttpErr 5 Sample.network_error) (fun _ => true) in
  let bounded (call : M APIResponse) :=
    (exists r, fst (call st) = Return r)
    /\ (http_calls (snd (call st)) <= http_calls st + 4)%nat
    /\ cache (snd (call st)) = cache st in
  bounded (Banking.cancelPayment "0123456789")
  /\ bounded (Banking.validateAccount "0123456789" "044")
  /\ bounded (Banking.unlinkBankAccount "0123456789").
Proof.
  cbv zeta.
  apply (banking_writes_resolve_within_four_requests Sample.bankingConfig
           (Banking.new_BankingIntegration Sample.bankingConfig 1000
              (fun _ _ => HttpErr 5 Sample.network_error) (fun _ => true))
           "0123456789" "044").
  vm_compute. reflexivity.
Defined.

End BankingCalls.

(* ------------------------------------------------------------------ *)
(** * Integration layer: a response that is asked for again *)

Section CacheRoundTrip.
Import Js Layer Spec.

(** X26.  A GET that has been fetched with a truthy body and is asked for
    again while the entry is no older than [ttl] is answered from the cache
    with the same body: the second call is marked [cached], makes no
    request, counts a cache hit and is the first access of the entry. *)
Theorem repeated_get_is_answered_from_cache :
  forall (cfg : AxiosRequestConfig) (st : St) (key : string) (first : APIResponse)
         (body : JsValue) (later : Z),
    enabled (cacheConfig st) = true ->
    is_get cfg = true ->
    fst (generateCacheKey cfg st) = Return key ->
    fst (request cfg st) = Return first ->
    success first = true ->
    cached first = None ->
    data first = Some body ->
    truthy body = true ->
    later - clock (snd (request cfg st)) <= ttl (cacheConfig st) ->
    let st1 := set_clock later (snd (request cfg st)) in
    (exists again,
        fst (request cfg st1) = Return again
        /\ success again = true /\ data again = Some body
        /\ cached again = Some true /\ statusCode again = None)
    /\ http_calls (snd (request cfg st1)) = http_calls st1
    /\ cacheHits (metrics (snd (request cfg st1))) = cacheHits (metrics st1) + 1
    /\ exists item,
         map_get (cache (snd (request cfg st1))) key = Some item
         /\ item_data item = body /\ hits item = 1.
Proof.
  intros cfg st key first body later Hen Hget Hkey Hfirst Hsucc Hcached Hdata
         Htruthy Hage. cbv zeta.
  pose proof (request_stages cfg st) as H.
  pose proof (request_outcomes cfg st) as O.
  rewrite Hkey in H, O. cbv zeta in H, O.
  destruct (request_keeps_configuration cfg st) as (_ & _ & Hcc & _).
  destruct (request_sent_surroundings cfg key st) as [Hs _]. cbv zeta in Hs.
  destruct (checkCache_surroundings cfg key (clock st) st) as (_ & _ & C3 & _).
  destruct (fst (checkCache cfg key (clock st) st)) as [[r |] | t] eqn:Ec;
    [| | contradiction].
  { exfalso. rewrite O in Hfirst. injection Hfirst as <-.
    unfold checkCache in Ec. destruct (cacheable cfg st); [| discriminate].
    destruct (getFromCache key st) as [v s1].
    destruct (truthy v); [| discriminate].
    injection Ec as <-. discriminate Hcached. }
  destruct Hs as (_ & _ & S3 & _).
  set (sent := makeRequestWithRetry cfg
                 (snd (checkRateLimit (snd (checkCache cfg key (clock st) st))))) in *.
  assert (Hc3 : cacheable cfg (snd sent) = true).
  { unfold cacheable. rewrite S3, C3, Hen, Hget. reflexivity. }
  destruct (fst sent) as [response | [e |]].
  2:{ rewrite O in Hfirst. injection Hfirst as <-. discriminate Hsucc. }
  2:{ rewrite O in Hfirst. discriminate Hfirst. }
  rewrite O in Hfirst. injection Hfirst as <-. cbn [data] in Hdata.
  injection Hdata as <-.
  rewrite Hc3 in H.
  destruct (setCache_stores key (resp_data response) (snd sent)) as (Hitem & Hclk & _).
  rewrite <- H in Hitem, Hclk.
  set (st1 := snd (request cfg st)) in *.
  rewrite (request_cache_hit cfg (set_clock later st1) key
             {| item_data := resp_data response; timestamp := clock (snd sent);
                hits := 0 |}).
  - cbn [fst snd http_calls metrics cache set_metrics set_cache set_clock
         inc_cacheHits cacheHits clock].
    rewrite map_get_set_same.
    split; [eexists; repeat split |].
    repeat split. eexists. repeat split.
  - cbn [cacheConfig set_clock]. subst st1. rewrite Hcc. exact Hen.
  - exact Hget.
  - destruct (generateCacheKey_pure cfg (set_clock later st1) st) as [-> _].
    exact Hkey.
  - exact Hitem.
  - cbn [cacheConfig set_clock clock timestamp]. subst st1. rewrite Hcc, <- Hclk.
    exact Hage.
  - exact Htruthy.
Qed.

Lemma repeated_get_is_answered_from_cache_witness :
  let cfg := {| url := Some "/status"; method := Some "GET"; params := JUndefined;
                req_data := JUndefined; metadata_responseTime := None |} in
  let st1 := set_clock 50000 (snd (request cfg Sample.fresh_layer)) in
  (exists again,
      fst (request cfg st1) = Return again
      /\ success again = true /\ data again = Some (JString "payload")
      /\ cached again = Some true /\ statusCode again = None)
  /\ http_calls (snd (request cfg st1)) = http_calls st1
  /\ cacheHits (metrics (snd (request cfg st1))) = cacheHits (metrics st1) + 1
  /\ exists item,
       map_get (cache (snd (request cfg st1)))
         "eyJ1cmwiOiIvc3RhdHVzIiwibWV0aG9kIjoiR0VUIn0=" = Some item
       /\ item_data item = JString "payload" /\ hits item = 1.
Proof.
  cbv zeta.
  apply (repeated_get_is_answered_from_cache
           {| url := Some "/status"; method := Some "GET"; params := JUndefined;
              req_data := JUndefined; metadata_responseTime := None |}
           Sample.fresh_layer
           "eyJ1cmwiOiIvc3RhdHVzIiwibWV0aG9kIjoiR0VUIn0="
           {| success := true; data := Some (JString "payload"); error := None;
              statusCode := Some 200; responseTime := Some 0; cached := None |}
           (JString "payload") 50000).
  - vm_compute. reflexivity.
  - vm_compute. reflexivity.
  - vm_compute. reflexivity.
  - vm_compute. reflexivity.
  - vm_compute. reflexivity.
  - vm_compute. reflexivity.
  - vm_compute. reflexivity.
  - vm_compute. reflexivity.
  - vm_compute. discriminate.
Defined.

End CacheRoundTrip.

(* ------------------------------------------------------------------ *)
(** * Integration layer: waits that the timer cannot hold *)

Section TimerOverflow.
Import Js Layer Spec.

(** X27.  With a budget of zero requests or less and nothing left in the
    window the limiter has no oldest timestamp to wait for: it asks for an
    infinite wait, which the timer turns into one millisecond, and then
    lets the request through.  More generally every wait of more than
    [2^31 - 1] ms is over after 1 ms. *)
Theorem no_budget_waits_one_millisecond :
  forall st : St,
    pruned st = [] ->
    maxRequests (rateLimitConfig st) <= 0 ->
    fst (checkRateLimit st) = Return tt
    /\ trace (snd (checkRateLimit st)) = (trace st ++ [Delay PosInf])%list
    /\ clock (snd (checkRateLimit st)) = clock st + 1
    /\ rateLimitHits (metrics (snd (checkRateLimit st)))
       = rateLimitHits (metrics st) + 1
    /\ window (snd (checkRateLimit st)) = [clock st]
    /\ forall ms : Z, 2147483647 < ms -> clock (snd (delay (Fin ms) st)) = clock st + 1.
Proof.
  intros st He Hmax.
  destruct (checkRateLimit_frame st) as (Hw & _).
  rewrite Hw, He. rewrite checkRateLimit_step. cbv zeta. rewrite He. simpl.
  replace (0 >=? maxRequests (rateLimitConfig st)) with true
    by (symmetry; rewrite Z.geb_leb; apply Z.leb_le; exact Hmax).
  repeat split.
  intros ms Hms. unfold timer_ms.
  replace (2147483647 <? ms) with true by (symmetry; apply Z.ltb_lt; exact Hms).
  rewrite orb_true_r. reflexivity.
Qed.

Lemma no_budget_waits_one_millisecond_witness :
  let st := Sample.no_budget_layer in
  fst (checkRateLimit st) = Return tt
  /\ trace (snd (checkRateLimit st)) = (trace st ++ [Delay PosInf])%list
  /\ clock (snd (checkRateLimit st)) = clock st + 1
  /\ rateLimitHits (metrics (snd (checkRateLimit st)))
     = rateLimitHits (metrics st) + 1
  /\ window (snd (checkRateLimit st)) = [clock st]
  /\ forall ms : Z, 2147483647 < ms -> clock (snd (delay (Fin ms) st)) = clock st + 1.
Proof.
  cbv zeta. apply no_budget_waits_one_millisecond.
  - vm_compute. reflexivity.
  - vm_compute. discriminate.
Defined.

End TimerOverflow.

(* ------------------------------------------------------------------ *)
(** * Monitor and services: collecting metrics *)

Section MetricsCollection.
Import Js Monitor Registry Spec.

Lemma recordMetrics_frame (now : Z) (name : string) (m : Layer.IntegrationMetrics)
    (st : Registry.St) :
  objects (recordMetrics now name m st) = objects st
  /\ services (recordMetrics now name m st) = services st
  /\ monitor (recordMetrics now name m st) = monitor st
  /\ recorded (recordMetrics now name m st) = (recorded st ++ [(name, m)])%list.
Proof. repeat split. Qed.

Lemma collect_pass (l : JsMap nat) :
  forall (now : Z) (st : Registry.St),
    (forall name ref, In (name, ref) l -> (ref < List.length (objects st))%nat) ->
    let st' :=
      fold_left
        (fun s entry =>
           match metrics_of (snd entry) s with
           | Some m => recordMetrics now (fst entry) m s
           | None => s
           end)
        l st in
    map fst (recorded st') = (map fst (recorded st) ++ map_keys l)%list
    /\ objects st' = objects st
    /\ services st' = services st
    /\ monitor st' = monitor st.
Proof.
  induction l as [|[name ref] r IH]; intros now st Hrefs; cbv zeta.
  - simpl. rewrite app_nil_r. repeat split.
  - cbn [fold_left fst snd].
    assert (Hm : exists m, metrics_of ref st = Some m).
    { unfold metrics_of.
      destruct (nth_error (objects st) ref) as [o |] eqn:Ho; [eauto |].
      apply nth_error_None in Ho.
      specialize (Hrefs name ref (or_introl eq_refl)). lia. }
    destruct Hm as [m ->].
    destruct (IH now (recordMetrics now name m st)) as (R1 & R2 & R3 & R4).
    { intros n x Hin. apply (Hrefs n x). right. exact Hin. }
    cbv zeta in R1, R2, R3, R4. rewrite R1, R2, R3, R4.
    cbn [recorded recordMetrics objects services monitor].
    rewrite map_app. unfold map_keys. simpl map. rewrite <- app_assoc.
    repeat split.
Qed.

(** X28.  A collection pass records one sample for every registered
    service, in the order of registration, and touches neither the log
    store nor the services. *)
Theorem collectMetrics_samples_every_service :
  forall (now : Z) (st : Registry.St),
    (forall name ref,
        In (name, ref) (services st) -> (ref < List.length (objects st))%nat) ->
    map fst (recorded (collectMetrics now st))
    = (map fst (recorded st) ++ map_keys (services st))%list
    /\ objects (collectMetrics now st) = objects st
    /\ services (collectMetrics now st) = services st
    /\ monitor (collectMetrics now st) = monitor st.
Proof.
  intros now st Hrefs. unfold collectMetrics.
  apply (collect_pass (services st) now st Hrefs).
Qed.

Lemma collectMetrics_samples_every_service_witness :
  let st := Sample.registry in
  map fst (recorded (collectMetrics 2000 st))
  = (map fst (recorded st) ++ map_keys (services st))%list
  /\ objects (collectMetrics 2000 st) = objects st
  /\ services (collectMetrics 2000 st) = services st
  /\ monitor (collectMetrics 2000 st) = monitor st.
Proof.
  cbv zeta. apply collectMetrics_samples_every_service.
  vm_compute. intros name ref [H | []]. injection H as _ <-. constructor.
Defined.

Lemma map_delete_set_absent {V : Type} (m : JsMap V) (k : string) (v : V) :
  ~ In k (map_keys m) -> map_delete (map_set m k v) k = m.
Proof.
  induction m as [|[k0 v0] r IH]; simpl; intros H.
  - rewrite String.eqb_refl. reflexivity.
  - destruct (String.eqb_spec k0 k) as [-> | Hne].
    + exfalso. apply H. left. reflexivity.
    + simpl. destruct (String.eqb_spec k0 k); [contradiction |].
      f_equal. apply IH. intros Hin. apply H. right. exact Hin.
Qed.

(** X29.  Unregistering a service deletes its metrics history, but the
    listener for ['metrics_update'] stays on the instance: the next update
    that the instance sends out, as it does every minute, starts a new
    history under the unregistered name. *)
Theorem metrics_update_revives_history :
  forall (t1 t2 now : Z) (name : string) (ref : nat) (o : ServiceObject)
         (st : Registry.St),
    nth_error (objects st) ref = Some o ->
    listeners o = [] ->
    ~ In name (map_keys (metricsHistory st)) ->
    let st2 := unregisterService t2 name (registerService t1 name ref st) in
    map_get (metricsHistory st2) name = None
    /\ map_get (metricsHistory (emit_metrics_update now ref st2)) name
       = Some [{| sample_timestamp := now;
                  sample_metrics := Layer.getMetrics (instance o) |}]
    /\ recorded (emit_metrics_update now ref st2)
       = (recorded st ++ [(name, Layer.getMetrics (instance o))])%list.
Proof.
  intros t1 t2 now name ref o st Ho Hl Hfresh. cbv zeta.
  unfold emit_metrics_update, metrics_of, listeners_of, unregisterService,
    registerService.
  cbn [objects services metricsHistory monitor set_monitor recorded]. rewrite Ho.
  rewrite (nth_error_replace_at_same (objects st) ref o _ Ho).
  cbn [listeners instance]. rewrite Hl. cbn [app fold_left].
  rewrite (map_delete_set_absent (metricsHistory st) name [] Hfresh).
  unfold recordMetrics. cbn [metricsHistory recorded set_monitor].
  rewrite (map_get_absent (metricsHistory st) name Hfresh), map_get_set_same.
  unfold keep_last_100. cbn [app List.length].
  change (Z.of_nat 1 >? 100) with false. cbv iota.
  repeat split.
Qed.

Lemma metrics_update_revives_history_witness :
  let st := snd (adopt Sample.fresh_layer
                   (Registry.new_IntegrationMonitor Sample.monitoringConfig)) in
  let o := {| instance := Sample.fresh_layer; listeners := [] |} in
  let st2 := unregisterService 2000 "billing" (registerService 1000 "billing" 0 st) in
  map_get (metricsHistory st2) "billing" = None
  /\ map_get (metricsHistory (emit_metrics_update 61000 0 st2)) "billing"
     = Some [{| sample_timestamp := 61000;
                sample_metrics := Layer.getMetrics (instance o) |}]
  /\ recorded (emit_metrics_update 61000 0 st2)
     = (recorded st ++ [("billing", Layer.getMetrics (instance o))])%list.
Proof.
  cbv zeta.
  apply (metrics_update_revives_history 1000 2000 61000 "billing" 0
           {| instance := Sample.fresh_layer; listeners := [] |}).
  - vm_compute. reflexivity.
  - reflexivity.
  - vm_compute. intros [].
Defined.

End MetricsCollection.
